(** * oneCCL bindings for PyTorch, XPU backend (src/gpu/dpcpp_ccl.cpp)

    A shallow embedding of the GPU half of the collective-communication
    layer: the tensor-set validator, the communicator cache, the asynchronous
    work object, and the all-reduce, reduce, broadcast, all-gather, gather
    and all-to-all entry points with the flatten / unflatten data layout of
    the irregular exchange.

    C++ exceptions and undefined behaviour are explicit outcomes of a small
    state-and-exception monad over the [world]: tensor storages, the process
    group's communicator cache, the trace of library calls, the writes the
    device still owes to buffers and the time the caller spent blocked.  The communication library is a record of oracles;
    tables and macros of headers this file only uses are parameters. *)

From Stdlib Require Import ZArith Lia.
From stdpp Require Import gmap strings list pretty.

Local Open Scope Z_scope.

(** ** Machine integers *)

(** [static_cast<size_t>(x)] and the implicit conversions to [size_t]:
    reduction modulo 2^64. *)
Definition to_size_t (x : Z) : Z := x mod 2 ^ 64.

(** Conversion to a 32-bit [int]: two's complement wrap-around. *)
Definition to_int (x : Z) : Z := (x + 2 ^ 31) mod 2 ^ 32 - 2 ^ 31.

(** ** Exceptions *)

Inductive exn : Type :=
  | runtime_error (what : string)   (* throw std::runtime_error(what) *)
  | c10_Error (what : string)       (* TORCH_CHECK(cond, what) and ATen failures *)
  | out_of_range (what : string)    (* std::map::at on a missing key *)
  | ccl_exception (what : string).  (* CCL_CHECK: failure reported by the library *)

#[global] Instance exn_eq_dec : EqDecision exn.
Proof. solve_decision. Defined.

(** ** Tensors *)

Inductive DeviceType : Type := CPU | CUDA | XPU.

#[global] Instance DeviceType_eq_dec : EqDecision DeviceType.
Proof. solve_decision. Defined.

Inductive ScalarType : Type :=
  | Byte | Char | Short | Int | Long | Half | Float | Double | Bool | BFloat16.

#[global] Instance ScalarType_eq_dec : EqDecision ScalarType.
Proof. solve_decision. Defined.

Record Device : Type := mkDevice {
  dev_type : DeviceType;
  dev_index : Z
}.

#[global] Instance Device_eq_dec : EqDecision Device.
Proof. solve_decision. Defined.

(** An [at::Tensor] handle: metadata plus a view into a storage of the
    [world]'s heap.  A contiguous dense tensor denotes the [numel] elements
    of its storage that start at [storage_offset]. *)
Record Tensor : Type := mkTensor {
  is_sparse : bool;
  scalar_type : ScalarType;
  sizes : list Z;
  is_contiguous : bool;
  device : Device;
  storage : nat;
  storage_offset : nat
}.

#[global] Instance Tensor_eq_dec : EqDecision Tensor.
Proof. solve_decision. Defined.

Definition get_device (t : Tensor) : Z := dev_index (device t).

(** [c10::toString(ScalarType)]. *)
Definition toString (ty : ScalarType) : string :=
  match ty with
  | Byte => "Byte" | Char => "Char" | Short => "Short" | Int => "Int"
  | Long => "Long" | Half => "Half" | Float => "Float" | Double => "Double"
  | Bool => "Bool" | BFloat16 => "BFloat16"
  end.

Definition numel (t : Tensor) : Z := foldr Z.mul 1 (sizes t).

(** ** The communication library's interface *)

Inductive ReduceOp : Type := SUM | PRODUCT | MIN | MAX.

(** One constructor per library entry point the file calls, with the scalar
    arguments of the call (buffer addresses are the tensors' storages). *)
Inductive ccl_call : Type :=
  | ccl_create_communicators (total_rank_size : Z) (rank : Z) (dev : Z)
  | ccl_allreduce (count : Z) (dtype : Z) (op : Z)
  | ccl_reduce (count : Z) (dtype : Z) (op : Z) (root : Z)
  | ccl_broadcast (count : Z) (dtype : Z) (root : Z)
  | ccl_allgatherv (send_count : Z) (recvCounts : list Z) (dtype : Z)
  | ccl_alltoall (count : Z) (dtype : Z)
  | ccl_alltoallv (sendCounts recvCounts : list Z) (dtype : Z).

#[global] Instance ccl_call_eq_dec : EqDecision ccl_call.
Proof. solve_decision. Defined.

(** A [ccl::communicator] of [comm_size] ranks in which this process is
    [comm_rank]. *)
Record communicator : Type := mkCommunicator {
  comm_size : Z;
  comm_rank : Z;
  comm_device : Z
}.

(** A [ccl::stream] wraps the compute queue of one device. *)
Record stream : Type := mkStream { stream_queue : Z }.

(** [Comms]: the communicator-plus-stream bundle. *)
Record Comms : Type := mkComms {
  comms : list communicator;
  streams : list stream
}.

(** A [ccl::event]: [ev_latency] is the time (ms) after which the device
    reports completion. *)
Record event : Type := mkEvent {
  ev_call : ccl_call;
  ev_latency : nat
}.

(** What the program cannot see of the library: whether it rejects a call,
    how long a call takes on the device and what data an exchange delivers. *)
Record CCL : Type := mkCCL {
  ccl_status : ccl_call -> option exn;
  ccl_latency : ccl_call -> nat;
  ccl_exchange : list Z -> list Z -> list Z -> list Z
}.

(** ** The world and the monad *)

(** A write the device still owes.  The library calls return at once and the
    device works on: the elements [if_data] reach storage [if_storage], from
    element [if_offset] on, when the event of call [if_call] completes; until
    then the storage holds what it held. *)
Record inflight : Type := mkInflight {
  if_call : ccl_call;
  if_storage : nat;
  if_offset : nat;
  if_data : list Z
}.

Record world : Type := mkWorld {
  w_heap : list (list Z);        (* tensor storages; a storage is its elements *)
  w_comms : gmap string nat;     (* pg_ccl.ccl_member_: key -> shared_ptr<Comms> *)
  w_bundles : list Comms;        (* the Comms objects, by address *)
  w_kvs : nat;                   (* rendezvous handles requested from the store *)
  w_issued : list ccl_call;      (* library calls issued so far, oldest first *)
  w_clock : nat;                 (* time (ms) the calling thread spent blocked *)
  w_inflight : list inflight     (* writes of issued calls not yet completed *)
}.

Definition set_heap (h : list (list Z)) (w : world) : world :=
  mkWorld h (w_comms w) (w_bundles w) (w_kvs w) (w_issued w) (w_clock w)
          (w_inflight w).

Inductive outcome (A : Type) : Type :=
  | Ret (a : A) (w : world)      (* normal return *)
  | Exc (e : exn) (w : world)    (* an exception propagates *)
  | Undef.                       (* undefined behaviour *)

Arguments Ret {A} a w.
Arguments Exc {A} e w.
Arguments Undef {A}.

Definition M (A : Type) : Type := world -> outcome A.

Definition ret {A} (a : A) : M A := fun w => Ret a w.

Definition bind {A B} (c : M A) (k : A -> M B) : M B :=
  fun w => match c w with
           | Ret a w' => k a w'
           | Exc e w' => Exc e w'
           | Undef => Undef
           end.

Definition throw {A} (e : exn) : M A := fun w => Exc e w.

Definition undefined {A} : M A := fun _ => Undef.

Notation "'let!' x ':=' c 'in' k" := (bind c (fun x => k))
  (at level 10, x name, c at level 100, k at level 200).
Notation "'let!' ' p ':=' c 'in' k" := (bind c (fun p => k))
  (at level 10, p strict pattern, c at level 100, k at level 200).
Notation "c '>>' k" := (bind c (fun _ => k))
  (at level 100, k at level 200, right associativity).

(** [TORCH_CHECK(cond, msg)]. *)
Definition TORCH_CHECK (cond : bool) (msg : string) : M unit :=
  if cond then ret tt else throw (c10_Error msg).

(** [v[i]] on a [std::vector]: undefined out of range. *)
Definition vector_at {A} (v : list A) (i : Z) : M A :=
  if decide (0 <= i) then
    match v !! Z.to_nat i with
    | Some a => ret a
    | None => undefined
    end
  else undefined.

(** [CCL_CHECK(evt = ccl::f(...))]: the call is issued; the library either
    rejects it, which CCL_CHECK rethrows, or returns its event. *)
Definition ccl_issue (lib : CCL) (c : ccl_call) : M event :=
  fun w =>
    let w' := mkWorld (w_heap w) (w_comms w) (w_bundles w) (w_kvs w)
                      (w_issued w ++ [c]) (w_clock w) (w_inflight w) in
    match ccl_status lib c with
    | Some e => Exc e w'
    | None => Ret (mkEvent c (ccl_latency lib c)) w'
    end.

(** ** TensorSetValidator: [check_tensors_properties] *)

(** The body of the [for (const auto& t : tensors)] loop, with the
    [usedDevices] set threaded through. *)
Fixpoint check_tensors_loop (first : Tensor) (dev_type_ : DeviceType)
    (usedDevices : gset Z) (tensors : list Tensor) : M unit :=
  match tensors with
  | [] => ret tt
  | t :: rest =>
    if is_sparse t then
      throw (runtime_error "Tensors must be dense")
    else if negb (bool_decide (scalar_type t = scalar_type first)) then
      throw (runtime_error "Tensors must have identical type")
    else if negb (bool_decide (sizes t = sizes first)) then
      throw (runtime_error "Tensors must have identical size")
    else if negb (is_contiguous t) then
      throw (runtime_error "Tensors must be contiguous")
    else if negb (bool_decide (dev_type_ = dev_type (device t))) then
      throw (runtime_error "Tensors must be on the same device type")
    else
      let inserted := negb (bool_decide (get_device t ∈ usedDevices)) in
      if negb inserted then
        throw (runtime_error "Tensors must be on distinct devices")
      else
        check_tensors_loop first dev_type_ ({[get_device t]} ∪ usedDevices) rest
  end.

(** [device_count] is the result of [xpu::dpcpp::device_count()]. *)
Definition check_tensors_properties (device_count : Z) (tensors : list Tensor)
    : M DeviceType :=
  if bool_decide (length tensors = 0%nat) then
    throw (runtime_error "Tensor list must be nonempty")
  else if bool_decide (Z.of_nat (length tensors) > to_size_t device_count) then
    throw (runtime_error
      "Tensor list mustn't be larger than the number of available GPUs")
  else
    match tensors with
    | [] => undefined                      (* tensors.front() *)
    | first :: _ =>
      let dev_type_ := dev_type (device first) in
      check_tensors_loop first dev_type_ ∅ tensors >>
      ret dev_type_
    end.

(** ** CommunicatorCache: [get_ccl_comms] *)

(** The process group as this file reads it: [getRank()] and [getSize()].
    Its communicator cache lives in the [world]. *)
Record ProcessGroupCCL : Type := mkPG {
  getRank : Z;
  getSize : Z
}.

(** Modelled from the spec: [ccl_member_->get_comms], the cache lookup, is
    declared with the process group outside this file.  "If an entry exists
    for key, returns it": the cached bundle's address, or a null pointer. *)
Definition get_comms (devices_key : string) : M (option nat) :=
  fun w => Ret (w_comms w !! devices_key) w.

(** Modelled from the spec: [ccl_member_->add_comms], the cache insertion
    ("stores ... the new bundle"). *)
Definition add_comms (devices_key : string) (ptr : nat) : M unit :=
  fun w => Ret tt (mkWorld (w_heap w) (<[devices_key := ptr]> (w_comms w))
                           (w_bundles w) (w_kvs w) (w_issued w) (w_clock w)
                           (w_inflight w)).

(** Modelled from the spec: [ccl_member_->get_kvs(rank, store)] "requests a
    shared rendezvous handle from the process group's external store". *)
Definition get_kvs (rank : Z) : M unit :=
  fun w => Ret tt (mkWorld (w_heap w) (w_comms w) (w_bundles w)
                           (S (w_kvs w)) (w_issued w) (w_clock w) (w_inflight w)).

(** [std::make_shared<Comms>(...)]: a new object at a fresh address. *)
Definition make_shared_Comms (c : Comms) : M nat :=
  fun w => Ret (length (w_bundles w))
               (mkWorld (w_heap w) (w_comms w) (w_bundles w ++ [c])
                        (w_kvs w) (w_issued w) (w_clock w) (w_inflight w)).

(** Dereferencing a [Comms&]. *)
Definition deref_Comms (ptr : nat) : M Comms :=
  fun w => match w_bundles w !! ptr with
           | Some c => Ret c w
           | None => Undef
           end.

Section Backend.

(** The library and the tables and macros of the repository's headers that
    this file only uses. *)
Variable lib : CCL.
Variable cclDatatypes : ScalarType -> option Z.
Variable cclOps : ReduceOp -> option Z.
(** [CCL_DISPATCH_INTEGRAL_FLOATS_TYPES(type, name, ...)]: the exception the
    macro raises for a scalar type it does not dispatch, if any. *)
Variable dispatch_unsupported : ScalarType -> string -> option exn.
(** [checkSingleTensorHelper]: the exception it raises on a tensor, if any. *)
Variable checkSingleTensorHelper_fails : Tensor -> option exn.
(** The conversion of ATen's copy kernels: what an element of the first
    scalar type becomes when it is stored with the second. *)
Variable convert_element : ScalarType -> ScalarType -> Z -> Z.

Definition get_ccl_comms (pg_ccl : ProcessGroupCCL) (devices_key : string)
    (devices : list Device) : M nat :=
  (* Sanity check *)
  if bool_decide (devices_key = "") then
    throw (runtime_error
      "Not able to create/get the CCL Communicator since the devices are empty ")
  else if negb (bool_decide (length devices = 1%nat)) then
    throw (runtime_error "Torch CCL only support one device per process now")
  else
    let! cached_comms := get_comms devices_key in
    match cached_comms with
    | Some c => ret c
    | None =>
      (* Only support the symmetric distributed communication *)
      let total_rank_size :=
        to_int (to_size_t (to_size_t (getSize pg_ccl) * Z.of_nat (length devices))) in
      let local_base_rank :=
        to_int (to_size_t (to_size_t (getRank pg_ccl) * Z.of_nat (length devices))) in
      let! d0 := vector_at devices 0 in
      (* Use the same queue for computation and communication. *)
      let q := dev_index d0 in
      let ccl_streams := [mkStream q] in
      let rank := local_base_rank in
      get_kvs (getRank pg_ccl) >>
      ccl_issue lib (ccl_create_communicators total_rank_size rank q) >>
      let dpcpp_comms := [mkCommunicator total_rank_size rank q] in
      let! dpcpp_comms_ptr := make_shared_Comms (mkComms dpcpp_comms ccl_streams) in
      (* Store the comms to cache *)
      add_comms devices_key dpcpp_comms_ptr >>
      ret dpcpp_comms_ptr
    end.

(** ** AsyncWork *)

Inductive WorkState : Type :=
  | Running
  | Completed
  | Failed (cause : exn).

(** [ProcessGroupCCL::AsyncWorkCCL], as [XPUWorkCCL] instantiates it.
    [work_run] is the closure [run()] executes: the collective's function
    applied to the inputs, outputs and communicator captured at construction. *)
Record AsyncWorkCCL : Type := mkWork {
  work_run : M (list event);
  rets : list event;
  work_state : WorkState;
  debugName : string
}.

Definition set_debugName (name : string) (work : AsyncWorkCCL) : AsyncWorkCCL :=
  mkWork (work_run work) (rets work) (work_state work) name.

(** Modelled from the spec: [CollectiveAsyncWorkCCL::run], defined with the
    work template outside this file.  "run() performs the dispatch call ...
    and captures the event": [f] is applied to each input with its output,
    communicator and stream, and the events are kept in [rets].  The output
    is read by index, so that a run with fewer outputs than inputs is
    undefined here. *)
Fixpoint run_from {I O : Type}
    (f : I -> O -> communicator -> stream -> M event)
    (inputs : list I) (outputs : list O) (c : Comms) (i : nat) : M (list event) :=
  match inputs with
  | [] => ret []
  | input :: inputs' =>
    let! output := vector_at outputs (Z.of_nat i) in
    let! comm := vector_at (comms c) (Z.of_nat i) in
    let! strm := vector_at (streams c) (Z.of_nat i) in
    let! evt := f input output comm strm in
    let! evts := run_from f inputs' outputs c (S i) in
    ret (evt :: evts)
  end.

(** [XPUWorkCCL::run] only calls the base class's [run]. *)
Definition XPUWorkCCL_run (work : AsyncWorkCCL) : M AsyncWorkCCL :=
  let! evts := work_run work in
  ret (mkWork (work_run work) evts (work_state work) (debugName work)).

(** Modelled from the spec: [finishAsyncWorkCCL] and
    [finishAsyncWorkCCLError], defined with the process group.  The work
    "transitions to Completed" or "to Failed carrying the captured cause". *)
Definition finishAsyncWorkCCL (work : AsyncWorkCCL) : AsyncWorkCCL :=
  mkWork (work_run work) (rets work) Completed (debugName work).

(** Modelled from the spec: [finishAsyncWorkCCLError], see above. *)
Definition finishAsyncWorkCCLError (eptr : exn) (work : AsyncWorkCCL) : AsyncWorkCCL :=
  mkWork (work_run work) (rets work) (Failed eptr) (debugName work).

(** [execute]: the [try { work->run(); } catch (...)] block.  An exception of
    [run] is caught with the world as [run] left it. *)
Definition execute (work : AsyncWorkCCL) : M AsyncWorkCCL :=
  fun w =>
    match XPUWorkCCL_run work w with
    | Exc e w' => Ret (finishAsyncWorkCCLError e work) w'
    | Ret work' w' => Ret (finishAsyncWorkCCL work') w'
    | Undef => Undef
    end.


Definition block_for (ms : nat) : M unit :=
  fun w => Ret tt (mkWorld (w_heap w) (w_comms w) (w_bundles w) (w_kvs w)
                           (w_issued w) (w_clock w + ms) (w_inflight w)).




(** ** Tensor storage *)

(** [to_int64]: a [size_t] read as an [int64_t], as the casts of the count
    vectors to [IntArrayRef] do. *)
Definition to_int64 (x : Z) : Z := (x + 2 ^ 63) mod 2 ^ 64 - 2 ^ 63.

Definition sum_integers (l : list Z) : Z := foldr Z.add 0 l.

(** The [len] elements from [off] on of storage [s], when they lie within it. *)
Definition region (h : list (list Z)) (s off len : nat) : option (list Z) :=
  match h !! s with
  | Some st =>
    if bool_decide (off + len <= length st)%nat
    then Some (take len (drop off st))
    else None
  | None => None
  end.

(** The elements a contiguous tensor denotes, when its view lies within its
    storage. *)
Definition contents (h : list (list Z)) (t : Tensor) : option (list Z) :=
  region h (storage t) (storage_offset t) (Z.to_nat (numel t)).

(** Reading [n] elements from [t.data_ptr()] on. *)
Definition read_from (t : Tensor) (n : nat) : M (list Z) :=
  fun w => match w_heap w !! storage t with
           | Some st =>
             if bool_decide (storage_offset t + n <= length st)%nat
             then Ret (take n (drop (storage_offset t) st)) w
             else Undef
           | None => Undef
           end.

(** A storage with [data] written from element [off] on. *)
Definition splice (st : list Z) (off : nat) (data : list Z) : list Z :=
  take off st ++ data ++ drop (off + length data) st.

(** Writing [data] from [t.data_ptr()] on. *)
Definition write_at (t : Tensor) (data : list Z) : M unit :=
  fun w => match w_heap w !! storage t with
           | Some st =>
             if bool_decide (storage_offset t + length data <= length st)%nat
             then Ret tt (set_heap
                    (<[storage t := splice st (storage_offset t) data]> (w_heap w)) w)
             else Undef
           | None => Undef
           end.

(** [at::empty({n}, first.options())]: a fresh storage of [n] elements.
    Their values are unspecified; the model takes zeros, and nothing proved
    below reads them before they are overwritten. *)
Definition at_empty (n : Z) (first : Tensor) : M Tensor :=
  fun w => Ret (mkTensor false (scalar_type first) [n] true (device first)
                         (length (w_heap w)) 0)
               (set_heap (w_heap w ++ [replicate (Z.to_nat n) 0]) w).

(** [t.view({-1})]: the same elements as a one-dimensional tensor. *)
Definition view_flat (t : Tensor) : M Tensor :=
  if is_sparse t || negb (is_contiguous t) then
    throw (c10_Error "view size is not compatible with input tensor's size and stride")
  else
    ret (mkTensor false (scalar_type t) [numel t] true (device t)
                  (storage t) (storage_offset t)).

(** The views [split_with_sizes] returns, from element [off] on. *)
Fixpoint split_views (t : Tensor) (off : nat) (split_sizes : list Z) : list Tensor :=
  match split_sizes with
  | [] => []
  | n :: rest =>
    mkTensor false (scalar_type t) [n] true (device t) (storage t)
             (storage_offset t + off)
    :: split_views t (off + Z.to_nat n) rest
  end.

(** [t.split_with_sizes(split_sizes, 0)] on a one-dimensional tensor. *)
Definition split_with_sizes (t : Tensor) (split_sizes : list Z) : M (list Tensor) :=
  if negb (forallb (fun n => bool_decide (0 <= n)) split_sizes) then
    throw (c10_Error "split_with_sizes expects split_sizes have only non-negative entries")
  else if negb (bool_decide (sum_integers split_sizes = numel t)) then
    throw (c10_Error "split_with_sizes expects split_sizes to sum exactly to the dimension size")
  else ret (split_views t 0 split_sizes).

(** [dst.copy_(src)] on one-dimensional views: element-wise copy, a
    one-element source being broadcast; the elements are converted when the
    scalar types differ. *)
Definition copy_ (dst src : Tensor) : M unit :=
  let! data := read_from src (Z.to_nat (numel src)) in
  let data :=
    if bool_decide (scalar_type src = scalar_type dst) then data
    else convert_element (scalar_type src) (scalar_type dst) <$> data in
  if bool_decide (numel src = numel dst) then write_at dst data
  else if bool_decide (numel src = 1) then
    write_at dst (replicate (Z.to_nat (numel dst)) (default 0 (head data)))
  else throw (c10_Error "The size of tensor a must match the size of tensor b").

(** [map.at(key)]. *)
Definition map_at {K V} (m : K -> option V) (k : K) : M V :=
  match m k with
  | Some v => ret v
  | None => throw (out_of_range "map::at")
  end.

Definition CCL_DISPATCH_INTEGRAL_FLOATS_TYPES {A} (ty : ScalarType) (name : string)
    (body : M A) : M A :=
  match dispatch_unsupported ty name with
  | Some e => throw e
  | None => body
  end.

Definition checkSingleTensorHelper (t : Tensor) : M unit :=
  match checkSingleTensorHelper_fails t with
  | Some e => throw e
  | None => ret tt
  end.

(** [t.size(0)]. *)
Definition size0 (t : Tensor) : M Z :=
  match sizes t with
  | [] => throw (c10_Error "Dimension specified as 0 but tensor has no dimensions")
  | n :: _ => ret n
  end.

(** [t.data_ptr<scalar_t>()]: the typed pointer to a tensor's elements, an
    error when the tensor holds another scalar type.  The pointer is the
    tensor as a view of its storage.  Where a library call takes two typed
    pointers and a datatype, the functions below evaluate them in the order
    of the arguments; C++ leaves that order to the compiler, and what is
    proved of a refused pointer is proved where no other argument raises. *)
Definition data_ptr (scalar_t : ScalarType) (t : Tensor) : M Tensor :=
  if bool_decide (scalar_type t = scalar_t) then ret t
  else throw (c10_Error ("expected scalar type " +:+ toString scalar_t +:+
                         " but found " +:+ toString (scalar_type t))).

(** The device is left owing the elements [data] to the buffer at [t]; a
    buffer too short for them would be overrun, which is undefined. *)
Definition post_write (c : ccl_call) (t : Tensor) (data : list Z) : M unit :=
  fun w => match w_heap w !! storage t with
           | Some st =>
             if bool_decide (storage_offset t + length data <= length st)%nat
             then Ret tt (mkWorld (w_heap w) (w_comms w) (w_bundles w) (w_kvs w)
                            (w_issued w) (w_clock w)
                            (w_inflight w ++
                               [mkInflight c (storage t) (storage_offset t) data]))
             else Undef
           | None => Undef
           end.

(** A write of the device reaching its storage. *)
Definition land (h : list (list Z)) (p : inflight) : list (list Z) :=
  match h !! if_storage p with
  | Some st => <[if_storage p := splice st (if_offset p) (if_data p)]> h
  | None => h
  end.

(** The writes of call [c] reach their storages, oldest first. *)
Definition complete (c : ccl_call) : M unit :=
  fun w => Ret tt
    (mkWorld (foldl land (w_heap w) (filter (fun p => if_call p = c) (w_inflight w)))
             (w_comms w) (w_bundles w) (w_kvs w) (w_issued w) (w_clock w)
             (filter (fun p => if_call p <> c) (w_inflight w))).

(** [ccl::alltoallv] on the flat buffers: the call is issued, the device
    takes the send buffer's elements and owes the receive buffer what the
    exchange delivers, one element per unit of [recvCounts]. *)
Definition ccl_alltoallv_on (flatInput : Tensor) (sendCounts : list Z)
    (flatOutput : Tensor) (recvCounts : list Z) (dtype : Z) : M event :=
  let call := ccl_alltoallv sendCounts recvCounts dtype in
  let! evt := ccl_issue lib call in
  let! sent := read_from flatInput (Z.to_nat (sum_integers sendCounts)) in
  post_write call flatOutput
    (resize (Z.to_nat (sum_integers recvCounts)) 0
            (ccl_exchange lib sent sendCounts recvCounts)) >>
  ret evt.

(** [ret_evt.wait()]: blocks until the device reports completion; the writes
    of the event's call have then reached their storages. *)
Definition event_wait (evt : event) : M unit :=
  block_for (ev_latency evt) >> complete (ev_call evt).

(** ** LayoutFlattener *)

(** [v[i] = x] on a [std::vector]: undefined out of range. *)
Definition vector_set {A} (v : list A) (i : Z) (x : A) : M (list A) :=
  if decide (0 <= i) then
    if decide (Z.to_nat i < length v)%nat then ret (<[Z.to_nat i := x]> v)
    else undefined
  else undefined.

(** Modelled from the spec: the state of the scan of
    [computeLengthsAndCheckAndGetFlat]: the first non-empty tensor, the
    running offset, the flat flag and the lengths table. *)
Record flat_scan : Type := mkScan {
  firstTensor : Tensor;
  scan_offset : Z;
  isFlat : bool;
  scan_lengths : list Z
}.

(** Modelled from the spec: the loop of [computeLengthsAndCheckAndGetFlat]
    (declared in the repository's utility header, outside this file).  It
    fills the per-participant lengths in rank order and decides whether the
    list "is already a single contiguous buffer whose layout matches a flat
    interpretation": every non-empty tensor lies in the first non-empty
    tensor's storage, at the offset the preceding lengths give it. *)
Fixpoint scan_lengths_loop (tensors : list Tensor) (n : nat) (i : Z)
    (s : flat_scan) : M flat_scan :=
  match n with
  | O => ret s
  | S n' =>
    let! curTensor := vector_at tensors i in
    let len := numel curTensor in
    let first :=
      if bool_decide (numel (firstTensor s) = 0) && negb (bool_decide (len = 0))
      then curTensor else firstTensor s in
    let! lengths := vector_set (scan_lengths s) i (to_size_t len) in
    let flat :=
      isFlat s &&
      negb (negb (bool_decide (len = 0)) &&
            (negb (bool_decide (storage first = storage curTensor)) ||
             negb (bool_decide (Z.of_nat (storage_offset curTensor) =
                                Z.of_nat (storage_offset first) + scan_offset s)))) in
    scan_lengths_loop tensors n' (i + 1)
      (mkScan first (scan_offset s + len) flat lengths)
  end.

(** Modelled from the spec: [computeLengthsAndCheckAndGetFlat(tensors,
    lengths, flatTensor, flatLength)], [lengths] arriving with one slot per
    participant.  A flat list "is reused directly"; "otherwise a new
    contiguous buffer sized to the sum of per-buffer element counts is
    allocated".  Returns [(isFlat, lengths, flatTensor, flatLength)]. *)
Definition computeLengthsAndCheckAndGetFlat (tensors : list Tensor)
    (lengths : list Z) : M (bool * list Z * Tensor * Z) :=
  let groupSize := length lengths in
  let! first := vector_at tensors 0 in
  let! s := scan_lengths_loop tensors groupSize 0 (mkScan first 0 true lengths) in
  let flatLength := scan_offset s in
  if isFlat s then ret (true, scan_lengths s, firstTensor s, flatLength)
  else
    let! flatTensor := at_empty flatLength (firstTensor s) in
    ret (false, scan_lengths s, flatTensor, flatLength).

(** [for (i < grp_size) flatInputSplits[i].copy_(inputs[i].view({-1}))]. *)
Fixpoint flatten_loop (n : nat) (i : Z) (flatInputSplits inputs : list Tensor)
    : M unit :=
  match n with
  | O => ret tt
  | S n' =>
    let! dst := vector_at flatInputSplits i in
    let! input := vector_at inputs i in
    let! src := view_flat input in
    copy_ dst src >>
    flatten_loop n' (i + 1) flatInputSplits inputs
  end.

(** [for (i < grp_size) outputs[i].view({-1}).copy_(flatOutputSplits[i])]. *)
Fixpoint unflatten_loop (n : nat) (i : Z) (outputs flatOutputSplits : list Tensor)
    : M unit :=
  match n with
  | O => ret tt
  | S n' =>
    let! output := vector_at outputs i in
    let! dst := view_flat output in
    let! src := vector_at flatOutputSplits i in
    copy_ dst src >>
    unflatten_loop n' (i + 1) outputs flatOutputSplits
  end.

(** The flatten step of the all-to-all function: the send buffer is filled
    unless the inputs were flat already. *)
Definition flatten_inputs (grp_size : Z) (isInputFlat : bool) (flatInput : Tensor)
    (sendCounts : list Z) (inputs : list Tensor) : M unit :=
  if negb isInputFlat then
    let! flatInputSplits := split_with_sizes flatInput (to_int64 <$> sendCounts) in
    flatten_loop (Z.to_nat grp_size) 0 flatInputSplits inputs
  else ret tt.

(** The unflatten step: wait for the event, then split the receive buffer
    into the outputs; skipped when the outputs were flat already. *)
Definition unflatten_outputs (grp_size : Z) (isOutputFlat : bool) (ret_evt : event)
    (flatOutput : Tensor) (recvCounts : list Z) (outputs : list Tensor) : M unit :=
  if negb isOutputFlat then
    event_wait ret_evt >>
    let! flatOutputSplits := split_with_sizes flatOutput (to_int64 <$> recvCounts) in
    unflatten_loop (Z.to_nat grp_size) 0 outputs flatOutputSplits
  else ret tt.

(** ** CollectiveDispatcher *)

(** Modelled from the spec: [get_device_list] of the repository's utility
    header, the devices of the call's buffers in order. *)
Definition get_device_list (tensors : list Tensor) : M (list Device) :=
  ret (device <$> tensors).

(** Modelled from the spec: [get_device_list] on a list of tensor lists, one
    device per list, that of its first tensor. *)
Fixpoint get_device_list_nested (tensors : list (list Tensor)) : M (list Device) :=
  match tensors with
  | [] => ret []
  | ts :: rest =>
    let! t0 := vector_at ts 0 in
    let! ds := get_device_list_nested rest in
    ret (device t0 :: ds)
  end.

(** Modelled from the spec: [get_key_from_devs] of the utility header.  The
    key is "derived from the ordered set of participating device indices":
    the indices in order, comma-separated, so that no device gives the empty
    key that [get_ccl_comms] rejects. *)
Fixpoint get_key_from_devs (devices : list Device) : string :=
  match devices with
  | [] => ""
  | [d] => pretty (dev_index d)
  | d :: rest => pretty (dev_index d) +:+ "," +:+ get_key_from_devs rest
  end.

(** Modelled from the spec: the [collective] template of the utility header.
    It "resolves a CommunicatorBundle via CommunicatorCache using the
    device-topology key derived from the call's buffers" and wraps the
    dispatch in an AsyncWork created in the running state; [run()] will apply
    [fun_] to the inputs and outputs with the bundle's communicators. *)
Definition collective {I O : Type} (devices_of : list I -> M (list Device))
    (pg_ccl : ProcessGroupCCL) (inputs : list I) (outputs : list O)
    (fun_ : I -> O -> communicator -> stream -> M event) : M AsyncWorkCCL :=
  let! devices := devices_of inputs in
  let key := get_key_from_devs devices in
  let! comms_ptr := get_ccl_comms pg_ccl key devices in
  ret (mkWork (let! c := deref_Comms comms_ptr in
               run_from fun_ inputs outputs c 0)
              [] Running "").

Record AllreduceOptions : Type := mkAllreduceOptions { ar_reduceOp : ReduceOp }.

Record ReduceOptions : Type := mkReduceOptions {
  reduceOp : ReduceOp;
  rootRank : Z;
  rootTensor : Z
}.

Record BroadcastOptions : Type := mkBroadcastOptions {
  bc_rootRank : Z;
  bc_rootTensor : Z
}.

Record GatherOptions : Type := mkGatherOptions { g_rootRank : Z }.

(** [checkGPUTensor(const std::vector<at::Tensor>&)]: the single-tensor
    overload it calls on [tensors[0]] has an empty body. *)
Definition checkGPUTensor (tensors : list Tensor) : M unit :=
  vector_at tensors 0 >> ret tt.

Definition allreduce_fn (opts : AllreduceOptions) (input output : Tensor)
    (comm : communicator) (strm : stream) : M event :=
  let! dtype := map_at cclDatatypes (scalar_type input) in
  let! op := map_at cclOps (ar_reduceOp opts) in
  ccl_issue lib (ccl_allreduce (to_size_t (numel input)) dtype op).

Definition allreduce_ (tensors : list Tensor) (opts : AllreduceOptions)
    (pg_ccl : ProcessGroupCCL) : M AsyncWorkCCL :=
  checkGPUTensor tensors >>
  let! work := collective get_device_list pg_ccl tensors tensors (allreduce_fn opts) in
  execute (set_debugName "xpu::allreduce" work).

(** [const int root = opts.rootRank * tensors.size() + opts.rootTensor]:
    computed in [size_t], then converted to [int]. *)
Definition flat_root (rootRank_ rootTensor_ : Z) (tensors : list Tensor) : Z :=
  to_int (to_size_t (to_size_t (to_size_t rootRank_ * Z.of_nat (length tensors))
                     + to_size_t rootTensor_)).

Definition reduce_fn (opts : ReduceOptions) (root : Z) (input output : Tensor)
    (comm : communicator) (strm : stream) : M event :=
  let! dtype := map_at cclDatatypes (scalar_type input) in
  let! op := map_at cclOps (reduceOp opts) in
  ccl_issue lib (ccl_reduce (to_size_t (numel input)) dtype op root).

Definition reduce_ (tensors : list Tensor) (opts : ReduceOptions)
    (pg_ccl : ProcessGroupCCL) : M AsyncWorkCCL :=
  checkGPUTensor tensors >>
  let root := flat_root (rootRank opts) (rootTensor opts) tensors in
  let! work := collective get_device_list pg_ccl tensors tensors (reduce_fn opts root) in
  execute (set_debugName "xpu::reduce" work).

Definition broadcast_fn (root : Z) (input output : Tensor)
    (comm : communicator) (strm : stream) : M event :=
  let! dtype := map_at cclDatatypes (scalar_type input) in
  ccl_issue lib (ccl_broadcast (to_size_t (numel input)) dtype root).

Definition broadcast_ (tensors : list Tensor) (opts : BroadcastOptions)
    (pg_ccl : ProcessGroupCCL) : M AsyncWorkCCL :=
  checkGPUTensor tensors >>
  let root := flat_root (bc_rootRank opts) (bc_rootTensor opts) tensors in
  let! work := collective get_device_list pg_ccl tensors tensors (broadcast_fn root) in
  execute (set_debugName "xpu::broadcast" work).

Definition allgather_fn (rank : Z) (input : Tensor) (outputs : list Tensor)
    (comm : communicator) (strm : stream) : M event :=
  let recvCounts := (fun t => to_size_t (numel t)) <$> outputs in
  let! own := vector_at recvCounts rank in
  TORCH_CHECK (bool_decide (to_size_t (numel input) = own))
              "allgather: send and recv count doesn't match" >>
  let! dtype := map_at cclDatatypes (scalar_type input) in
  ccl_issue lib (ccl_allgatherv (to_size_t (numel input)) recvCounts dtype).

Definition allgather_ (outputTensors : list (list Tensor)) (inputTensors : list Tensor)
    (pg_ccl : ProcessGroupCCL) : M AsyncWorkCCL :=
  let rank := getRank pg_ccl in
  let! work := collective get_device_list pg_ccl inputTensors outputTensors
                          (allgather_fn rank) in
  execute (set_debugName "xpu::allgather" work).

(** The uniform exchange: one [ccl::alltoall] with
    [(size_t)output.numel() / comm.size()] elements per participant. *)
Definition alltoall_base_uniform_fn (input output : Tensor)
    (comm : communicator) (strm : stream) : M event :=
  CCL_DISPATCH_INTEGRAL_FLOATS_TYPES (scalar_type input) "alltoall_base" (
    let scalar_t := scalar_type input in
    let! send_buf := data_ptr scalar_t input in
    let! recv_buf := data_ptr scalar_t output in
    if bool_decide (to_size_t (comm_size comm) = 0) then undefined
    else
      let count := to_size_t (numel output) / to_size_t (comm_size comm) in
      let! dtype := map_at cclDatatypes (scalar_type output) in
      ccl_issue lib (ccl_alltoall count dtype)).

(** Modelled from the spec: [c10d::checkSplitSizes], a check of the host
    framework that this file calls.  "Mismatched split sizes (sum <> input
    length) fail ... prior to any device call"; there must be one split per
    participant, and an empty list asks for an even split of dimension 0. *)
Definition checkSplitSizes (split_sizes : list Z) (tensor : Tensor) (group_size : Z)
    : M unit :=
  match split_sizes with
  | [] =>
    let! n := size0 tensor in
    if bool_decide (group_size = 0) then undefined
    else TORCH_CHECK (bool_decide (Z.rem n group_size = 0))
           "Tensor's dim 0 does not divide equally across group size"
  | _ =>
    TORCH_CHECK (bool_decide (Z.of_nat (length split_sizes) = to_size_t group_size))
      "Number of tensor splits not equal to group size" >>
    let! n := size0 tensor in
    TORCH_CHECK (bool_decide (sum_integers split_sizes = n))
      "Split sizes doesn't match total dim 0 size"
  end.

(** [if (len) len /= (splitsEqual ? grp_size : t.size(0))]. *)
Definition chunk_len (splitsEqual : bool) (grp_size : Z) (t : Tensor) : M Z :=
  let len := to_size_t (numel t) in
  if bool_decide (len = 0) then ret len
  else
    let! d := (if splitsEqual then ret grp_size else size0 t) in
    if bool_decide (to_size_t d = 0) then undefined
    else ret (len / to_size_t d).

(** The loop filling [sendCounts] and [recvCounts]. *)
Fixpoint split_counts_loop (n : nat) (i : Z) (inputSplitsEqual outputSplitsEqual : bool)
    (inLen outLen : Z) (inputSplitSizes outputSplitSizes : list Z)
    (counts : list Z * list Z) : M (list Z * list Z) :=
  match n with
  | O => ret counts
  | S n' =>
    let! s := (if inputSplitsEqual then ret inLen
               else let! k := vector_at inputSplitSizes i in
                    ret (to_size_t (to_size_t k * inLen))) in
    let! sendCounts := vector_set (fst counts) i s in
    let! r := (if outputSplitsEqual then ret outLen
               else let! k := vector_at outputSplitSizes i in
                    ret (to_size_t (to_size_t k * outLen))) in
    let! recvCounts := vector_set (snd counts) i r in
    split_counts_loop n' (i + 1) inputSplitsEqual outputSplitsEqual inLen outLen
                      inputSplitSizes outputSplitSizes (sendCounts, recvCounts)
  end.

(** The ragged exchange ("Need alltoallv"). *)
Definition alltoall_base_ragged_fn (grp_size : Z)
    (inputSplitSizes outputSplitSizes : list Z) (input output : Tensor)
    (comm : communicator) (strm : stream) : M event :=
  CCL_DISPATCH_INTEGRAL_FLOATS_TYPES (scalar_type input) "alltoall_base" (
    checkSplitSizes inputSplitSizes input grp_size >>
    checkSplitSizes outputSplitSizes output grp_size >>
    let sendCounts := replicate (Z.to_nat grp_size) 0 in
    let recvCounts := replicate (Z.to_nat grp_size) 0 in
    let inputSplitsEqual := bool_decide (length inputSplitSizes = 0%nat) in
    let outputSplitsEqual := bool_decide (length outputSplitSizes = 0%nat) in
    let! inLen := chunk_len inputSplitsEqual grp_size input in
    let! outLen := chunk_len outputSplitsEqual grp_size output in
    let! counts := split_counts_loop (Z.to_nat grp_size) 0
                     inputSplitsEqual outputSplitsEqual inLen outLen
                     inputSplitSizes outputSplitSizes (sendCounts, recvCounts) in
    let scalar_t := scalar_type input in
    let! send_buf := data_ptr scalar_t input in
    let! recv_buf := data_ptr scalar_t output in
    let! dtype := map_at cclDatatypes (scalar_type output) in
    ccl_issue lib (ccl_alltoallv (fst counts) (snd counts) dtype)).

Definition alltoall_base_ (outputTensor inputTensor : Tensor)
    (outputSplitSizes inputSplitSizes : list Z) (pg : ProcessGroupCCL)
    : M AsyncWorkCCL :=
  checkSingleTensorHelper inputTensor >>
  checkSingleTensorHelper outputTensor >>
  let inputs := [inputTensor] in
  let outputs := [outputTensor] in
  let grp_size := getSize pg in
  let! work :=
    (if bool_decide (length outputSplitSizes = 0%nat) &&
        bool_decide (length inputSplitSizes = 0%nat) then
       TORCH_CHECK (bool_decide (numel outputTensor = numel inputTensor) &&
                    bool_decide (scalar_type outputTensor = scalar_type inputTensor))
         "alltoall_base: tensors are not equal in size or data type" >>
       let! n := size0 outputTensor in
       (if bool_decide (grp_size = 0) then undefined
        else TORCH_CHECK (bool_decide (Z.rem n grp_size = 0))
          "alltoall_base: tensor's dim 0 does not divide equally across group size") >>
       collective get_device_list pg inputs outputs alltoall_base_uniform_fn
     else
       (* Need alltoallv *)
       collective get_device_list pg inputs outputs
         (alltoall_base_ragged_fn grp_size inputSplitSizes outputSplitSizes)) in
  execute (set_debugName "xpu::alltoall_base" work).

(** The function [alltoall_] hands to [collective]; [inputTensors] and
    [outputTensors] are the entry point's lists, captured by the closure. *)
Definition alltoall_fn (grp_size : Z) (inputTensors outputTensors : list Tensor)
    (inputs outputs : list Tensor) (comm : communicator) (strm : stream) : M event :=
  let sendCounts := replicate (Z.to_nat grp_size) 0 in
  let recvCounts := replicate (Z.to_nat grp_size) 0 in
  let! '(isInputFlat, sendCounts, flatInput, flatSendCount) :=
    computeLengthsAndCheckAndGetFlat inputTensors sendCounts in
  let! '(isOutputFlat, recvCounts, flatOutput, flatRecvCount) :=
    computeLengthsAndCheckAndGetFlat outputTensors recvCounts in
  flatten_inputs grp_size isInputFlat flatInput sendCounts inputs >>
  let! ret_evt :=
    CCL_DISPATCH_INTEGRAL_FLOATS_TYPES (scalar_type flatInput) "xpu::alltoall" (
      let scalar_t := scalar_type flatInput in
      let! send_buf := data_ptr scalar_t flatInput in
      let! recv_buf := data_ptr scalar_t flatOutput in
      let! dtype := map_at cclDatatypes (scalar_type flatOutput) in
      ccl_alltoallv_on send_buf sendCounts recv_buf recvCounts dtype) in
  unflatten_outputs grp_size isOutputFlat ret_evt flatOutput recvCounts outputs >>
  ret ret_evt.

Definition alltoall_ (outputTensors inputTensors : list Tensor)
    (pg : ProcessGroupCCL) : M AsyncWorkCCL :=
  let grp_size := getSize pg in
  let outputTensors_list := [outputTensors] in
  let inputTensors_list := [inputTensors] in
  let! work := collective get_device_list_nested pg inputTensors_list outputTensors_list
                 (alltoall_fn grp_size inputTensors outputTensors) in
  execute (set_debugName "xpu::alltoall" work).

End Backend.

(** ** Specification-side predicates *)

(** What the tensor-set validator is specified to accept: a non-empty list
    of at most [device_count] dense contiguous buffers that agree on scalar
    type, shape and device type and sit on pairwise distinct devices. *)
Definition valid_tensor_set (device_count : Z) (tensors : list Tensor) : Prop :=
  tensors <> [] /\
  Z.of_nat (length tensors) <= device_count /\
  Forall (fun t => is_sparse t = false) tensors /\
  Forall (fun t => is_contiguous t = true) tensors /\
  (forall t1 t2, t1 ∈ tensors -> t2 ∈ tensors ->
     scalar_type t1 = scalar_type t2 /\ sizes t1 = sizes t2 /\
     dev_type (device t1) = dev_type (device t2)) /\
  NoDup (device <$> tensors).

(** The condition each of the validator's errors names, and that it is
    violated. *)
Inductive names_violation (device_count : Z) (tensors : list Tensor) : exn -> Prop :=
  | violation_empty :
      tensors = [] ->
      names_violation device_count tensors
        (runtime_error "Tensor list must be nonempty")
  | violation_count :
      device_count < Z.of_nat (length tensors) ->
      names_violation device_count tensors
        (runtime_error "Tensor list mustn't be larger than the number of available GPUs")
  | violation_sparse :
      Exists (fun t => is_sparse t = true) tensors ->
      names_violation device_count tensors (runtime_error "Tensors must be dense")
  | violation_type t1 t2 :
      t1 ∈ tensors -> t2 ∈ tensors -> scalar_type t1 <> scalar_type t2 ->
      names_violation device_count tensors
        (runtime_error "Tensors must have identical type")
  | violation_size t1 t2 :
      t1 ∈ tensors -> t2 ∈ tensors -> sizes t1 <> sizes t2 ->
      names_violation device_count tensors
        (runtime_error "Tensors must have identical size")
  | violation_contiguous :
      Exists (fun t => is_contiguous t = false) tensors ->
      names_violation device_count tensors (runtime_error "Tensors must be contiguous")
  | violation_device_type t1 t2 :
      t1 ∈ tensors -> t2 ∈ tensors ->
      dev_type (device t1) <> dev_type (device t2) ->
      names_violation device_count tensors
        (runtime_error "Tensors must be on the same device type")
  | violation_duplicate :
      ~ NoDup (device <$> tensors) ->
      names_violation device_count tensors
        (runtime_error "Tensors must be on distinct devices").

(** What one pass of the validator's loop body accepts. *)
Definition agrees_with_first (first t : Tensor) : Prop :=
  is_sparse t = false /\ scalar_type t = scalar_type first /\
  sizes t = sizes first /\ is_contiguous t = true /\
  dev_type (device first) = dev_type (device t).

(** The world an outcome leaves, when there is one. *)
Definition outcome_world {A} (o : outcome A) : option world :=
  match o with
  | Ret _ w => Some w
  | Exc _ w => Some w
  | Undef => None
  end.

(** A process group's later cache requests, one after the other; a request
    that raises leaves the world as it was when it raised. *)
Fixpoint after_gets (lib : CCL) (pg_ccl : ProcessGroupCCL)
    (reqs : list (string * list Device)) (w : world) : option world :=
  match reqs with
  | [] => Some w
  | (key, devices) :: rest =>
    match outcome_world (get_ccl_comms lib pg_ccl key devices w) with
    | Some w' => after_gets lib pg_ccl rest w'
    | None => None
    end
  end.

(** The one call [get_ccl_comms] makes to build a bundle for device [d]. *)
Definition construction_call (pg_ccl : ProcessGroupCCL) (d : Device) : ccl_call :=
  ccl_create_communicators
    (to_int (to_size_t (to_size_t (getSize pg_ccl) * 1)))
    (to_int (to_size_t (to_size_t (getRank pg_ccl) * 1)))
    (dev_index d).

(** The communicator and the bundle [get_ccl_comms] builds for device [d]. *)
Definition constructed_comm (pg_ccl : ProcessGroupCCL) (d : Device) : communicator :=
  mkCommunicator (to_int (to_size_t (to_size_t (getSize pg_ccl) * 1)))
                 (to_int (to_size_t (to_size_t (getRank pg_ccl) * 1)))
                 (dev_index d).

Definition constructed_bundle (pg_ccl : ProcessGroupCCL) (d : Device) : Comms :=
  mkComms [constructed_comm pg_ccl d] [mkStream (dev_index d)].

(** Every cached address holds a bundle that [get_ccl_comms] built for this
    process group. *)
Definition cache_wf (pg_ccl : ProcessGroupCCL) (w : world) : Prop :=
  forall key p, w_comms w !! key = Some p ->
    exists d, w_bundles w !! p = Some (constructed_bundle pg_ccl d).

(** ** Sample inputs *)

Module Sample.

(** A library that accepts every call, completes it after 5 ms and, as in a
    loop-back exchange, delivers what was sent. *)
Definition lib : CCL :=
  mkCCL (fun _ => None) (fun _ => 5%nat) (fun sent _ _ => sent).

Definition cclDatatypes (ty : ScalarType) : option Z :=
  match ty with
  | Char => Some 0 | Byte => Some 1 | Short => Some 2 | Int => Some 4
  | Long => Some 6 | Half => Some 8 | Float => Some 9 | Double => Some 10
  | BFloat16 => Some 11 | Bool => None
  end.

Definition cclOps (op : ReduceOp) : option Z :=
  match op with
  | SUM => Some 0 | PRODUCT => Some 1 | MIN => Some 2 | MAX => Some 3
  end.

Definition dispatch_all (ty : ScalarType) (name : string) : option exn := None.

Definition helper_accepts (t : Tensor) : option exn := None.

(** A conversion on whole numbers small enough for every type: only [Bool]
    changes them. *)
Definition convert_element (from to : ScalarType) (x : Z) : Z :=
  match to with
  | Bool => if bool_decide (x = 0) then 0 else 1
  | _ => x
  end.

Definition xpu (i : Z) : Device := mkDevice XPU i.

(** A dense contiguous float tensor of shape [shape] on [xpu:0]. *)
Definition tensor (shape : list Z) (st off : nat) : Tensor :=
  mkTensor false Float shape true (xpu 0) st off.

Definition pg : ProcessGroupCCL := mkPG 0 2.

(** Six storages, an empty cache, nothing issued yet and nothing in flight. *)
Definition w0 : world :=
  mkWorld [[1; 2; 3]; [4; 5; 6; 7]; [0; 0; 0]; [0; 0; 0; 0];
           [10; 11; 12; 13; 14; 15]; [0; 0; 0; 0; 0; 0]] ∅ [] 0 [] 0 [].

(** [w0] once the communicator for [xpu:0] has been built and cached. *)
Definition w1 : world :=
  mkWorld (w_heap w0) {["0" := 0%nat]} [constructed_bundle pg (xpu 0)] 1
          [construction_call pg (xpu 0)] 0 [].

End Sample.

(** Element counts are non-negative [int64_t] values. *)
Definition numel_in_range (t : Tensor) : Prop := 0 <= numel t < 2 ^ 63.

(** The world after the calling thread has been blocked for [ms]. *)
Definition blocked_for (ms : nat) (w : world) : world :=
  mkWorld (w_heap w) (w_comms w) (w_bundles w) (w_kvs w) (w_issued w)
          (w_clock w + ms) (w_inflight w).

(** The world after the library has been handed call [c]. *)
Definition issued (c : ccl_call) (w : world) : world :=
  mkWorld (w_heap w) (w_comms w) (w_bundles w) (w_kvs w) (w_issued w ++ [c])
          (w_clock w) (w_inflight w).

(** The world once the device owes write [p]. *)
Definition owing (p : inflight) (w : world) : world :=
  mkWorld (w_heap w) (w_comms w) (w_bundles w) (w_kvs w) (w_issued w)
          (w_clock w) (w_inflight w ++ [p]).

(** The world in which the device owes the writes [l] and no other. *)
Definition still_owing (l : list inflight) (w : world) : world :=
  mkWorld (w_heap w) (w_comms w) (w_bundles w) (w_kvs w) (w_issued w)
          (w_clock w) l.

(** ** Layout predicates *)

(** A dense contiguous tensor whose view lies within its storage. *)
Definition dense_in (h : list (list Z)) (t : Tensor) : Prop :=
  is_sparse t = false /\ is_contiguous t = true /\ numel_in_range t /\
  is_Some (contents h t).

(** Two views that share no element. *)
Definition disjoint_views (t1 t2 : Tensor) : Prop :=
  storage t1 <> storage t2 \/
  (storage_offset t1 + Z.to_nat (numel t1) <= storage_offset t2)%nat \/
  (storage_offset t2 + Z.to_nat (numel t2) <= storage_offset t1)%nat.

(** The part of a flat buffer's elements that belongs to participant [i]:
    [lens !! i] elements after those of the participants before it. *)
Definition segment (lens : list Z) (i : nat) (data : list Z) : list Z :=
  take (Z.to_nat (default 0 (lens !! i)))
       (drop (Z.to_nat (sum_integers (take i lens))) data).

(** A source of a copy into the flat buffer in storage [sF]: a dense
    contiguous tensor outside [sF] whose elements in heap [h] are [c]. *)
Definition source_of (h : list (list Z)) (sF : nat) (t : Tensor) (c : list Z) : Prop :=
  is_sparse t = false /\ is_contiguous t = true /\ 0 <= numel t /\
  storage t <> sF /\
  region h (storage t) (storage_offset t) (Z.to_nat (numel t)) = Some c.

(** A destination of a copy out of the flat buffer in storage [sG]: a dense
    contiguous tensor outside [sG] whose view lies within its storage. *)
Definition destination_of (h : list (list Z)) (sG : nat) (t : Tensor) : Prop :=
  is_sparse t = false /\ is_contiguous t = true /\ 0 <= numel t /\
  storage t <> sG /\
  is_Some (region h (storage t) (storage_offset t) (Z.to_nat (numel t))).

(** The first [n] tensors of a list are pairwise disjoint views. *)
Definition pairwise_disjoint (n : nat) (tensors : list Tensor) : Prop :=
  forall i j ti tj, (i < n)%nat -> (j < n)%nat -> i <> j ->
    tensors !! i = Some ti -> tensors !! j = Some tj -> disjoint_views ti tj.


(** ** Gather-to-root *)

Section BackendGather.

Variable lib : CCL.
Variable cclDatatypes : ScalarType -> option Z.
Variable dispatch_unsupported : ScalarType -> string -> option exn.
(** [checkSingleTensor]: the exception it raises on a tensor list, if any. *)
Variable checkSingleTensor_fails : list Tensor -> option exn.
Variable convert_element : ScalarType -> ScalarType -> Z -> Z.

Definition checkSingleTensor (tensors : list Tensor) : M unit :=
  match checkSingleTensor_fails tensors with
  | Some e => throw e
  | None => ret tt
  end.

(** The function [gather_] hands to [collective].  Every rank sends its
    input to the root through one [ccl::alltoallv]; only the root receives,
    into a flat buffer that is split into the outputs afterwards. *)
Definition gather_fn (grp_size rank : Z) (opts : GatherOptions)
    (input : Tensor) (outputs : list Tensor)
    (comm : communicator) (strm : stream) : M event :=
  let sendCounts := replicate (Z.to_nat grp_size) 0 in
  let recvCounts := replicate (Z.to_nat grp_size) 0 in
  let! sendCounts := vector_set sendCounts (g_rootRank opts) (to_size_t (numel input)) in
  let! '(isOutputFlat, recvCounts, flatOutput) :=
    (if bool_decide (rank = g_rootRank opts) then
       let! '(isOutputFlat, recvCounts, flatOutput, flatRecvCount) :=
         computeLengthsAndCheckAndGetFlat outputs recvCounts in
       let! sent := vector_at sendCounts rank in
       let! received := vector_at recvCounts rank in
       TORCH_CHECK (bool_decide (sent = received))
                   "gather: send and recv count doesn't match" >>
       ret (isOutputFlat, recvCounts, flatOutput)
     else
       (* a workaround for the oneCCL to pass the address checking *)
       let! flatOutput := at_empty 1 input in
       ret (false, recvCounts, flatOutput)) in
  let! ret_evt :=
    CCL_DISPATCH_INTEGRAL_FLOATS_TYPES dispatch_unsupported (scalar_type input) "gather" (
      let scalar_t := scalar_type input in
      let! send_buf := data_ptr scalar_t input in
      let! recv_buf := data_ptr scalar_t flatOutput in
      let! dtype := map_at cclDatatypes (scalar_type flatOutput) in
      ccl_alltoallv_on lib send_buf sendCounts recv_buf recvCounts dtype) in
  (if bool_decide (rank = g_rootRank opts) then
     unflatten_outputs convert_element grp_size isOutputFlat ret_evt flatOutput
                       recvCounts outputs
   else ret tt) >>
  ret ret_evt.

Definition gather_ (outputTensors : list (list Tensor)) (inputTensors : list Tensor)
    (opts : GatherOptions) (pg : ProcessGroupCCL) : M AsyncWorkCCL :=
  checkSingleTensor inputTensors >>
  let grp_size := getSize pg in
  let rank := getRank pg in
  (if negb (bool_decide (rank = g_rootRank opts)) then
     TORCH_CHECK (bool_decide (length outputTensors = 0%nat))
       "gather: number of output tensors should be 0 for non-root"
   else
     TORCH_CHECK (bool_decide (length outputTensors = 1%nat))
       "gather: multi-GPU collective is not supported" >>
     let! outputs0 := vector_at outputTensors 0 in
     TORCH_CHECK (bool_decide (to_size_t grp_size = Z.of_nat (length outputs0)))
       "gather: number of output tensors should equal to the world size") >>
  let! work := collective lib get_device_list pg inputTensors outputTensors
                 (gather_fn grp_size rank opts) in
  execute (set_debugName "xpu::gather" work).

End BackendGather.

(** ** Further specification-side predicates *)

(** Cached addresses are live and no two keys share one. *)
Definition cache_sound (w : world) : Prop :=
  (forall key p, w_comms w !! key = Some p -> (p < length (w_bundles w))%nat) /\
  (forall key1 key2 p,
     w_comms w !! key1 = Some p -> w_comms w !! key2 = Some p -> key1 = key2).


(** The per-participant element counts that a split list describes on tensor
    [t]: a split of [k] stands for [k] slices along dimension 0, an empty
    list for an even share of the elements. *)
Definition split_counts (splits : list Z) (grp_size : Z) (t : Tensor) : list Z :=
  match splits with
  | [] => replicate (Z.to_nat grp_size) (numel t / grp_size)
  | _ => (fun k => k * foldr Z.mul 1 (tail (sizes t))) <$> splits
  end.
(** * Proofs *)

(** ** The monad *)

Lemma bind_Ret {A B} (c : M A) (k : A -> M B) w a w' :
  c w = Ret a w' -> bind c k w = k a w'.
Proof. unfold bind. by intros ->. Qed.

Lemma bind_Exc {A B} (c : M A) (k : A -> M B) w e w' :
  c w = Exc e w' -> bind c k w = Exc e w'.
Proof. unfold bind. by intros ->. Qed.

Lemma vector_at_lookup {A} (v : list A) (i : nat) a w :
  v !! i = Some a -> vector_at v (Z.of_nat i) w = Ret a w.
Proof.
  intros H. unfold vector_at. destruct (decide _) as [_|]; [|lia].
  by rewrite Nat2Z.id, H.
Qed.

(** ** TensorSetValidator *)

(** A typed pointer to a tensor of that type is the tensor. *)
Lemma data_ptr_typed scalar_t t w :
  scalar_type t = scalar_t -> data_ptr scalar_t t w = Ret t w.
Proof. intros H. unfold data_ptr. by rewrite (bool_decide_eq_true_2 _ H). Qed.

Lemma data_ptr_same t w : data_ptr (scalar_type t) t w = Ret t w.
Proof. by apply data_ptr_typed. Qed.

(** A typed pointer to a tensor of another type is an error. *)
Lemma data_ptr_mistyped scalar_t t w :
  scalar_type t <> scalar_t ->
  data_ptr scalar_t t w
  = Exc (c10_Error ("expected scalar type " +:+ toString scalar_t +:+
                    " but found " +:+ toString (scalar_type t))) w.
Proof. intros H. unfold data_ptr. by rewrite (bool_decide_eq_false_2 _ H). Qed.

Section Validator.

Variable first : Tensor.

(** The loop either accepts every remaining tensor or stops at the first
    failing test with that test's error. *)
Lemma check_tensors_loop_spec (rest : list Tensor) (used : gset Z) (w : world) :
  (check_tensors_loop first (dev_type (device first)) used rest w = Ret tt w /\
   Forall (agrees_with_first first) rest /\ NoDup (get_device <$> rest) /\
   (forall t, t ∈ rest -> get_device t ∉ used))
  \/
  (exists e, check_tensors_loop first (dev_type (device first)) used rest w = Exc e w /\
     ((e = runtime_error "Tensors must be dense" /\
       Exists (fun t => is_sparse t = true) rest) \/
      (e = runtime_error "Tensors must have identical type" /\
       exists t, t ∈ rest /\ scalar_type t <> scalar_type first) \/
      (e = runtime_error "Tensors must have identical size" /\
       exists t, t ∈ rest /\ sizes t <> sizes first) \/
      (e = runtime_error "Tensors must be contiguous" /\
       Exists (fun t => is_contiguous t = false) rest) \/
      (e = runtime_error "Tensors must be on the same device type" /\
       exists t, t ∈ rest /\ dev_type (device first) <> dev_type (device t)) \/
      (e = runtime_error "Tensors must be on distinct devices" /\
       exists pre t post, rest = pre ++ t :: post /\
         Forall (agrees_with_first first) pre /\ agrees_with_first first t /\
         (get_device t ∈ used \/
          exists t', t' ∈ pre /\ get_device t' = get_device t)))).
Proof.
  revert used. induction rest as [|t rest IH]; intros used; simpl.
  { left. repeat split; [constructor | constructor | intros t Ht; inversion Ht]. }
  destruct (is_sparse t) eqn:Hsp.
  { right. eexists. split; [reflexivity|]. left. split; [done|]. by left. }
  case_bool_decide as Hty; simpl.
  2:{ right. eexists. split; [reflexivity|]. right; left. split; [done|].
      exists t. split; [left | done]. }
  case_bool_decide as Hsz; simpl.
  2:{ right. eexists. split; [reflexivity|]. do 2 right; left. split; [done|].
      exists t. split; [left | done]. }
  destruct (is_contiguous t) eqn:Hct; simpl.
  2:{ right. eexists. split; [reflexivity|]. do 3 right; left. split; [done|].
      by left. }
  case_bool_decide as Hdt; simpl.
  2:{ right. eexists. split; [reflexivity|]. do 4 right; left. split; [done|].
      exists t. split; [left | done]. }
  assert (Hagree : agrees_with_first first t) by done.
  case_bool_decide as Hin; simpl.
  { right. eexists. split; [reflexivity|]. do 5 right. split; [done|].
    exists [], t, rest. split; [done|]. split; [constructor|]. split; [done|].
    by left. }
  destruct (IH ({[get_device t]} ∪ used)) as [(Hr & Hall & Hnd & Hfresh)|(e & He & Hv)].
  - left. split; [done|]. split; [|split].
    + by constructor.
    + constructor; [|done]. intros Hmem.
      apply list_elem_of_fmap in Hmem as (t' & Heq & Ht').
      apply (Hfresh t' Ht'). rewrite <- Heq. set_solver.
    + intros t' Ht'. apply elem_of_cons in Ht' as [->|Ht']; [done|].
      specialize (Hfresh t' Ht'). set_solver.
  - right. exists e. split; [done|].
    destruct Hv as [[-> H]|[[-> H]|[[-> H]|[[-> H]|[[-> H]|[-> H]]]]]].
    + left. split; [done|]. by right.
    + right; left. split; [done|]. destruct H as (t' & ? & ?).
      exists t'. split; [by right | done].
    + do 2 right; left. split; [done|]. destruct H as (t' & ? & ?).
      exists t'. split; [by right | done].
    + do 3 right; left. split; [done|]. by right.
    + do 4 right; left. split; [done|]. destruct H as (t' & ? & ?).
      exists t'. split; [by right | done].
    + do 5 right. split; [done|].
      destruct H as (pre & t1 & post & -> & Hpre & Ht1 & Hdup).
      exists (t :: pre), t1, post. split; [done|]. split; [by constructor|].
      split; [done|].
      destruct Hdup as [Hu|(t' & Ht' & Heq)].
      * apply elem_of_union in Hu as [Hu|Hu]; [|by left].
        right. exists t. split; [left|]. apply elem_of_singleton in Hu. done.
      * right. exists t'. split; [by right | done].
Qed.

(** Tensors that passed the loop's tests and share a device index sit on the
    same device. *)
Lemma agreeing_same_index_same_device (t1 t2 : Tensor) :
  agrees_with_first first t1 -> agrees_with_first first t2 ->
  get_device t1 = get_device t2 -> device t1 = device t2.
Proof.
  intros (_ & _ & _ & _ & H1) (_ & _ & _ & _ & H2). unfold get_device.
  destruct (device t1), (device t2). simpl in *. congruence.
Qed.

End Validator.

Lemma duplicate_index_duplicate_device (first : Tensor) (tensors : list Tensor) :
  (exists pre t post, tensors = pre ++ t :: post /\
     Forall (agrees_with_first first) pre /\ agrees_with_first first t /\
     (get_device t ∈ (∅ : gset Z) \/
      exists t', t' ∈ pre /\ get_device t' = get_device t)) ->
  ~ NoDup (device <$> tensors).
Proof.
  intros (pre & t & post & -> & Hpre & Ht & [Hin|(t' & Ht' & Heq)]) Hnd;
    [set_solver|].
  rewrite fmap_app in Hnd. apply NoDup_app in Hnd as (_ & Hdisj & _).
  apply (Hdisj (device t')).
  - apply list_elem_of_fmap. by exists t'.
  - rewrite Forall_forall in Hpre.
    rewrite (agreeing_same_index_same_device first t' t) by (done || by apply Hpre).
    simpl. left.
Qed.

Lemma to_size_t_id (x : Z) : 0 <= x < 2 ^ 64 -> to_size_t x = x.
Proof. intros H. unfold to_size_t. by apply Z.mod_small. Qed.

(** C6: the tensor-set validator accepts exactly the non-empty lists of at
    most [device_count] dense, contiguous buffers that share scalar type,
    shape and device type and occupy pairwise distinct devices; every other
    list is rejected, the world untouched, with an error whose message names
    a condition that the list does violate. *)
Theorem check_tensors_properties_accepts_exactly
    (device_count : Z) (tensors : list Tensor) (w : world) :
  0 <= device_count < 2 ^ 64 ->
  (valid_tensor_set device_count tensors /\
   exists first rest, tensors = first :: rest /\
     check_tensors_properties device_count tensors w
       = Ret (dev_type (device first)) w)
  \/
  (~ valid_tensor_set device_count tensors /\
   exists e, check_tensors_properties device_count tensors w = Exc e w /\
     names_violation device_count tensors e).
Proof.
  intros Hdc. unfold check_tensors_properties.
  rewrite (to_size_t_id _ Hdc).
  case_bool_decide as Hlen.
  { right. destruct tensors; [|done]. split.
    - by intros [? _].
    - eexists. split; [reflexivity|]. by constructor. }
  case_bool_decide as Hcnt.
  { right. split.
    - intros (_ & ? & _). lia.
    - eexists. split; [reflexivity|]. constructor. lia. }
  destruct tensors as [|first rest]; [done|].
  destruct (check_tensors_loop_spec first (first :: rest) ∅ w)
    as [(Hr & Hall & Hnd & _)|(e & He & Hv)].
  - left. split.
    + split; [done|]. split; [lia|].
      split; [|split; [|split]]; [| | |].
      * eapply Forall_impl; [exact Hall|]. by intros t (? & _).
      * eapply Forall_impl; [exact Hall|]. by intros t (_ & _ & _ & ? & _).
      * intros t1 t2 H1 H2. rewrite Forall_forall in Hall.
        destruct (Hall t1 H1) as (_ & Ht1 & Hs1 & _ & Hd1).
        destruct (Hall t2 H2) as (_ & Ht2 & Hs2 & _ & Hd2).
        repeat split; congruence.
      * apply (NoDup_fmap_1 dev_index). by rewrite <- list_fmap_compose.
    + exists first, rest. split; [done|]. by rewrite (bind_Ret _ _ _ _ _ Hr).
  - right. assert (Hfirst : first ∈ first :: rest) by left.
    split.
    + intros (_ & _ & Hsp & Hct & Hpair & Hnd).
      destruct Hv as [[_ H]|[[_ H]|[[_ H]|[[_ H]|[[_ H]|[_ H]]]]]].
      * apply Exists_exists in H as (t & Ht & Hs).
        rewrite Forall_forall in Hsp. specialize (Hsp t Ht). congruence.
      * destruct H as (t & Ht & Hne). by destruct (Hpair t first Ht Hfirst) as (? & _).
      * destruct H as (t & Ht & Hne). by destruct (Hpair t first Ht Hfirst) as (_ & ? & _).
      * apply Exists_exists in H as (t & Ht & Hs).
        rewrite Forall_forall in Hct. specialize (Hct t Ht). congruence.
      * destruct H as (t & Ht & Hne). by destruct (Hpair first t Hfirst Ht) as (_ & _ & ?).
      * by apply (duplicate_index_duplicate_device first (first :: rest)).
    + exists e. split; [by rewrite (bind_Exc _ _ _ _ _ He)|].
      destruct Hv as [[-> H]|[[-> H]|[[-> H]|[[-> H]|[[-> H]|[-> H]]]]]].
      * by apply violation_sparse.
      * destruct H as (t & Ht & Hne). by apply (violation_type _ _ t first).
      * destruct H as (t & Ht & Hne). by apply (violation_size _ _ t first).
      * by apply violation_contiguous.
      * destruct H as (t & Ht & Hne). by apply (violation_device_type _ _ first t).
      * apply violation_duplicate.
        by apply (duplicate_index_duplicate_device first (first :: rest)).
Qed.

Lemma check_tensors_properties_accepts_exactly_witness :
  0 <= 2 < 2 ^ 64 /\
  (let tensors := [Sample.tensor [3] 0 0;
                   mkTensor false Float [3] true (Sample.xpu 1) 2 0] in
   (valid_tensor_set 2 tensors /\
    exists first rest, tensors = first :: rest /\
      check_tensors_properties 2 tensors Sample.w0
        = Ret (dev_type (device first)) Sample.w0)
   \/
   (~ valid_tensor_set 2 tensors /\
    exists e, check_tensors_properties 2 tensors Sample.w0 = Exc e Sample.w0 /\
      names_violation 2 tensors e)).
Proof.
  split; [lia|].
  apply (check_tensors_properties_accepts_exactly 2 _ Sample.w0). lia.
Defined.

(** ** CommunicatorCache *)

Section Cache.

Variable lib : CCL.
Variable pg_ccl : ProcessGroupCCL.

Lemma get_ccl_comms_key_empty devices w :
  get_ccl_comms lib pg_ccl "" devices w
  = Exc (runtime_error
      "Not able to create/get the CCL Communicator since the devices are empty ") w.
Proof. reflexivity. Qed.

Lemma get_ccl_comms_not_one key devices w :
  key <> "" -> length devices <> 1%nat ->
  get_ccl_comms lib pg_ccl key devices w
  = Exc (runtime_error "Torch CCL only support one device per process now") w.
Proof.
  intros Hk Hd. unfold get_ccl_comms.
  rewrite bool_decide_eq_false_2 by done.
  by rewrite (bool_decide_eq_false_2 _ Hd).
Qed.

Lemma get_ccl_comms_hit key devices w b :
  key <> "" -> length devices = 1%nat -> w_comms w !! key = Some b ->
  get_ccl_comms lib pg_ccl key devices w = Ret b w.
Proof.
  intros Hk Hd Hb. unfold get_ccl_comms.
  rewrite bool_decide_eq_false_2 by done.
  rewrite (bool_decide_eq_true_2 _ Hd). simpl.
  unfold bind, get_comms. by rewrite Hb.
Qed.

(** On a miss with one device the bundle is built: one rendezvous request,
    one construction call and, unless the library rejects it, one new cached
    object. *)
Lemma get_ccl_comms_miss key d w :
  key <> "" -> w_comms w !! key = None ->
  get_ccl_comms lib pg_ccl key [d] w =
  let w1 := mkWorld (w_heap w) (w_comms w) (w_bundles w) (S (w_kvs w))
                    (w_issued w ++ [construction_call pg_ccl d]) (w_clock w)
                    (w_inflight w) in
  match ccl_status lib (construction_call pg_ccl d) with
  | Some e => Exc e w1
  | None =>
    Ret (length (w_bundles w))
        (mkWorld (w_heap w) (<[key := length (w_bundles w)]> (w_comms w))
                 (w_bundles w ++ [constructed_bundle pg_ccl d]) (S (w_kvs w))
                 (w_issued w ++ [construction_call pg_ccl d]) (w_clock w)
                 (w_inflight w))
  end.
Proof.
  intros Hk Hb. unfold get_ccl_comms.
  rewrite bool_decide_eq_false_2 by done. simpl.
  unfold bind, get_comms. rewrite Hb. simpl.
  unfold get_kvs, ccl_issue, construction_call. simpl.
  destruct (ccl_status lib _); reflexivity.
Qed.

(** A request never runs into undefined behaviour, and leaves every cached
    entry in place. *)
Lemma get_ccl_comms_preserves key devices w key0 b :
  w_comms w !! key0 = Some b ->
  exists w', outcome_world (get_ccl_comms lib pg_ccl key devices w) = Some w' /\
             w_comms w' !! key0 = Some b.
Proof.
  intros Hb.
  destruct (decide (key = "")) as [->|Hk].
  { rewrite get_ccl_comms_key_empty. by exists w. }
  destruct (decide (length devices = 1%nat)) as [Hd|Hd].
  2:{ rewrite get_ccl_comms_not_one by done. by exists w. }
  destruct (w_comms w !! key) as [b'|] eqn:Hlook.
  { rewrite (get_ccl_comms_hit _ _ _ b') by done. by exists w. }
  destruct devices as [|d [|? ?]]; try done.
  rewrite get_ccl_comms_miss by done. simpl.
  destruct (ccl_status lib _); simpl; eexists; (split; [reflexivity|]); simpl.
  - done.
  - rewrite lookup_insert_ne; [done|]. intros ->. congruence.
Qed.

Lemma after_gets_preserves reqs w key0 b :
  w_comms w !! key0 = Some b ->
  exists w', after_gets lib pg_ccl reqs w = Some w' /\ w_comms w' !! key0 = Some b.
Proof.
  revert w. induction reqs as [|[key devices] reqs IH]; intros w Hb; simpl.
  { by exists w. }
  destruct (get_ccl_comms_preserves key devices w key0 b Hb) as (w' & -> & Hb').
  by apply IH.
Qed.

Lemma get_ccl_comms_stores key devices w b w1 :
  get_ccl_comms lib pg_ccl key devices w = Ret b w1 -> w_comms w1 !! key = Some b.
Proof.
  intros Hget.
  destruct (decide (key = "")) as [->|Hk].
  { by rewrite get_ccl_comms_key_empty in Hget. }
  destruct (decide (length devices = 1%nat)) as [Hd|Hd].
  2:{ by rewrite get_ccl_comms_not_one in Hget. }
  destruct (w_comms w !! key) as [b'|] eqn:Hlook.
  { rewrite (get_ccl_comms_hit _ _ _ b') in Hget by done. congruence. }
  destruct devices as [|d [|? ?]]; try done.
  rewrite get_ccl_comms_miss in Hget by done. simpl in Hget.
  destruct (ccl_status lib _); [done|].
  inversion Hget; subst; simpl. apply lookup_insert_eq.
Qed.

End Cache.

(** C5: the cache holds one bundle per key.  A request that finds an entry
    returns it and leaves the world as it was: no construction call, no
    rendezvous.  The bundle a successful request returns is the one stored
    under the key, and after any further requests on the process group a
    request with that key returns that same object. *)
Theorem get_ccl_comms_one_bundle_per_key (lib : CCL) (pg_ccl : ProcessGroupCCL)
    (key : string) (devices : list Device) (w : world) (b : nat) :
  key <> "" -> length devices = 1%nat ->
  (w_comms w !! key = Some b -> get_ccl_comms lib pg_ccl key devices w = Ret b w) /\
  (forall w1, get_ccl_comms lib pg_ccl key devices w = Ret b w1 ->
     w_comms w1 !! key = Some b /\
     forall reqs, exists w2,
       after_gets lib pg_ccl reqs w1 = Some w2 /\
       forall devices', length devices' = 1%nat ->
         get_ccl_comms lib pg_ccl key devices' w2 = Ret b w2).
Proof.
  intros Hk Hd. split.
  { by apply get_ccl_comms_hit. }
  intros w1 Hget.
  pose proof (get_ccl_comms_stores _ _ _ _ _ _ _ Hget) as Hb.
  split; [done|]. intros reqs.
  destruct (after_gets_preserves lib pg_ccl reqs w1 key b Hb) as (w2 & Hw2 & Hb2).
  exists w2. split; [done|]. intros devices' Hd'.
  by apply get_ccl_comms_hit.
Qed.

Lemma get_ccl_comms_one_bundle_per_key_witness :
  exists w1,
    get_ccl_comms Sample.lib Sample.pg "0" [Sample.xpu 0] Sample.w0 = Ret 0%nat w1 /\
    w_comms w1 !! "0" = Some 0%nat /\
    forall reqs, exists w2,
      after_gets Sample.lib Sample.pg reqs w1 = Some w2 /\
      forall devices', length devices' = 1%nat ->
        get_ccl_comms Sample.lib Sample.pg "0" devices' w2 = Ret 0%nat w2.
Proof.
  exists (mkWorld (w_heap Sample.w0) {["0" := 0%nat]}
                  [constructed_bundle Sample.pg (Sample.xpu 0)] 1
                  [construction_call Sample.pg (Sample.xpu 0)] 0 []).
  split; [vm_compute; reflexivity|].
  refine (proj2 (get_ccl_comms_one_bundle_per_key Sample.lib Sample.pg "0"
                   [Sample.xpu 0] Sample.w0 0%nat _ _) _ _);
    [discriminate | reflexivity | vm_compute; reflexivity].
Defined.

(** C8: on a miss, a request with no device or with more than one device
    fails with the communicator-creation error and the world untouched;
    only a request with exactly one device and a non-empty key reaches
    construction, and such a request does reach it (one rendezvous request,
    one construction call). *)
Theorem get_ccl_comms_miss_requires_one_device (lib : CCL)
    (pg_ccl : ProcessGroupCCL) (key : string) (devices : list Device) (w : world) :
  w_comms w !! key = None ->
  let creation_error e :=
    e = runtime_error
          "Not able to create/get the CCL Communicator since the devices are empty "
    \/ e = runtime_error "Torch CCL only support one device per process now" in
  (devices = [] ->
     exists e, get_ccl_comms lib pg_ccl key devices w = Exc e w /\ creation_error e) /\
  ((1 < length devices)%nat ->
     exists e, get_ccl_comms lib pg_ccl key devices w = Exc e w /\ creation_error e) /\
  (forall w', outcome_world (get_ccl_comms lib pg_ccl key devices w) = Some w' ->
     w' <> w -> length devices = 1%nat /\ key <> "") /\
  (length devices = 1%nat -> key <> "" ->
     exists d w', devices = [d] /\
       outcome_world (get_ccl_comms lib pg_ccl key devices w) = Some w' /\
       w_issued w' = w_issued w ++ [construction_call pg_ccl d] /\
       w_kvs w' = S (w_kvs w)).
Proof.
  intros Hmiss creation_error.
  assert (Hbad : length devices <> 1%nat ->
    exists e, get_ccl_comms lib pg_ccl key devices w = Exc e w /\ creation_error e).
  { intros Hd. destruct (decide (key = "")) as [->|Hk].
    - eexists. split; [apply get_ccl_comms_key_empty | by left].
    - eexists. split; [by apply get_ccl_comms_not_one | by right]. }
  split; [|split; [|split]].
  - intros ->. by apply Hbad.
  - intros Hd. apply Hbad. lia.
  - intros w' Hw' Hne.
    destruct (decide (length devices = 1%nat)) as [Hd|Hd].
    + split; [done|]. intros ->.
      rewrite get_ccl_comms_key_empty in Hw'. simpl in Hw'. congruence.
    + destruct (Hbad Hd) as (e & He & _). rewrite He in Hw'. simpl in Hw'. congruence.
  - intros Hd Hk. destruct devices as [|d [|? ?]]; try done.
    exists d. rewrite get_ccl_comms_miss by done. simpl.
    destruct (ccl_status lib _); simpl; eexists; done.
Qed.

Lemma get_ccl_comms_miss_requires_one_device_witness :
  w_comms Sample.w0 !! "0" = None /\
  exists d w', [Sample.xpu 0] = [d] /\
    outcome_world (get_ccl_comms Sample.lib Sample.pg "0" [Sample.xpu 0] Sample.w0)
      = Some w' /\
    w_issued w' = w_issued Sample.w0 ++ [construction_call Sample.pg d] /\
    w_kvs w' = S (w_kvs Sample.w0).
Proof.
  split; [reflexivity|].
  refine (proj2 (proj2 (proj2
    (get_ccl_comms_miss_requires_one_device Sample.lib Sample.pg "0"
       [Sample.xpu 0] Sample.w0 _))) _ _);
    [reflexivity | reflexivity | discriminate].
Defined.

(** ** AsyncWork *)








(** ** Dispatch through [collective] and [execute] *)

Section Dispatch.

Variable lib : CCL.
Variable pg_ccl : ProcessGroupCCL.

(** A successful request keeps the cache well formed and returns the address
    of a bundle built for this process group; tensor storages are untouched. *)
Lemma get_ccl_comms_wf key devices w p w1 :
  cache_wf pg_ccl w ->
  get_ccl_comms lib pg_ccl key devices w = Ret p w1 ->
  cache_wf pg_ccl w1 /\ w_heap w1 = w_heap w /\
  exists d, w_bundles w1 !! p = Some (constructed_bundle pg_ccl d).
Proof.
  intros Hwf Hget.
  destruct (decide (key = "")) as [->|Hk].
  { by rewrite get_ccl_comms_key_empty in Hget. }
  destruct (decide (length devices = 1%nat)) as [Hd|Hd].
  2:{ by rewrite get_ccl_comms_not_one in Hget. }
  destruct (w_comms w !! key) as [b'|] eqn:Hlook.
  { rewrite (get_ccl_comms_hit _ _ _ _ _ b') in Hget by done.
    inversion Hget; subst. split; [done|]. split; [done|]. by apply (Hwf key). }
  destruct devices as [|d [|? ?]]; try done.
  rewrite get_ccl_comms_miss in Hget by done. simpl in Hget.
  destruct (ccl_status lib _); [done|].
  inversion Hget; subst; clear Hget. split; [|split; [done|]].
  - intros key' p'. simpl. rewrite lookup_insert.
    case_decide as Heq.
    + intros [= <-]. exists d. by rewrite lookup_app_r, Nat.sub_diag.
    + intros Hp'. destruct (Hwf key' p' Hp') as (d' & Hd').
      exists d'. by rewrite lookup_app_l by (by eapply lookup_lt_Some).
  - exists d. simpl. by rewrite lookup_app_r, Nat.sub_diag.
Qed.

Lemma run_from_single {I O : Type}
    (fun_ : I -> O -> communicator -> stream -> M event)
    (input : I) (output : O) (d : Device) (w : world) :
  run_from fun_ [input] [output] (constructed_bundle pg_ccl d) 0 w =
  match fun_ input output (constructed_comm pg_ccl d) (mkStream (dev_index d)) w with
  | Ret evt w' => Ret [evt] w'
  | Exc e w' => Exc e w'
  | Undef => Undef
  end.
Proof.
  simpl.
  rewrite (bind_Ret _ _ _ _ _ (vector_at_lookup [output] 0 _ w eq_refl)).
  rewrite (bind_Ret _ _ _ _ _
             (vector_at_lookup [constructed_comm pg_ccl d] 0 _ w eq_refl)).
  rewrite (bind_Ret _ _ _ _ _
             (vector_at_lookup [mkStream (dev_index d)] 0 _ w eq_refl)).
  unfold bind, ret. by destruct (fun_ _ _ _ _ w).
Qed.

Lemma collective_resolved {I O : Type} (devices_of : list I -> M (list Device))
    (fun_ : I -> O -> communicator -> stream -> M event)
    (inputs : list I) (outputs : list O) (w : world) devices p w1 :
  devices_of inputs w = Ret devices w ->
  get_ccl_comms lib pg_ccl (get_key_from_devs devices) devices w = Ret p w1 ->
  collective lib devices_of pg_ccl inputs outputs fun_ w
  = Ret (mkWork (let! c := deref_Comms p in run_from fun_ inputs outputs c 0)
                [] Running "") w1.
Proof.
  intros Hdev Hget. unfold collective.
  rewrite (bind_Ret _ _ _ _ _ Hdev). by rewrite (bind_Ret _ _ _ _ _ Hget).
Qed.

Lemma collective_unresolved {I O : Type} (devices_of : list I -> M (list Device))
    (fun_ : I -> O -> communicator -> stream -> M event)
    (inputs : list I) (outputs : list O) (w : world) devices e w1 :
  devices_of inputs w = Ret devices w ->
  get_ccl_comms lib pg_ccl (get_key_from_devs devices) devices w = Exc e w1 ->
  collective lib devices_of pg_ccl inputs outputs fun_ w = Exc e w1.
Proof.
  intros Hdev Hget. unfold collective.
  rewrite (bind_Ret _ _ _ _ _ Hdev). by rewrite (bind_Exc _ _ _ _ _ Hget).
Qed.

(** An entry point with one input and one output: once the communicator is
    resolved, [execute] runs the collective's function once; what the
    function raises ends up in the work, not with the caller. *)
Lemma dispatch_single {I O : Type} (devices_of : list I -> M (list Device))
    (fun_ : I -> O -> communicator -> stream -> M event)
    (input : I) (output : O) (name : string) (w : world) devices p w1 :
  cache_wf pg_ccl w ->
  devices_of [input] w = Ret devices w ->
  get_ccl_comms lib pg_ccl (get_key_from_devs devices) devices w = Ret p w1 ->
  exists d run,
    (let! work := collective lib devices_of pg_ccl [input] [output] fun_ in
     execute (set_debugName name work)) w =
    match fun_ input output (constructed_comm pg_ccl d) (mkStream (dev_index d)) w1 with
    | Ret evt w2 => Ret (mkWork run [evt] Completed name) w2
    | Exc e w2 => Ret (mkWork run [] (Failed e) name) w2
    | Undef => Undef
    end.
Proof.
  intros Hwf Hdev Hget.
  destruct (get_ccl_comms_wf _ _ _ _ _ Hwf Hget) as (_ & _ & d & Hd).
  exists d, (let! c := deref_Comms p in run_from fun_ [input] [output] c 0).
  rewrite (bind_Ret _ _ _ _ _ (collective_resolved _ fun_ _ [output] _ _ _ _ Hdev Hget)).
  unfold execute, XPUWorkCCL_run, set_debugName.
  cbn [work_run rets work_state debugName].
  unfold bind at 1. unfold bind at 1. unfold deref_Comms at 1. rewrite Hd.
  rewrite run_from_single.
  destruct (fun_ input output _ _ w1); reflexivity.
Qed.

(** When the communicator cannot be resolved the entry point raises what
    [get_ccl_comms] raised: no work is created. *)
Lemma dispatch_unresolved {I O : Type} (devices_of : list I -> M (list Device))
    (fun_ : I -> O -> communicator -> stream -> M event)
    (inputs : list I) (outputs : list O) (name : string) (w : world) devices e w1 :
  devices_of inputs w = Ret devices w ->
  get_ccl_comms lib pg_ccl (get_key_from_devs devices) devices w = Exc e w1 ->
  (let! work := collective lib devices_of pg_ccl inputs outputs fun_ in
   execute (set_debugName name work)) w = Exc e w1.
Proof.
  intros Hdev Hget.
  by rewrite (bind_Exc _ _ _ _ _ (collective_unresolved _ fun_ _ outputs _ _ _ _ Hdev Hget)).
Qed.

End Dispatch.

(** ** Machine arithmetic *)

Lemma to_size_t_mod32 (x : Z) : to_size_t x mod 2 ^ 32 = x mod 2 ^ 32.
Proof. unfold to_size_t. apply Z.mod_mod_divide. by exists (2 ^ 32). Qed.

Lemma to_int_congr (x y : Z) : x mod 2 ^ 32 = y mod 2 ^ 32 -> to_int x = to_int y.
Proof.
  intros H. unfold to_int. f_equal.
  by rewrite (Zplus_mod x), (Zplus_mod y), H.
Qed.

Lemma to_int_to_size_t (x : Z) : to_int (to_size_t x) = to_int x.
Proof. apply to_int_congr, to_size_t_mod32. Qed.

Lemma to_int_id (x : Z) : - 2 ^ 31 <= x < 2 ^ 31 -> to_int x = x.
Proof.
  intros H. unfold to_int.
  rewrite Z.mod_small; lia.
Qed.

Lemma to_int_size_t_sum (a b c : Z) :
  to_int (to_size_t (to_size_t (to_size_t a * b) + to_size_t c)) = to_int (a * b + c).
Proof.
  apply to_int_congr. rewrite to_size_t_mod32.
  rewrite (Zplus_mod (to_size_t _)), !to_size_t_mod32.
  rewrite (Zmult_mod (to_size_t a)), to_size_t_mod32.
  by rewrite <- Zmult_mod, <- Zplus_mod.
Qed.

Lemma flat_root_in_range (rootRank_ rootTensor_ : Z) (tensors : list Tensor) :
  - 2 ^ 31 <= rootRank_ * Z.of_nat (length tensors) + rootTensor_ < 2 ^ 31 ->
  flat_root rootRank_ rootTensor_ tensors
  = rootRank_ * Z.of_nat (length tensors) + rootTensor_.
Proof.
  intros H. unfold flat_root. rewrite to_int_size_t_sum. by apply to_int_id.
Qed.

(** ** Root-rank collectives *)

Section RootCollectives.

Variable lib : CCL.
Variable cclDatatypes : ScalarType -> option Z.
Variable cclOps : ReduceOp -> option Z.
Variable pg_ccl : ProcessGroupCCL.

Lemma reduce_fn_issues opts root input output comm strm d o w :
  cclDatatypes (scalar_type input) = Some d -> cclOps (reduceOp opts) = Some o ->
  reduce_fn lib cclDatatypes cclOps opts root input output comm strm w
  = ccl_issue lib (ccl_reduce (to_size_t (numel input)) d o root) w.
Proof. intros Hd Ho. unfold reduce_fn, map_at, bind. by rewrite Hd, Ho. Qed.

Lemma broadcast_fn_issues root input output comm strm d w :
  cclDatatypes (scalar_type input) = Some d ->
  broadcast_fn lib cclDatatypes root input output comm strm w
  = ccl_issue lib (ccl_broadcast (to_size_t (numel input)) d root) w.
Proof. intros Hd. unfold broadcast_fn, map_at, bind. by rewrite Hd. Qed.

(** Whatever the library answers, the call has been handed to it. *)
Lemma dispatched_call_issued c name run w1 :
  exists work,
    match ccl_issue lib c w1 with
    | Ret evt w2 => Ret (mkWork run [evt] Completed name) w2
    | Exc e w2 => Ret (mkWork run [] (Failed e) name) w2
    | Undef => Undef
    end = Ret work (issued c w1) /\
    (forall evt, evt ∈ rets work -> ev_call evt = c).
Proof.
  unfold ccl_issue, issued. destruct (ccl_status lib c).
  - eexists. split; [reflexivity|]. simpl. intros evt H. inversion H.
  - eexists. split; [reflexivity|]. simpl. intros evt H.
    apply list_elem_of_singleton in H. by subst.
Qed.

Lemma reduce_single t opts w p w1 d o :
  cache_wf pg_ccl w ->
  get_ccl_comms lib pg_ccl (get_key_from_devs [device t]) [device t] w = Ret p w1 ->
  cclDatatypes (scalar_type t) = Some d -> cclOps (reduceOp opts) = Some o ->
  exists work,
    reduce_ lib cclDatatypes cclOps [t] opts pg_ccl w
    = Ret work (issued (ccl_reduce (to_size_t (numel t)) d o
                          (flat_root (rootRank opts) (rootTensor opts) [t])) w1) /\
    (forall evt, evt ∈ rets work ->
       ev_call evt = ccl_reduce (to_size_t (numel t)) d o
                       (flat_root (rootRank opts) (rootTensor opts) [t])).
Proof.
  intros Hwf Hget Hd Ho. unfold reduce_.
  assert (Hchk : checkGPUTensor [t] w = Ret tt w) by reflexivity.
  rewrite (bind_Ret _ _ _ _ _ Hchk).
  destruct (dispatch_single lib pg_ccl get_device_list
              (reduce_fn lib cclDatatypes cclOps opts
                 (flat_root (rootRank opts) (rootTensor opts) [t]))
              t t "xpu::reduce" w [device t] p w1 Hwf eq_refl Hget)
    as (dv & run & ->).
  rewrite (reduce_fn_issues _ _ _ _ _ _ d o) by done.
  apply dispatched_call_issued.
Qed.

Lemma broadcast_single t opts w p w1 d :
  cache_wf pg_ccl w ->
  get_ccl_comms lib pg_ccl (get_key_from_devs [device t]) [device t] w = Ret p w1 ->
  cclDatatypes (scalar_type t) = Some d ->
  exists work,
    broadcast_ lib cclDatatypes [t] opts pg_ccl w
    = Ret work (issued (ccl_broadcast (to_size_t (numel t)) d
                          (flat_root (bc_rootRank opts) (bc_rootTensor opts) [t])) w1) /\
    (forall evt, evt ∈ rets work ->
       ev_call evt = ccl_broadcast (to_size_t (numel t)) d
                       (flat_root (bc_rootRank opts) (bc_rootTensor opts) [t])).
Proof.
  intros Hwf Hget Hd. unfold broadcast_.
  assert (Hchk : checkGPUTensor [t] w = Ret tt w) by reflexivity.
  rewrite (bind_Ret _ _ _ _ _ Hchk).
  destruct (dispatch_single lib pg_ccl get_device_list
              (broadcast_fn lib cclDatatypes
                 (flat_root (bc_rootRank opts) (bc_rootTensor opts) [t]))
              t t "xpu::broadcast" w [device t] p w1 Hwf eq_refl Hget)
    as (dv & run & ->).
  rewrite (broadcast_fn_issues _ _ _ _ _ d) by done.
  apply dispatched_call_issued.
Qed.

End RootCollectives.

(** C7: in reduce-to-root and broadcast the root handed to the library is
    [rootRank * localDeviceCount + rootTensor], [localDeviceCount] being the
    size of the call's tensor list, as long as that value fits the [int] it
    is stored in.  The entry points compute it so for every list, and on a
    call that reaches the library (one tensor, communicator resolved, scalar
    type and operator known to the tables) it is the root of the one call
    issued and of every event returned. *)
Theorem root_identifier_is_flat (lib : CCL)
    (cclDatatypes : ScalarType -> option Z) (cclOps : ReduceOp -> option Z)
    (pg_ccl : ProcessGroupCCL) (tensors : list Tensor) (op : ReduceOp)
    (rootRank_ rootTensor_ : Z) (w : world) :
  - 2 ^ 31 <= rootRank_ * Z.of_nat (length tensors) + rootTensor_ < 2 ^ 31 ->
  let root := rootRank_ * Z.of_nat (length tensors) + rootTensor_ in
  flat_root rootRank_ rootTensor_ tensors = root /\
  (forall t p w1 d o,
     tensors = [t] -> cache_wf pg_ccl w ->
     get_ccl_comms lib pg_ccl (get_key_from_devs [device t]) [device t] w = Ret p w1 ->
     cclDatatypes (scalar_type t) = Some d -> cclOps op = Some o ->
     (exists work,
        reduce_ lib cclDatatypes cclOps tensors
                (mkReduceOptions op rootRank_ rootTensor_) pg_ccl w
        = Ret work (issued (ccl_reduce (to_size_t (numel t)) d o root) w1) /\
        forall evt, evt ∈ rets work ->
          ev_call evt = ccl_reduce (to_size_t (numel t)) d o root) /\
     (exists work,
        broadcast_ lib cclDatatypes tensors
                   (mkBroadcastOptions rootRank_ rootTensor_) pg_ccl w
        = Ret work (issued (ccl_broadcast (to_size_t (numel t)) d root) w1) /\
        forall evt, evt ∈ rets work ->
          ev_call evt = ccl_broadcast (to_size_t (numel t)) d root)).
Proof.
  intros Hrange root.
  pose proof (flat_root_in_range rootRank_ rootTensor_ tensors Hrange) as Hroot.
  split; [done|].
  intros t p w1 d o -> Hwf Hget Hd Ho. fold root in Hroot. split.
  - destruct (reduce_single lib cclDatatypes cclOps pg_ccl t
                (mkReduceOptions op rootRank_ rootTensor_) w p w1 d o
                Hwf Hget Hd Ho) as (work & Hw & Hev).
    simpl in Hw, Hev. rewrite Hroot in Hw, Hev. by exists work.
  - destruct (broadcast_single lib cclDatatypes pg_ccl t
                (mkBroadcastOptions rootRank_ rootTensor_) w p w1 d
                Hwf Hget Hd) as (work & Hw & Hev).
    simpl in Hw, Hev. rewrite Hroot in Hw, Hev. by exists work.
Qed.

Lemma cache_wf_empty (pg_ccl : ProcessGroupCCL) (w : world) :
  w_comms w = ∅ -> cache_wf pg_ccl w.
Proof. intros H key p. rewrite H, lookup_empty. discriminate. Qed.

Lemma sample_resolved :
  get_ccl_comms Sample.lib Sample.pg (get_key_from_devs [Sample.xpu 0])
                [Sample.xpu 0] Sample.w0 = Ret 0%nat Sample.w1.
Proof. vm_compute. reflexivity. Qed.

Lemma root_identifier_is_flat_witness :
  let t := Sample.tensor [3] 0 0 in
  - 2 ^ 31 <= 1 * Z.of_nat (length [t]) + 0 < 2 ^ 31 /\
  flat_root 1 0 [t] = 1 /\
  (exists work,
     reduce_ Sample.lib Sample.cclDatatypes Sample.cclOps [t]
             (mkReduceOptions SUM 1 0) Sample.pg Sample.w0
     = Ret work (issued (ccl_reduce (to_size_t (numel t)) 9 0 1) Sample.w1) /\
     forall evt, evt ∈ rets work ->
       ev_call evt = ccl_reduce (to_size_t (numel t)) 9 0 1).
Proof.
  intros t.
  assert (Hrange : - 2 ^ 31 <= 1 * Z.of_nat (length [t]) + 0 < 2 ^ 31)
    by (simpl; lia).
  split; [exact Hrange|].
  pose proof (root_identifier_is_flat Sample.lib Sample.cclDatatypes Sample.cclOps
                Sample.pg [t] SUM 1 0 Sample.w0 Hrange) as [Hroot Hcalls].
  split; [exact Hroot|].
  exact (proj1 (Hcalls t 0%nat Sample.w1 9 0 eq_refl
                  (cache_wf_empty Sample.pg Sample.w0 eq_refl)
                  sample_resolved eq_refl eq_refl)).
Defined.

(** C10: all-reduce, reduce-to-root and broadcast read [tensors[0]] before
    anything has checked that the list is non-empty: on the empty list each
    of them is undefined, where the tensor-set validator, had it been
    called, would have raised its non-empty error; on a non-empty list the
    access is defined. *)
Theorem first_tensor_read_before_any_check (lib : CCL)
    (cclDatatypes : ScalarType -> option Z) (cclOps : ReduceOp -> option Z)
    (pg_ccl : ProcessGroupCCL) (w : world) :
  (forall opts, allreduce_ lib cclDatatypes cclOps [] opts pg_ccl w = Undef) /\
  (forall opts, reduce_ lib cclDatatypes cclOps [] opts pg_ccl w = Undef) /\
  (forall opts, broadcast_ lib cclDatatypes [] opts pg_ccl w = Undef) /\
  (forall device_count,
     check_tensors_properties device_count [] w
     = Exc (runtime_error "Tensor list must be nonempty") w) /\
  (forall t tensors, checkGPUTensor (t :: tensors) w = Ret tt w).
Proof. repeat split. Qed.

(** ** All-gather *)

Lemma to_size_t_inj_in_range (x y : Z) :
  0 <= x < 2 ^ 63 -> 0 <= y < 2 ^ 63 -> to_size_t x = to_size_t y -> x = y.
Proof. intros Hx Hy. rewrite !to_size_t_id by lia. done. Qed.

Section AllGather.

Variable lib : CCL.
Variable cclDatatypes : ScalarType -> option Z.
Variable pg_ccl : ProcessGroupCCL.

Lemma allgather_fn_mismatch rank input outputs own comm strm w :
  0 <= rank -> outputs !! Z.to_nat rank = Some own ->
  numel_in_range input -> numel_in_range own ->
  numel input <> numel own ->
  allgather_fn lib cclDatatypes rank input outputs comm strm w
  = Exc (c10_Error "allgather: send and recv count doesn't match") w.
Proof.
  intros Hr Hown Hi Ho Hne. unfold allgather_fn.
  assert (Hat : vector_at ((fun t => to_size_t (numel t)) <$> outputs) rank w
                = Ret (to_size_t (numel own)) w).
  { rewrite <- (Z2Nat.id rank) by done. apply vector_at_lookup.
    by rewrite list_lookup_fmap, Hown. }
  rewrite (bind_Ret _ _ _ _ _ Hat).
  rewrite bool_decide_eq_false_2; [done|].
  intros Heq. by apply Hne, to_size_t_inj_in_range.
Qed.

Lemma allgather_fn_match rank input outputs own comm strm d w :
  0 <= rank -> outputs !! Z.to_nat rank = Some own ->
  numel input = numel own -> cclDatatypes (scalar_type input) = Some d ->
  allgather_fn lib cclDatatypes rank input outputs comm strm w
  = ccl_issue lib (ccl_allgatherv (to_size_t (numel input))
                     ((fun t => to_size_t (numel t)) <$> outputs) d) w.
Proof.
  intros Hr Hown Heq Hd. unfold allgather_fn.
  assert (Hat : vector_at ((fun t => to_size_t (numel t)) <$> outputs) rank w
                = Ret (to_size_t (numel own)) w).
  { rewrite <- (Z2Nat.id rank) by done. apply vector_at_lookup.
    by rewrite list_lookup_fmap, Hown. }
  rewrite (bind_Ret _ _ _ _ _ Hat).
  rewrite bool_decide_eq_true_2 by (by rewrite Heq).
  unfold TORCH_CHECK, map_at, bind, ret. by rewrite Hd.
Qed.

Lemma size_t_counts_id (outputs : list Tensor) :
  Forall numel_in_range outputs ->
  (fun t => to_size_t (numel t)) <$> outputs = numel <$> outputs.
Proof.
  intros H. apply list_fmap_ext. intros i t Ht.
  rewrite Forall_forall in H. apply to_size_t_id.
  specialize (H t (list_elem_of_lookup_2 _ _ _ Ht)). unfold numel_in_range in H. lia.
Qed.

End AllGather.

(** C9: in all-gather, when the input's element count differs from that of
    the output at the caller's own rank position the function raises the
    send/receive count mismatch before any library call, so the work fails
    with nothing issued; otherwise the receive-count table handed to
    [allgatherv] is, entry by entry, the element counts of the outputs in
    list order. *)
Theorem allgather_counts (lib : CCL) (cclDatatypes : ScalarType -> option Z)
    (pg_ccl : ProcessGroupCCL) (input : Tensor) (outputs : list Tensor)
    (own : Tensor) (w : world) :
  0 <= getRank pg_ccl -> outputs !! Z.to_nat (getRank pg_ccl) = Some own ->
  numel_in_range input -> Forall numel_in_range outputs ->
  (numel input <> numel own ->
     (forall comm strm w',
        allgather_fn lib cclDatatypes (getRank pg_ccl) input outputs comm strm w'
        = Exc (c10_Error "allgather: send and recv count doesn't match") w') /\
     (forall p w1,
        cache_wf pg_ccl w ->
        get_ccl_comms lib pg_ccl (get_key_from_devs [device input]) [device input] w
          = Ret p w1 ->
        exists work,
          allgather_ lib cclDatatypes [outputs] [input] pg_ccl w = Ret work w1 /\
          work_state work
            = Failed (c10_Error "allgather: send and recv count doesn't match") /\
          rets work = [])) /\
  (numel input = numel own ->
   forall d, cclDatatypes (scalar_type input) = Some d ->
     let call := ccl_allgatherv (numel input) (numel <$> outputs) d in
     (forall comm strm w',
        allgather_fn lib cclDatatypes (getRank pg_ccl) input outputs comm strm w'
        = ccl_issue lib call w') /\
     (forall p w1,
        cache_wf pg_ccl w ->
        get_ccl_comms lib pg_ccl (get_key_from_devs [device input]) [device input] w
          = Ret p w1 ->
        exists work,
          allgather_ lib cclDatatypes [outputs] [input] pg_ccl w
            = Ret work (issued call w1) /\
          forall evt, evt ∈ rets work -> ev_call evt = call)).
Proof.
  intros Hr Hown Hi Ho.
  assert (Hown_range : numel_in_range own).
  { rewrite Forall_forall in Ho. apply Ho. by eapply list_elem_of_lookup_2. }
  split.
  - intros Hne. split.
    + intros comm strm w'. by eapply allgather_fn_mismatch.
    + intros p w1 Hwf Hget. unfold allgather_.
      destruct (dispatch_single lib pg_ccl get_device_list
                  (allgather_fn lib cclDatatypes (getRank pg_ccl))
                  input outputs "xpu::allgather" w [device input] p w1
                  Hwf eq_refl Hget) as (dv & run & ->).
      rewrite (allgather_fn_mismatch _ _ _ _ _ own) by done.
      eexists. split; [reflexivity|]. done.
  - intros Heq d Hd call.
    assert (Hfn : forall comm strm w',
      allgather_fn lib cclDatatypes (getRank pg_ccl) input outputs comm strm w'
      = ccl_issue lib call w').
    { intros comm strm w'.
      rewrite (allgather_fn_match _ _ _ _ _ own _ _ d) by done.
      unfold call. rewrite size_t_counts_id by done.
      rewrite to_size_t_id; [done|]. unfold numel_in_range in Hi. lia. }
    split; [done|].
    intros p w1 Hwf Hget. unfold allgather_.
    destruct (dispatch_single lib pg_ccl get_device_list
                (allgather_fn lib cclDatatypes (getRank pg_ccl))
                input outputs "xpu::allgather" w [device input] p w1
                Hwf eq_refl Hget) as (dv & run & ->).
    rewrite Hfn. apply dispatched_call_issued.
Qed.

Lemma allgather_counts_witness :
  let input := Sample.tensor [3] 0 0 in
  let outputs := [Sample.tensor [3] 2 0; Sample.tensor [3] 5 0] in
  exists work,
    allgather_ Sample.lib Sample.cclDatatypes [outputs] [input] Sample.pg Sample.w0
      = Ret work (issued (ccl_allgatherv 3 [3; 3] 9) Sample.w1) /\
    forall evt, evt ∈ rets work -> ev_call evt = ccl_allgatherv 3 [3; 3] 9.
Proof.
  intros input outputs.
  assert (Hin : forall shape st off,
            shape = [3] -> numel_in_range (Sample.tensor shape st off)).
  { intros shape st off ->. split; by vm_compute. }
  exact (proj2 (proj2 (allgather_counts Sample.lib Sample.cclDatatypes Sample.pg
                         input outputs (Sample.tensor [3] 2 0) Sample.w0
                         ltac:(simpl; lia) eq_refl (Hin _ _ _ eq_refl)
                         ltac:(repeat constructor; by apply Hin))
                  eq_refl 9 eq_refl)
           0%nat Sample.w1 (cache_wf_empty Sample.pg Sample.w0 eq_refl)
           sample_resolved).
Defined.

(** ** All-to-all on base buffers *)

Lemma numel_cons (t : Tensor) n rest :
  sizes t = n :: rest -> numel t = n * foldr Z.mul 1 rest.
Proof. unfold numel. by intros ->. Qed.

Section AllToAllBase.

Variable lib : CCL.
Variable cclDatatypes : ScalarType -> option Z.
Variable dispatch_unsupported : ScalarType -> string -> option exn.
Variable helper_fails : Tensor -> option exn.
Variable pg : ProcessGroupCCL.

Hypothesis group_size_int : 0 < getSize pg < 2 ^ 31.

Lemma constructed_comm_size d : to_size_t (comm_size (constructed_comm pg d)) = getSize pg.
Proof.
  simpl. rewrite to_int_to_size_t, Z.mul_1_r, to_int_to_size_t.
  rewrite to_int_id by lia. apply to_size_t_id. lia.
Qed.

Lemma alltoall_base_uniform_fn_issues input output d dv strm w :
  numel_in_range output ->
  scalar_type output = scalar_type input ->
  dispatch_unsupported (scalar_type input) "alltoall_base" = None ->
  cclDatatypes (scalar_type output) = Some d ->
  alltoall_base_uniform_fn lib cclDatatypes dispatch_unsupported input output
    (constructed_comm pg dv) strm w
  = ccl_issue lib (ccl_alltoall (numel output / getSize pg) d) w.
Proof.
  intros Hn Hty Hdisp Hd.
  unfold alltoall_base_uniform_fn, CCL_DISPATCH_INTEGRAL_FLOATS_TYPES.
  rewrite Hdisp. cbv zeta.
  rewrite (bind_Ret _ _ _ _ _ (data_ptr_same input w)).
  rewrite (bind_Ret _ _ _ _ _ (data_ptr_typed _ output w Hty)).
  rewrite constructed_comm_size.
  rewrite bool_decide_eq_false_2 by lia.
  unfold map_at, bind. rewrite Hd.
  rewrite to_size_t_id; [done|]. unfold numel_in_range in Hn. lia.
Qed.

(** A dimension 0 that the group size divides makes the element count
    divisible as well. *)
Lemma dim0_divides_numel (t : Tensor) n rest :
  sizes t = n :: rest -> Z.rem n (getSize pg) = 0 -> (getSize pg | numel t).
Proof.
  intros Hs Hrem. rewrite (numel_cons _ _ _ Hs).
  apply Z.divide_mul_l, Z.rem_divide; [lia | done].
Qed.

(** The checks of the uniform path that come before the work is created. *)
Lemma alltoall_base_uniform_checked outputTensor inputTensor n rest w :
  helper_fails inputTensor = None -> helper_fails outputTensor = None ->
  numel outputTensor = numel inputTensor ->
  scalar_type outputTensor = scalar_type inputTensor ->
  sizes outputTensor = n :: rest -> Z.rem n (getSize pg) = 0 ->
  alltoall_base_ lib cclDatatypes dispatch_unsupported helper_fails
    outputTensor inputTensor [] [] pg w
  = (let! work := collective lib get_device_list pg [inputTensor] [outputTensor]
                    (alltoall_base_uniform_fn lib cclDatatypes dispatch_unsupported) in
     execute (set_debugName "xpu::alltoall_base" work)) w.
Proof.
  intros Hi Ho Hn Ht Hs Hrem.
  unfold alltoall_base_, checkSingleTensorHelper. rewrite Hi, Ho. simpl.
  rewrite !bool_decide_eq_true_2 by done. simpl.
  unfold size0. rewrite Hs.
  rewrite (bool_decide_eq_false_2 (getSize pg = 0)) by lia.
  unfold bind at 1 2 3 4 5. unfold ret at 1 2 3 4.
  rewrite (bool_decide_eq_true_2 _ Hrem). reflexivity.
Qed.

(** An element count the group size does not divide never gets past the
    synchronous checks. *)
Lemma alltoall_base_uniform_indivisible outputTensor inputTensor w :
  numel outputTensor mod getSize pg <> 0 ->
  exists e,
    alltoall_base_ lib cclDatatypes dispatch_unsupported helper_fails
      outputTensor inputTensor [] [] pg w = Exc e w.
Proof.
  intros Hmod.
  unfold alltoall_base_, checkSingleTensorHelper, TORCH_CHECK, size0, bind, ret, throw.
  destruct (helper_fails inputTensor); [eexists; reflexivity|].
  destruct (helper_fails outputTensor); [eexists; reflexivity|].
  cbn [length bool_decide andb].
  rewrite !(bool_decide_eq_true_2 (0%nat = 0%nat)) by done. cbn [andb].
  destruct (bool_decide (numel outputTensor = numel inputTensor) &&
            bool_decide (scalar_type outputTensor = scalar_type inputTensor));
    [|eexists; reflexivity].
  destruct (sizes outputTensor) as [|n rest] eqn:Hs; [eexists; reflexivity|].
  rewrite (bool_decide_eq_false_2 (getSize pg = 0)) by lia.
  case_bool_decide as Hrem; [|eexists; reflexivity].
  exfalso. apply Hmod. apply Z.mod_divide; [lia|]. by eapply dim0_divides_numel.
Qed.

End AllToAllBase.

(** C2 (as the code has it): on the uniform all-to-all path (both split
    lists empty, [P] participants, [N] elements), when dimension 0 of the
    output is divisible by [P] -- which makes [N] divisible by [P] -- the
    count handed to [ccl::alltoall] is [N / P]; when [N] is not divisible by
    [P] the call raises before any work is created, the world untouched. *)
Theorem alltoall_base_uniform_count (lib : CCL)
    (cclDatatypes : ScalarType -> option Z)
    (dispatch_unsupported : ScalarType -> string -> option exn)
    (helper_fails : Tensor -> option exn) (pg : ProcessGroupCCL)
    (outputTensor inputTensor : Tensor) (w : world) :
  0 < getSize pg < 2 ^ 31 -> numel_in_range outputTensor ->
  (forall n rest d p w1,
     helper_fails inputTensor = None -> helper_fails outputTensor = None ->
     numel outputTensor = numel inputTensor ->
     scalar_type outputTensor = scalar_type inputTensor ->
     sizes outputTensor = n :: rest -> Z.rem n (getSize pg) = 0 ->
     dispatch_unsupported (scalar_type inputTensor) "alltoall_base" = None ->
     cclDatatypes (scalar_type outputTensor) = Some d ->
     cache_wf pg w ->
     get_ccl_comms lib pg (get_key_from_devs [device inputTensor])
                   [device inputTensor] w = Ret p w1 ->
     let call := ccl_alltoall (numel outputTensor / getSize pg) d in
     (getSize pg | numel outputTensor) /\
     exists work,
       alltoall_base_ lib cclDatatypes dispatch_unsupported helper_fails
         outputTensor inputTensor [] [] pg w = Ret work (issued call w1) /\
       forall evt, evt ∈ rets work -> ev_call evt = call) /\
  (numel outputTensor mod getSize pg <> 0 ->
   exists e,
     alltoall_base_ lib cclDatatypes dispatch_unsupported helper_fails
       outputTensor inputTensor [] [] pg w = Exc e w).
Proof.
  intros HP HN. split.
  - intros n rest d p w1 Hi Ho Hn Ht Hs Hrem Hdisp Hd Hwf Hget call.
    split; [by eapply dim0_divides_numel|].
    rewrite (alltoall_base_uniform_checked _ _ _ _ _ HP _ _ n rest) by done.
    destruct (dispatch_single lib pg get_device_list
                (alltoall_base_uniform_fn lib cclDatatypes dispatch_unsupported)
                inputTensor outputTensor "xpu::alltoall_base" w
                [device inputTensor] p w1 Hwf eq_refl Hget) as (dv & run & ->).
    rewrite (alltoall_base_uniform_fn_issues _ _ _ _ HP _ _ d) by done.
    apply dispatched_call_issued.
  - intros Hmod. by apply alltoall_base_uniform_indivisible.
Qed.

Lemma alltoall_base_uniform_count_witness :
  let outputTensor := Sample.tensor [6] 5 0 in
  let inputTensor := Sample.tensor [6] 4 0 in
  exists work,
    alltoall_base_ Sample.lib Sample.cclDatatypes Sample.dispatch_all
      Sample.helper_accepts outputTensor inputTensor [] [] Sample.pg Sample.w0
    = Ret work (issued (ccl_alltoall (numel outputTensor / getSize Sample.pg) 9)
                       Sample.w1) /\
    forall evt, evt ∈ rets work ->
      ev_call evt = ccl_alltoall (numel outputTensor / getSize Sample.pg) 9.
Proof.
  intros outputTensor inputTensor.
  exact (proj2 (proj1 (alltoall_base_uniform_count Sample.lib Sample.cclDatatypes
                         Sample.dispatch_all Sample.helper_accepts Sample.pg
                         outputTensor inputTensor Sample.w0
                         ltac:(simpl; lia) ltac:(split; by vm_compute))
                  6 [] 9 0%nat Sample.w1 eq_refl eq_refl eq_refl eq_refl eq_refl
                  eq_refl eq_refl eq_refl
                  (cache_wf_empty Sample.pg Sample.w0 eq_refl) sample_resolved)).
Defined.

(** C2 as stated fails: six elements in shape [3; 2] are divisible among
    two participants, yet nothing is handed to the exchange primitive: the
    call is rejected because dimension 0 is not divisible. *)
Lemma alltoall_base_uniform_checks_dim0_not_numel :
  let outputTensor := Sample.tensor [3; 2] 5 0 in
  let inputTensor := Sample.tensor [3; 2] 4 0 in
  numel outputTensor = 6 /\ numel inputTensor = 6 /\
  6 mod getSize Sample.pg = 0 /\
  alltoall_base_ Sample.lib Sample.cclDatatypes Sample.dispatch_all
    Sample.helper_accepts outputTensor inputTensor [] [] Sample.pg Sample.w0
  = Exc (c10_Error
      "alltoall_base: tensor's dim 0 does not divide equally across group size")
      Sample.w0.
Proof. repeat split. Qed.

Section AllToAllRagged.

Variable lib : CCL.
Variable cclDatatypes : ScalarType -> option Z.
Variable dispatch_unsupported : ScalarType -> string -> option exn.
Variable helper_fails : Tensor -> option exn.
Variable pg : ProcessGroupCCL.

Hypothesis group_size_int : 0 < getSize pg < 2 ^ 31.





End AllToAllRagged.




(** ** Tensor storage *)

Lemma length_splice st off data :
  (off + length data <= length st)%nat -> length (splice st off data) = length st.
Proof.
  intros H. unfold splice.
  rewrite !length_app, length_take, length_drop. lia.
Qed.

Lemma lookup_splice st off data i :
  (off + length data <= length st)%nat ->
  splice st off data !! i =
  if decide (i < off)%nat then st !! i
  else if decide (i < off + length data)%nat then data !! (i - off)%nat
  else st !! i.
Proof.
  intros H. unfold splice.
  assert (Hlt : length (take off st) = off) by (rewrite length_take; lia).
  destruct (decide (i < off)%nat) as [Hi|Hi].
  { rewrite lookup_app_l by lia. by apply lookup_take_lt. }
  rewrite lookup_app_r by lia. rewrite Hlt.
  destruct (decide (i < off + length data)%nat) as [Hj|Hj].
  { by rewrite lookup_app_l by lia. }
  rewrite lookup_app_r by lia. rewrite lookup_drop. f_equal. lia.
Qed.

Lemma lookup_take_drop (st : list Z) off len i :
  take len (drop off st) !! i
  = if decide (i < len)%nat then st !! (off + i)%nat else None.
Proof.
  destruct (decide (i < len)%nat).
  - rewrite lookup_take_lt by done. apply lookup_drop.
  - apply lookup_take_ge. lia.
Qed.

Lemma region_Some h s off len c :
  region h s off len = Some c ->
  exists st, h !! s = Some st /\ (off + len <= length st)%nat /\
             c = take len (drop off st) /\ length c = len.
Proof.
  unfold region. destruct (h !! s) as [st|]; [|done].
  case_bool_decide; [|done]. intros [= <-]. exists st.
  repeat split; [done|]. rewrite length_take, length_drop. lia.
Qed.

Lemma region_in_bounds h s off len st :
  h !! s = Some st -> (off + len <= length st)%nat ->
  region h s off len = Some (take len (drop off st)).
Proof. intros Hs Hb. unfold region. rewrite Hs. by rewrite bool_decide_eq_true_2. Qed.

(** A write is read back from where it was written. *)
Lemma region_splice_same h s st off data :
  h !! s = Some st -> (off + length data <= length st)%nat ->
  region (<[s := splice st off data]> h) s off (length data) = Some data.
Proof.
  intros Hs Hb. unfold region.
  rewrite list_lookup_insert_eq by (by eapply lookup_lt_Some).
  rewrite length_splice by done. rewrite bool_decide_eq_true_2 by done.
  f_equal. apply list_eq. intros i.
  rewrite lookup_take_drop, lookup_splice by done.
  destruct (decide (i < length data)%nat).
  - rewrite decide_False by lia. rewrite decide_True by lia. f_equal. lia.
  - symmetry. apply lookup_ge_None_2. lia.
Qed.

(** A write leaves every view it does not overlap as it was. *)
Lemma region_splice_frame h s st off data s' off' len' :
  h !! s = Some st -> (off + length data <= length st)%nat ->
  s' <> s \/ (off' + len' <= off)%nat \/ (off + length data <= off')%nat ->
  region (<[s := splice st off data]> h) s' off' len' = region h s' off' len'.
Proof.
  intros Hs Hb Hdisj. unfold region.
  destruct (decide (s' = s)) as [->|Hne].
  2:{ by rewrite list_lookup_insert_ne. }
  destruct Hdisj as [?|Hdisj]; [done|].
  rewrite list_lookup_insert_eq by (by eapply lookup_lt_Some).
  rewrite Hs, length_splice by done.
  case_bool_decide; [|done]. f_equal. apply list_eq. intros i.
  rewrite !lookup_take_drop, lookup_splice by done.
  destruct (decide (i < len')%nat); [|done].
  destruct Hdisj.
  - by rewrite decide_True by lia.
  - rewrite decide_False by lia. by rewrite decide_False by lia.
Qed.

Lemma read_from_region t k w c :
  region (w_heap w) (storage t) (storage_offset t) k = Some c ->
  read_from t k w = Ret c w.
Proof.
  unfold region, read_from. destruct (w_heap w !! storage t); [|done].
  case_bool_decide; [|done]. by intros [= <-].
Qed.

Lemma write_at_in_bounds t data w st :
  w_heap w !! storage t = Some st ->
  (storage_offset t + length data <= length st)%nat ->
  write_at t data w
  = Ret tt (set_heap (<[storage t := splice st (storage_offset t) data]> (w_heap w)) w).
Proof.
  intros Hs Hb. unfold write_at. rewrite Hs. by rewrite bool_decide_eq_true_2.
Qed.

Lemma set_heap_set_heap h h' w : set_heap h' (set_heap h w) = set_heap h' w.
Proof. reflexivity. Qed.

Lemma splice_splice st off x y :
  (off + length x + length y <= length st)%nat ->
  splice (splice st off x) (off + length x) y = splice st off (x ++ y).
Proof.
  intros H. apply list_eq. intros i.
  rewrite !lookup_splice; rewrite ?length_splice, ?length_app; try lia.
  repeat case_decide; try lia; try done.
  - by rewrite lookup_app_l by lia.
  - rewrite lookup_app_r by lia. f_equal. lia.
Qed.

Lemma splice_nil st off : (off <= length st)%nat -> splice st off [] = st.
Proof.
  intros H. unfold splice. simpl. rewrite Nat.add_0_r. apply take_drop.
Qed.

(** [copy_] between views of equal size and scalar type writes the source's
    elements over the destination. *)
Lemma copy_equal_sizes convert_element dst src w c st :
  scalar_type src = scalar_type dst ->
  numel src = numel dst ->
  region (w_heap w) (storage src) (storage_offset src) (Z.to_nat (numel src)) = Some c ->
  w_heap w !! storage dst = Some st ->
  (storage_offset dst + Z.to_nat (numel dst) <= length st)%nat ->
  copy_ convert_element dst src w
  = Ret tt (set_heap (<[storage dst := splice st (storage_offset dst) c]> (w_heap w)) w).
Proof.
  intros Hty Hn Hc Hs Hb. unfold copy_.
  rewrite (bind_Ret _ _ _ _ _ (read_from_region _ _ _ _ Hc)).
  rewrite (bool_decide_eq_true_2 _ Hty). cbv zeta.
  rewrite bool_decide_eq_true_2 by done.
  apply write_at_in_bounds; [done|].
  apply region_Some in Hc as (_ & _ & _ & _ & Hlen).
  rewrite Hlen, Hn. done.
Qed.

(** ** LayoutFlattener: lengths and the flat buffer *)

Lemma vector_set_in_range {A} (v : list A) (i : nat) (x : A) w :
  (i < length v)%nat -> vector_set v (Z.of_nat i) x w = Ret (<[i := x]> v) w.
Proof.
  intros H. unfold vector_set. destruct (decide _) as [_|]; [|lia].
  rewrite Nat2Z.id. by destruct (decide _).
Qed.

Lemma scan_lengths_loop_spec tensors m : forall k s w,
  (k + m <= length tensors)%nat -> (k + m <= length (scan_lengths s))%nat ->
  exists s',
    scan_lengths_loop tensors m (Z.of_nat k) s w = Ret s' w /\
    scan_offset s' = scan_offset s + sum_integers (numel <$> take m (drop k tensors)) /\
    length (scan_lengths s') = length (scan_lengths s) /\
    (forall i, scan_lengths s' !! i =
       if decide (k <= i < k + m)%nat
       then (fun t => to_size_t (numel t)) <$> tensors !! i
       else scan_lengths s !! i) /\
    (firstTensor s' = firstTensor s \/ firstTensor s' ∈ tensors).
Proof.
  induction m as [|m IH]; intros k s w Hk Hl.
  { exists s. simpl. split; [done|]. split; [lia|]. split; [done|].
    split; [|by left]. intros i. by rewrite decide_False by lia. }
  destruct (lookup_lt_is_Some_2 tensors k) as [t Ht]; [lia|].
  simpl scan_lengths_loop.
  rewrite (bind_Ret _ _ _ _ _ (vector_at_lookup tensors k t w Ht)).
  rewrite (bind_Ret _ _ _ _ _
             (vector_set_in_range (scan_lengths s) k (to_size_t (numel t)) w
                ltac:(lia))).
  replace (Z.of_nat k + 1) with (Z.of_nat (S k)) by lia.
  match goal with |- context [scan_lengths_loop _ _ _ ?s1 _] =>
    destruct (IH (S k) s1 w) as (s' & Hrun & Hoff & Hlen & Hlook & Hfirst)
  end; [lia | simpl; rewrite length_insert; lia |].
  exists s'. split; [done|].
  cbn [scan_offset scan_lengths firstTensor] in Hoff, Hlen, Hlook, Hfirst.
  split; [|split; [|split]].
  - rewrite Hoff, (drop_S _ _ _ Ht).
    change (sum_integers (numel <$> take (S m) (t :: drop (S k) tensors)))
      with (numel t + sum_integers (numel <$> take m (drop (S k) tensors))).
    lia.
  - by rewrite Hlen, length_insert.
  - intros i. rewrite Hlook.
    destruct (decide (S k <= i < S k + m)%nat).
    + by rewrite decide_True by lia.
    + destruct (decide (i = k)) as [->|].
      * rewrite decide_True by lia. rewrite list_lookup_insert_eq by lia.
        by rewrite Ht.
      * rewrite decide_False by lia. by rewrite list_lookup_insert_ne.
  - destruct Hfirst as [->|?]; [|by right].
    destruct (_ && _); [right; by eapply list_elem_of_lookup_2 | by left].
Qed.

(** The scan fills the lengths table with the element counts in rank order
    and sums them; a flat list is handed back as it is, with nothing
    allocated; otherwise the buffer is a fresh storage of that many
    elements. *)
Lemma computeLengthsAndCheckAndGetFlat_spec tensors n w :
  tensors <> [] -> (n <= length tensors)%nat ->
  let lens := (fun t => to_size_t (numel t)) <$> take n tensors in
  let total := sum_integers (numel <$> take n tensors) in
  exists b flat w',
    computeLengthsAndCheckAndGetFlat tensors (replicate n 0) w
      = Ret (b, lens, flat, total) w' /\
    (b = true -> w' = w /\ flat ∈ tensors) /\
    (b = false ->
       exists first, first ∈ tensors /\
         flat = mkTensor false (scalar_type first) [total] true (device first)
                         (length (w_heap w)) 0 /\
         w' = set_heap (w_heap w ++ [replicate (Z.to_nat total) 0]) w).
Proof.
  intros Hne Hn lens total. unfold computeLengthsAndCheckAndGetFlat.
  assert (exists t0, tensors !! 0%nat = Some t0) as [t0 H0]
    by (destruct tensors; [done | by eexists]).
  rewrite (bind_Ret _ _ _ _ _ (vector_at_lookup tensors 0 t0 w H0)).
  rewrite length_replicate.
  destruct (scan_lengths_loop_spec tensors n 0 (mkScan t0 0 true (replicate n 0)) w)
    as (s' & Hrun & Hoff & Hlen & Hlook & Hfirst);
    [lia | simpl; rewrite length_replicate; lia |].
  change (Z.of_nat 0) with 0 in Hrun.
  rewrite (bind_Ret _ _ _ _ _ Hrun).
  cbn [scan_offset scan_lengths firstTensor] in Hoff, Hlen, Hlook, Hfirst.
  rewrite drop_0 in Hoff.
  rewrite length_replicate in Hlen.
  assert (Hlens : scan_lengths s' = lens).
  { apply list_eq. intros i. rewrite Hlook. unfold lens.
    rewrite list_lookup_fmap.
    destruct (decide (0 <= i < 0 + n)%nat).
    - by rewrite lookup_take_lt by lia.
    - rewrite lookup_take_ge by lia. simpl.
      apply lookup_ge_None_2. rewrite length_replicate. lia. }
  assert (Hin : firstTensor s' ∈ tensors).
  { destruct Hfirst as [->|?]; [|done]. by eapply list_elem_of_lookup_2. }
  rewrite Hlens, Hoff, Z.add_0_l. fold total.
  destruct (isFlat s').
  - exists true, (firstTensor s'), w. split; [done|]. split; [done|]. done.
  - eexists false, _, _. split; [reflexivity|]. split; [done|].
    intros _. exists (firstTensor s'). done.
Qed.

(** ** Sums of lengths *)

Lemma sum_integers_app (a b : list Z) :
  sum_integers (a ++ b) = sum_integers a + sum_integers b.
Proof. induction a as [|x a IH]; simpl; [done|]. rewrite IH. lia. Qed.

Lemma sum_integers_nonneg (l : list Z) : Forall (fun x => 0 <= x) l -> 0 <= sum_integers l.
Proof. induction 1; simpl; lia. Qed.

Lemma sum_integers_take_S (l : list Z) k x :
  l !! k = Some x -> sum_integers (take (S k) l) = sum_integers (take k l) + x.
Proof.
  intros H. rewrite (take_S_r _ _ _ H), sum_integers_app. simpl. lia.
Qed.

Lemma sum_integers_take_le (l : list Z) k :
  Forall (fun x => 0 <= x) l -> 0 <= sum_integers (take k l) <= sum_integers l.
Proof.
  intros H. rewrite <- (take_drop k l) at 3. rewrite sum_integers_app.
  assert (0 <= sum_integers (take k l))
    by (by apply sum_integers_nonneg, Forall_take).
  assert (0 <= sum_integers (drop k l))
    by (by apply sum_integers_nonneg, Forall_drop).
  lia.
Qed.

Lemma length_concat_sum (lens : list Z) (cs : list (list Z)) :
  Forall2 (fun l c => length c = Z.to_nat l) lens cs ->
  Forall (fun x => 0 <= x) lens ->
  length (concat cs) = Z.to_nat (sum_integers lens).
Proof.
  induction 1 as [|l c lens cs Hlc _ IH]; intros Hnn; [done|].
  inversion Hnn as [|? ? Hl Hrest]; subst. simpl.
  rewrite length_app, IH, Hlc by done.
  pose proof (sum_integers_nonneg lens Hrest). lia.
Qed.

(** ** LayoutFlattener: the copies *)

Lemma split_views_lookup (t : Tensor) (lens : list Z) : forall off i len,
  Forall (fun x => 0 <= x) lens -> lens !! i = Some len ->
  split_views t off lens !! i
  = Some (mkTensor false (scalar_type t) [len] true (device t) (storage t)
            (storage_offset t + (off + Z.to_nat (sum_integers (take i lens))))).
Proof.
  induction lens as [|n lens IH]; intros off i len Hnn Hi; [done|].
  inversion Hnn as [|? ? Hn Hrest]; subst.
  destruct i as [|i]; simpl in *.
  - inversion Hi; subst. do 4 f_equal. lia.
  - rewrite (IH _ _ _ Hrest Hi). do 3 f_equal.
    pose proof (sum_integers_take_le lens i Hrest). lia.
Qed.

Lemma source_of_facts h sF (ts : list Tensor) (cs : list (list Z)) :
  Forall2 (source_of h sF) ts cs ->
  Forall (fun x => 0 <= x) (numel <$> ts) /\
  Forall2 (fun l c => length c = Z.to_nat l) (numel <$> ts) cs.
Proof.
  induction 1 as [|t c ts cs (_ & _ & Hn & _ & Hr) _ [IH1 IH2]]; simpl.
  { split; constructor. }
  split; constructor; try done.
  by apply region_Some in Hr as (_ & _ & _ & _ & ?).
Qed.

Lemma source_of_frame h sF st (ts : list Tensor) (cs : list (list Z)) off data :
  h !! sF = Some st -> (off + length data <= length st)%nat ->
  Forall2 (source_of h sF) ts cs ->
  Forall2 (source_of (<[sF := splice st off data]> h) sF) ts cs.
Proof.
  intros Hs Hb Hsrc. eapply Forall2_impl; [exact Hsrc|].
  intros t c (? & ? & ? & Hne & Hr). repeat split; try done.
  rewrite region_splice_frame; [done | done | done | by left].
Qed.

Section FlattenLoop.

Variable convert_element : ScalarType -> ScalarType -> Z -> Z.
Variable flat : Tensor.
Variable inputs : list Tensor.
Variable n : nat.
Hypothesis n_le : (n <= length inputs)%nat.
Hypothesis inputs_typed :
  Forall (fun t => scalar_type t = scalar_type flat) (take n inputs).

Let lens : list Z := numel <$> take n inputs.
Let offs (k : nat) : nat := Z.to_nat (sum_integers (take k lens)).

(** After the copies for ranks [k], [k+1], ... the flat storage holds their
    contents one after the other from rank [k]'s offset on. *)
Lemma flatten_loop_spec (cs : list (list Z)) m : forall k w st,
  (k + m)%nat = n ->
  w_heap w !! storage flat = Some st ->
  (storage_offset flat + offs n <= length st)%nat ->
  Forall2 (source_of (w_heap w) (storage flat)) (take n inputs) cs ->
  flatten_loop convert_element m (Z.of_nat k) (split_views flat 0 lens) inputs w
  = Ret tt (set_heap
      (<[storage flat := splice st (storage_offset flat + offs k)
                                (concat (drop k cs))]> (w_heap w)) w).
Proof.
  induction m as [|m IH]; intros k w st Hk Hst Hb Hsrc.
  { assert (Hlen : length cs = n).
    { apply Forall2_length in Hsrc. rewrite length_take in Hsrc. lia. }
    simpl. rewrite drop_ge by lia. simpl.
    assert (Hoff : (offs k <= offs n)%nat) by (replace k with n by lia; done).
    rewrite splice_nil by lia. rewrite list_insert_id by done.
    by destruct w. }
  destruct (source_of_facts _ _ _ _ Hsrc) as [Hnn Hlens]. fold lens in Hnn, Hlens.
  assert (Hlen : length cs = n).
  { apply Forall2_length in Hsrc. rewrite length_take in Hsrc. lia. }
  destruct (lookup_lt_is_Some_2 inputs k) as [t Ht]; [lia|].
  destruct (lookup_lt_is_Some_2 cs k) as [c Hc]; [lia|].
  assert (Htk : take n inputs !! k = Some t) by (rewrite lookup_take_lt by lia; done).
  assert (Hlk : lens !! k = Some (numel t)).
  { unfold lens. by rewrite list_lookup_fmap, Htk. }
  destruct (Forall2_lookup_lr _ _ _ _ _ _ Hsrc Htk Hc)
    as (Hsp & Hct & Hn0 & Hne & Hr).
  pose proof (Forall2_lookup_lr _ _ _ _ _ _ Hlens Hlk Hc) as Hclen.
  simpl in Hclen.
  assert (HoffS : offs (S k) = (offs k + length c)%nat).
  { unfold offs. rewrite (sum_integers_take_S _ _ _ Hlk).
    pose proof (sum_integers_take_le lens k Hnn). lia. }
  assert (Hoffle : (offs (S k) <= offs n)%nat).
  { unfold offs.
    assert (Hnnt : Forall (fun x => 0 <= x) (take n lens)) by (by apply Forall_take).
    pose proof (sum_integers_take_le (take n lens) (S k) Hnnt) as Hle.
    rewrite take_take in Hle. replace (S k `min` n)%nat with (S k) in Hle by lia.
    apply Z2Nat.inj_le; lia. }
  simpl flatten_loop.
  rewrite (bind_Ret _ _ _ _ _
    (vector_at_lookup _ k _ w (split_views_lookup flat lens 0 k _ Hnn Hlk))).
  rewrite (bind_Ret _ _ _ _ _ (vector_at_lookup inputs k t w Ht)).
  unfold view_flat at 1. rewrite Hsp, Hct. simpl negb. simpl orb. cbv iota.
  unfold bind at 1. unfold ret at 1.
  erewrite bind_Ret; cycle 1.
  { apply (copy_equal_sizes _ _ _ w c st).
    - simpl. rewrite Forall_forall in inputs_typed.
      by apply inputs_typed, list_elem_of_lookup_2 with k.
    - unfold numel. simpl. lia.
    - simpl. unfold numel at 1. simpl. rewrite Z.mul_1_r. exact Hr.
    - exact Hst.
    - simpl. unfold numel at 1. simpl. rewrite Z.mul_1_r.
      fold (offs k). lia. }
  simpl storage. simpl storage_offset. fold (offs k).
  replace (Z.of_nat k + 1) with (Z.of_nat (S k)) by lia.
  rewrite (IH (S k) _ (splice st (storage_offset flat + offs k) c)).
  - simpl w_heap. rewrite set_heap_set_heap, list_insert_insert_eq.
    rewrite HoffS, Nat.add_assoc, splice_splice.
    + by rewrite (drop_S _ _ _ Hc).
    + assert (Hnnd : Forall (fun x => 0 <= x) (drop (S k) lens))
        by (by apply Forall_drop).
      assert (Hrest : length (concat (drop (S k) cs))
                      = Z.to_nat (sum_integers (drop (S k) lens))).
      { apply length_concat_sum; [by apply Forall2_drop | done]. }
      rewrite Hrest.
      assert (Hsplit : sum_integers lens
                = sum_integers (take (S k) lens) + sum_integers (drop (S k) lens)).
      { rewrite <- sum_integers_app. by rewrite take_drop. }
      assert (Hall : offs n = Z.to_nat (sum_integers lens)).
      { unfold offs. rewrite take_ge; [done|]. unfold lens.
        rewrite length_fmap, length_take. lia. }
      pose proof (sum_integers_nonneg _ Hnnd).
      pose proof (sum_integers_take_le lens (S k) Hnn).
      unfold offs in *. lia.
  - lia.
  - simpl. apply list_lookup_insert_eq. by eapply lookup_lt_Some.
  - rewrite length_splice by lia. done.
  - simpl. apply source_of_frame; [done | lia | done].
Qed.

End FlattenLoop.

Lemma region_is_Some h s off len :
  is_Some (region h s off len) <->
  exists st, h !! s = Some st /\ (off + len <= length st)%nat.
Proof.
  unfold region. split.
  - intros [c Hc]. destruct (h !! s) as [st|]; [|done].
    case_bool_decide; [|done]. by exists st.
  - intros (st & -> & Hb). rewrite bool_decide_eq_true_2 by done. by eexists.
Qed.

Lemma region_is_Some_splice h s st off data s' off' len' :
  h !! s = Some st -> (off + length data <= length st)%nat ->
  is_Some (region h s' off' len') ->
  is_Some (region (<[s := splice st off data]> h) s' off' len').
Proof.
  intros Hs Hb. rewrite !region_is_Some. intros (st' & Hs' & Hb').
  destruct (decide (s' = s)) as [->|Hne].
  - exists (splice st off data). split.
    + apply list_lookup_insert_eq. by eapply lookup_lt_Some.
    + rewrite length_splice by done. congruence.
  - exists st'. by rewrite list_lookup_insert_ne.
Qed.

(** Part of a view is a view. *)
Lemma region_part h s off total data a len :
  region h s off total = Some data -> (a + len <= total)%nat ->
  region h s (off + a) len = Some (take len (drop a data)).
Proof.
  intros Hr Ha. apply region_Some in Hr as (st & Hs & Hb & -> & _).
  rewrite (region_in_bounds _ _ _ _ st) by (done || lia).
  f_equal. apply list_eq. intros i.
  rewrite !lookup_take_drop.
  destruct (decide (i < len)%nat); [|done].
  rewrite decide_True by lia. f_equal. lia.
Qed.

Lemma destination_of_frame h sG (ts : list Tensor) s st off data :
  h !! s = Some st -> (off + length data <= length st)%nat ->
  Forall (destination_of h sG) ts ->
  Forall (destination_of (<[s := splice st off data]> h) sG) ts.
Proof.
  intros Hs Hb Hdst. eapply Forall_impl; [exact Hdst|].
  intros t (? & ? & ? & ? & Hr). repeat split; try done.
  by apply region_is_Some_splice.
Qed.

Section UnflattenLoop.

Variable convert_element : ScalarType -> ScalarType -> Z -> Z.
Variable flat : Tensor.
Variable outputs : list Tensor.
Variable n : nat.
Variable data : list Z.
Hypothesis n_le : (n <= length outputs)%nat.
Hypothesis outputs_disjoint : pairwise_disjoint n outputs.
Hypothesis outputs_typed :
  Forall (fun t => scalar_type t = scalar_type flat) (take n outputs).

Let lens : list Z := numel <$> take n outputs.
Let offs (k : nat) : nat := Z.to_nat (sum_integers (take k lens)).

(** After the copies for ranks [k], [k+1], ... each of those outputs holds
    its segment of the flat buffer, and every view that overlaps none of
    them is as it was. *)
Lemma unflatten_loop_spec m : forall k w,
  (k + m)%nat = n ->
  region (w_heap w) (storage flat) (storage_offset flat) (offs n) = Some data ->
  Forall (destination_of (w_heap w) (storage flat)) (take n outputs) ->
  exists h',
    unflatten_loop convert_element m (Z.of_nat k) outputs
                   (split_views flat 0 lens) w
      = Ret tt (set_heap h' w) /\
    (forall i t, (k <= i < n)%nat -> outputs !! i = Some t ->
       contents h' t = Some (segment lens i data)) /\
    (forall s off len,
       (forall i t, (k <= i < n)%nat -> outputs !! i = Some t ->
          s <> storage t \/ (off + len <= storage_offset t)%nat \/
          (storage_offset t + Z.to_nat (numel t) <= off)%nat) ->
       region h' s off len = region (w_heap w) s off len).
Proof.
  induction m as [|m IH]; intros k w Hk Hflat Hdst.
  { exists (w_heap w). split; [by destruct w|]. split; [|done].
    intros i t Hi. lia. }
  assert (Hnn : Forall (fun x => 0 <= x) lens).
  { unfold lens. apply Forall_fmap. eapply Forall_impl; [exact Hdst|].
    by intros t (_ & _ & ? & _). }
  destruct (lookup_lt_is_Some_2 outputs k) as [t Ht]; [lia|].
  assert (Htk : take n outputs !! k = Some t) by (rewrite lookup_take_lt by lia; done).
  assert (Hlk : lens !! k = Some (numel t)).
  { unfold lens. by rewrite list_lookup_fmap, Htk. }
  rewrite Forall_forall in Hdst.
  destruct (Hdst t (list_elem_of_lookup_2 _ _ _ Htk)) as (Hsp & Hct & Hn0 & Hne & Hin).
  apply region_is_Some in Hin as (st & Hst & Hb).
  assert (Hoffle : (offs k + Z.to_nat (numel t) <= offs n)%nat).
  { assert (Hnnt : Forall (fun x => 0 <= x) (take n lens)) by (by apply Forall_take).
    pose proof (sum_integers_take_le (take n lens) (S k) Hnnt) as Hle.
    rewrite take_take in Hle. replace (S k `min` n)%nat with (S k) in Hle by lia.
    rewrite (sum_integers_take_S _ _ _ Hlk) in Hle.
    pose proof (sum_integers_take_le lens k Hnn). unfold offs. lia. }
  pose proof (region_part _ _ _ _ _ (offs k) (Z.to_nat (numel t)) Hflat Hoffle) as Hseg.
  assert (Hsegeq : take (Z.to_nat (numel t)) (drop (offs k) data) = segment lens k data).
  { unfold segment. by rewrite Hlk. }
  rewrite Hsegeq in Hseg.
  assert (Hseglen : length (segment lens k data) = Z.to_nat (numel t)).
  { by apply region_Some in Hseg as (_ & _ & _ & _ & ?). }
  simpl unflatten_loop.
  rewrite (bind_Ret _ _ _ _ _ (vector_at_lookup outputs k t w Ht)).
  unfold view_flat at 1. rewrite Hsp, Hct. simpl negb. simpl orb. cbv iota.
  unfold bind at 1. unfold ret at 1.
  rewrite (bind_Ret _ _ _ _ _
    (vector_at_lookup _ k _ w (split_views_lookup flat lens 0 k _ Hnn Hlk))).
  erewrite bind_Ret; cycle 1.
  { apply (copy_equal_sizes _ _ _ w (segment lens k data) st).
    - simpl. rewrite Forall_forall in outputs_typed. symmetry.
      by apply outputs_typed, list_elem_of_lookup_2 with k.
    - unfold numel. simpl. lia.
    - simpl. unfold numel at 1. simpl. rewrite Z.mul_1_r. exact Hseg.
    - exact Hst.
    - simpl. unfold numel at 1. simpl. rewrite Z.mul_1_r. exact Hb. }
  simpl storage. simpl storage_offset.
  replace (Z.of_nat k + 1) with (Z.of_nat (S k)) by lia.
  set (h1 := <[storage t := splice st (storage_offset t) (segment lens k data)]>
               (w_heap w)).
  destruct (IH (S k) (set_heap h1 w)) as (h' & Hrun & Hout & Hframe).
  - lia.
  - simpl. unfold h1. rewrite region_splice_frame; [done | done | lia | by left].
  - simpl. unfold h1. apply destination_of_frame; [done | lia |].
    by apply Forall_forall.
  - exists h'. rewrite Hrun, set_heap_set_heap. split; [done|]. split.
    + intros i ti Hi Hti. destruct (decide (i = k)) as [->|Hik].
      * assert (ti = t) as -> by congruence.
        unfold contents. rewrite Hframe.
        -- simpl. unfold h1. rewrite <- Hseglen.
           apply region_splice_same; [done | lia].
        -- intros j tj Hj Htj.
           by apply (outputs_disjoint k j t tj); [lia | lia | lia | |].
      * apply Hout; [lia | done].
    + intros s off len Hdisj. rewrite Hframe.
      * simpl. unfold h1. apply region_splice_frame; [done | lia |].
        rewrite Hseglen. apply Hdisj with k; [lia | done].
      * intros j tj Hj Htj. apply Hdisj with j; [lia | done].
Qed.

End UnflattenLoop.

Lemma to_int64_to_size_t (x : Z) : 0 <= x < 2 ^ 63 -> to_int64 (to_size_t x) = x.
Proof.
  intros H. unfold to_int64. rewrite to_size_t_id by lia.
  rewrite Z.mod_small; lia.
Qed.

Lemma counts_as_int64 (tensors : list Tensor) :
  Forall numel_in_range tensors ->
  to_int64 <$> ((fun t => to_size_t (numel t)) <$> tensors) = numel <$> tensors.
Proof.
  intros H. rewrite <- list_fmap_compose. apply list_fmap_ext.
  intros i t Ht. simpl. apply to_int64_to_size_t.
  rewrite Forall_forall in H. by apply H, list_elem_of_lookup_2 with i.
Qed.

Lemma splice_whole st data : length data = length st -> splice st 0 data = data.
Proof.
  intros H. unfold splice. simpl. rewrite drop_ge by lia. apply app_nil_r.
Qed.

Lemma region_ext h h' s off len :
  h !! s = h' !! s -> region h s off len = region h' s off len.
Proof. unfold region. by intros ->. Qed.

Lemma region_whole h s st :
  h !! s = Some st -> region h s 0 (length st) = Some st.
Proof.
  intros H. rewrite (region_in_bounds _ _ _ _ st) by (done || lia).
  by rewrite drop_0, take_ge.
Qed.


Lemma numel_flat (t : Tensor) total : sizes t = [total] -> numel t = total.
Proof. unfold numel. intros ->. simpl. lia. Qed.

Lemma forallb_nonneg (l : list Z) :
  Forall (fun x => 0 <= x) l -> forallb (fun n => bool_decide (0 <= n)) l = true.
Proof.
  induction 1; simpl; [done|]. by rewrite bool_decide_eq_true_2.
Qed.

Lemma split_with_sizes_sum flat (lens : list Z) w :
  Forall (fun x => 0 <= x) lens -> sum_integers lens = numel flat ->
  split_with_sizes flat lens w = Ret (split_views flat 0 lens) w.
Proof.
  intros Hnn Hsum. unfold split_with_sizes.
  rewrite forallb_nonneg by done. simpl.
  by rewrite bool_decide_eq_true_2.
Qed.

Lemma numel_nonneg_of_range (tensors : list Tensor) :
  Forall numel_in_range tensors -> Forall (fun x => 0 <= x) (numel <$> tensors).
Proof.
  intros H. apply Forall_fmap. eapply Forall_impl; [exact H|].
  intros t Ht. unfold numel_in_range in Ht. simpl. lia.
Qed.

(** The flatten step on a list that is not flat: the send buffer receives
    the inputs' contents, one after the other in rank order. *)
Lemma flatten_inputs_spec convert_element flat inputs grp_size cs w st :
  let n := Z.to_nat grp_size in
  let total := sum_integers (numel <$> take n inputs) in
  (n <= length inputs)%nat -> sizes flat = [total] ->
  Forall numel_in_range (take n inputs) ->
  Forall (fun t => scalar_type t = scalar_type flat) (take n inputs) ->
  w_heap w !! storage flat = Some st ->
  (storage_offset flat + Z.to_nat total <= length st)%nat ->
  Forall2 (source_of (w_heap w) (storage flat)) (take n inputs) cs ->
  flatten_inputs convert_element grp_size false flat
    ((fun t => to_size_t (numel t)) <$> take n inputs) inputs w
  = Ret tt (set_heap (<[storage flat := splice st (storage_offset flat) (concat cs)]>
                        (w_heap w)) w).
Proof.
  intros n total Hn Hsz Hrange Hty Hst Hb Hsrc. unfold flatten_inputs.
  change (negb false) with true. cbv iota. rewrite counts_as_int64 by done.
  rewrite (bind_Ret _ _ _ _ _
    (split_with_sizes_sum flat _ w (numel_nonneg_of_range _ Hrange)
       ltac:(by rewrite (numel_flat _ _ Hsz)))).
  fold n.
  assert (Hall : take n (numel <$> take n inputs) = numel <$> take n inputs).
  { apply take_ge. rewrite length_fmap, length_take. lia. }
  change 0 with (Z.of_nat 0).
  rewrite (flatten_loop_spec convert_element flat inputs n Hn Hty cs n 0 w st);
    [| lia | done | | done].
  - simpl. by rewrite Nat.add_0_r.
  - rewrite Hall. exact Hb.
Qed.

(** ** Writes in flight *)

Lemma filter_none {A} (P : A -> Prop) `{forall x, Decision (P x)} (l : list A) :
  Forall (fun x => ~ P x) l -> filter P l = [].
Proof.
  induction 1 as [|x l Hx _ IH]; [done|]. by rewrite filter_cons_False.
Qed.

Lemma filter_all {A} (P : A -> Prop) `{forall x, Decision (P x)} (l : list A) :
  Forall P l -> filter P l = l.
Proof.
  induction 1 as [|x l Hx _ IH]; [done|]. rewrite filter_cons_True by done.
  by rewrite IH.
Qed.

(** Until its event has been waited for, a write in flight has not reached
    the heap; the wait blocks for the event's latency and lands it. *)
Lemma event_wait_lands evt w old s off data st :
  w_inflight w = old ++ [mkInflight (ev_call evt) s off data] ->
  Forall (fun p => if_call p <> ev_call evt) old ->
  w_heap w !! s = Some st ->
  event_wait evt w
  = Ret tt (set_heap (<[s := splice st off data]> (w_heap w))
                     (still_owing old (blocked_for (ev_latency evt) w))).
Proof.
  intros Hin Hold Hs. unfold event_wait, block_for, complete, bind. simpl.
  rewrite Hin, !filter_app.
  rewrite (filter_none (fun p => if_call p = ev_call evt) old) by done.
  rewrite (filter_all (fun p => if_call p <> ev_call evt) old) by done.
  rewrite filter_cons_True by done. rewrite filter_cons_False by (simpl; tauto).
  simpl. unfold land. simpl. rewrite Hs, app_nil_r. reflexivity.
Qed.

(** The unflatten step on a list that is not flat: the caller waits for the
    event, which lands what the exchange delivered in the receive buffer;
    then every output receives its segment of it, and every view that
    overlaps neither an output nor the receive buffer is as it was. *)
Lemma unflatten_outputs_spec convert_element flat outputs grp_size data evt w st old :
  let n := Z.to_nat grp_size in
  let total := sum_integers (numel <$> take n outputs) in
  (n <= length outputs)%nat -> sizes flat = [total] ->
  Forall numel_in_range (take n outputs) ->
  Forall (fun t => scalar_type t = scalar_type flat) (take n outputs) ->
  pairwise_disjoint n outputs ->
  w_inflight w
    = old ++ [mkInflight (ev_call evt) (storage flat) (storage_offset flat) data] ->
  Forall (fun p => if_call p <> ev_call evt) old ->
  w_heap w !! storage flat = Some st ->
  (storage_offset flat + length data <= length st)%nat ->
  length data = Z.to_nat total ->
  Forall (destination_of (w_heap w) (storage flat)) (take n outputs) ->
  exists h',
    unflatten_outputs convert_element grp_size false evt flat
      ((fun t => to_size_t (numel t)) <$> take n outputs) outputs w
    = Ret tt (set_heap h' (still_owing old (blocked_for (ev_latency evt) w))) /\
    (forall i t, (i < n)%nat -> outputs !! i = Some t ->
       contents h' t = Some (segment (numel <$> take n outputs) i data)) /\
    (forall t', storage t' <> storage flat ->
       (forall i t, (i < n)%nat -> outputs !! i = Some t -> disjoint_views t' t) ->
       contents h' t' = contents (w_heap w) t').
Proof.
  intros n total Hn Hsz Hrange Hty Hdisj Hin Hold Hst Hb Hlen Hdst.
  unfold unflatten_outputs.
  change (negb false) with true. cbv iota. rewrite counts_as_int64 by done.
  rewrite (bind_Ret _ _ _ _ _ (event_wait_lands evt w old _ _ data st Hin Hold Hst)).
  set (h1 := <[storage flat := splice st (storage_offset flat) data]> (w_heap w)).
  set (w1 := set_heap h1 (still_owing old (blocked_for (ev_latency evt) w))).
  rewrite (bind_Ret _ _ _ _ _
    (split_with_sizes_sum flat _ _ (numel_nonneg_of_range _ Hrange)
       ltac:(by rewrite (numel_flat _ _ Hsz)))).
  fold n.
  assert (Hall : take n (numel <$> take n outputs) = numel <$> take n outputs).
  { apply take_ge. rewrite length_fmap, length_take. lia. }
  change 0 with (Z.of_nat 0).
  destruct (unflatten_loop_spec convert_element flat outputs n data Hn Hdisj Hty
              n 0 w1) as (h' & Hrun & Hout & Hframe).
  - lia.
  - rewrite Hall. fold total. rewrite <- Hlen. simpl.
    by apply region_splice_same.
  - simpl. by apply destination_of_frame.
  - exists h'. split; [by rewrite Hrun|]. split.
    + intros i t Hi Ht. apply Hout; [lia | done].
    + intros t' Hne Ht'. unfold contents. rewrite Hframe.
      * simpl. unfold h1. apply region_splice_frame; [done | done | by left].
      * intros i t Hi Ht. apply (Ht' i t); [lia | done].
Qed.

Lemma dense_in_storage h t : dense_in h t -> (storage t < length h)%nat.
Proof.
  intros (_ & _ & _ & Hc). unfold contents in Hc.
  apply region_is_Some in Hc as (st & Hs & _). by eapply lookup_lt_Some.
Qed.

(** The exchange: the call is issued and the device owes the receive buffer
    what the library delivers for the send buffer's elements; the heap is as
    it was. *)
Lemma ccl_alltoallv_on_spec lib flatInput sendCounts flatOutput recvCounts d w sent st :
  let call := ccl_alltoallv sendCounts recvCounts d in
  let delivered := resize (Z.to_nat (sum_integers recvCounts)) 0
                          (ccl_exchange lib sent sendCounts recvCounts) in
  ccl_status lib call = None ->
  region (w_heap w) (storage flatInput) (storage_offset flatInput)
         (Z.to_nat (sum_integers sendCounts)) = Some sent ->
  w_heap w !! storage flatOutput = Some st ->
  (storage_offset flatOutput + Z.to_nat (sum_integers recvCounts) <= length st)%nat ->
  ccl_alltoallv_on lib flatInput sendCounts flatOutput recvCounts d w
  = Ret (mkEvent call (ccl_latency lib call))
        (owing (mkInflight call (storage flatOutput) (storage_offset flatOutput)
                           delivered)
               (issued call w)).
Proof.
  intros call delivered Hok Hsent Hst Hb. unfold ccl_alltoallv_on. cbv zeta.
  assert (Hissue : ccl_issue lib call w
                   = Ret (mkEvent call (ccl_latency lib call)) (issued call w)).
  { unfold ccl_issue. fold call. by rewrite Hok. }
  fold call. rewrite (bind_Ret _ _ _ _ _ Hissue).
  rewrite (bind_Ret _ _ _ _ _
             (read_from_region flatInput _ (issued call w) sent Hsent)).
  erewrite bind_Ret; [reflexivity|].
  unfold post_write. simpl. rewrite Hst.
  rewrite bool_decide_eq_true_2 by (by rewrite length_resize). reflexivity.
Qed.

Lemma Forall2_strengthen {A B} (P : A -> Prop) (Q R : A -> B -> Prop) l k :
  Forall2 Q l k -> Forall P l -> (forall x y, P x -> Q x y -> R x y) ->
  Forall2 R l k.
Proof.
  intros HQ HP Himp. induction HQ as [|x y l k Hxy _ IH]; [constructor|].
  inversion HP; subst. constructor; [by apply Himp | by apply IH].
Qed.

Section AllToAll.

Variable lib : CCL.
Variable cclDatatypes : ScalarType -> option Z.
Variable dispatch_unsupported : ScalarType -> string -> option exn.
Variable convert_element : ScalarType -> ScalarType -> Z -> Z.
Variable grp_size : Z.
Variable inputs outputs : list Tensor.
Variable cs : list (list Z).
Variable w : world.
Variable ty : ScalarType.

Let n : nat := Z.to_nat grp_size.
Let h : list (list Z) := w_heap w.
Let tin : Z := sum_integers (numel <$> take n inputs).
Let tout : Z := sum_integers (numel <$> take n outputs).

Hypothesis inputs_enough : (n <= length inputs)%nat.
Hypothesis outputs_enough : (n <= length outputs)%nat.
Hypothesis inputs_dense : Forall (dense_in h) (take n inputs).
Hypothesis outputs_dense : Forall (dense_in h) (take n outputs).
Hypothesis outputs_disjoint : pairwise_disjoint n outputs.
Hypothesis inputs_contents :
  Forall2 (fun t c => contents h t = Some c) (take n inputs) cs.
Hypothesis inputs_typed : Forall (fun t => scalar_type t = ty) inputs.
Hypothesis outputs_typed : Forall (fun t => scalar_type t = ty) outputs.

Lemma inputs_in_range : Forall numel_in_range (take n inputs).
Proof. eapply Forall_impl; [exact inputs_dense|]. by intros t (_ & _ & ? & _). Qed.

Lemma outputs_in_range : Forall numel_in_range (take n outputs).
Proof. eapply Forall_impl; [exact outputs_dense|]. by intros t (_ & _ & ? & _). Qed.

(** Storages allocated or written after the call began leave the inputs as
    sources and the outputs as destinations. *)
Lemma inputs_are_sources h' sF :
  (length h <= sF)%nat -> (forall s, (s < length h)%nat -> h' !! s = h !! s) ->
  Forall2 (source_of h' sF) (take n inputs) cs.
Proof.
  intros HsF Hold.
  eapply Forall2_strengthen; [exact inputs_contents | exact inputs_dense |].
  intros t c Hd Hc. pose proof (dense_in_storage _ _ Hd) as Hlt.
  destruct Hd as (Hsp & Hct & Hr & _). unfold numel_in_range in Hr.
  repeat split; [done | done | lia | lia |].
  unfold contents in Hc. rewrite <- Hc. apply region_ext. by apply Hold.
Qed.

Lemma outputs_are_destinations h' sG :
  (length h <= sG)%nat -> (forall s, (s < length h)%nat -> h' !! s = h !! s) ->
  Forall (destination_of h' sG) (take n outputs).
Proof.
  intros HsG Hold. eapply Forall_impl; [exact outputs_dense|].
  intros t Hd. pose proof (dense_in_storage _ _ Hd) as Hlt.
  destruct Hd as (Hsp & Hct & Hr & Hc). unfold numel_in_range in Hr.
  repeat split; [done | done | lia | lia |].
  unfold contents in Hc. by rewrite (region_ext h' h) by (by apply Hold).
Qed.

Lemma length_inputs_contents : length (concat cs) = Z.to_nat tin.
Proof.
  destruct (source_of_facts h (length h) (take n inputs) cs) as [Hnn Hlens].
  { by apply inputs_are_sources. }
  by apply length_concat_sum.
Qed.

(** The all-to-all function on lists of one scalar type that are not flat:
    the scans give the lengths, the send buffer is filled with the inputs'
    contents, the exchange is issued, the caller waits for its event, and
    with what has then arrived each output receives its segment; of what
    existed before, nothing but the outputs is written. *)
Lemma alltoall_fn_not_flat comm strm sc flatInput fs w1 rc flatOutput fr w2 d :
  inputs <> [] -> outputs <> [] ->
  computeLengthsAndCheckAndGetFlat inputs (replicate n 0) w
    = Ret (false, sc, flatInput, fs) w1 ->
  computeLengthsAndCheckAndGetFlat outputs (replicate n 0) w1
    = Ret (false, rc, flatOutput, fr) w2 ->
  dispatch_unsupported (scalar_type flatInput) "xpu::alltoall" = None ->
  cclDatatypes (scalar_type flatOutput) = Some d ->
  ccl_status lib (ccl_alltoallv sc rc d) = None ->
  Forall (fun p => if_call p <> ccl_alltoallv sc rc d) (w_inflight w) ->
  (sc = numel <$> take n inputs /\ sum_integers sc = numel flatInput /\
   rc = numel <$> take n outputs /\ sum_integers rc = numel flatOutput) /\
  (exists w3 evt w4 w5,
     flatten_inputs convert_element grp_size false flatInput sc inputs w2
       = Ret tt w3 /\
     contents (w_heap w3) flatInput = Some (concat cs) /\
     ccl_alltoallv_on lib flatInput sc flatOutput rc d w3 = Ret evt w4 /\
     w_heap w4 = w_heap w3 /\
     w_inflight w4
       = w_inflight w ++
         [mkInflight (ccl_alltoallv sc rc d) (storage flatOutput)
                     (storage_offset flatOutput)
                     (resize (Z.to_nat (sum_integers rc)) 0
                             (ccl_exchange lib (concat cs) sc rc))] /\
     unflatten_outputs convert_element grp_size false evt flatOutput rc outputs w4
       = Ret tt w5 /\
     alltoall_fn lib cclDatatypes dispatch_unsupported convert_element grp_size
       inputs outputs inputs outputs comm strm w = Ret evt w5 /\
     ev_call evt = ccl_alltoallv sc rc d /\
     w_issued w5 = w_issued w ++ [ccl_alltoallv sc rc d] /\
     w_inflight w5 = w_inflight w /\
     w_clock w5 = (w_clock w + ev_latency evt)%nat /\
     (forall i t, (i < n)%nat -> outputs !! i = Some t ->
        contents (w_heap w5) t
        = Some (segment rc i (resize (Z.to_nat (sum_integers rc)) 0
                                     (ccl_exchange lib (concat cs) sc rc)))) /\
     (forall t', (storage t' < length h)%nat ->
        (forall i t, (i < n)%nat -> outputs !! i = Some t -> disjoint_views t' t) ->
        contents (w_heap w5) t' = contents h t')).
Proof.
  intros Hine Houte Hsi Hso Hdisp Hd Hok Hold.
  destruct (computeLengthsAndCheckAndGetFlat_spec inputs n w Hine inputs_enough)
    as (b & flat & w' & Hc & _ & Hnf).
  rewrite Hsi in Hc. inversion Hc; subst b flat w' fs. clear Hc.
  destruct (Hnf eq_refl) as (fi & Hfi & HF & Hw1). clear Hnf.
  destruct (computeLengthsAndCheckAndGetFlat_spec outputs n w1 Houte outputs_enough)
    as (b & flat & w' & Hc & _ & Hnf).
  rewrite Hso in Hc. inversion Hc; subst b flat w' fr. clear Hc.
  destruct (Hnf eq_refl) as (fo & Hfo & HG & Hw2). clear Hnf.
  rewrite (size_t_counts_id _ inputs_in_range) in *.
  rewrite (size_t_counts_id _ outputs_in_range) in *.
  subst sc rc.
  fold tin in HF, Hw1. fold tout in HG, Hw2. fold h in HF, Hw1.
  assert (Hh1 : w_heap w1 = h ++ [replicate (Z.to_nat tin) 0]) by (by rewrite Hw1).
  rewrite Hh1 in HG, Hw2. rewrite length_app in HG. simpl in HG.
  set (zi := replicate (Z.to_nat tin) 0) in *.
  set (zo := replicate (Z.to_nat tout) 0) in *.
  set (sF := length h) in *. set (sG := (length h + 1)%nat) in *.
  set (h2 := (h ++ [zi]) ++ [zo]) in *.
  assert (Hh2 : w_heap w2 = h2) by (by rewrite Hw2).
  assert (Hfl2 : w_inflight w2 = w_inflight w) by (by rewrite Hw2, Hw1).
  assert (HsF : storage flatInput = sF) by (by rewrite HF).
  assert (HsG : storage flatOutput = sG) by (by rewrite HG).
  assert (HoF : storage_offset flatInput = 0%nat) by (by rewrite HF).
  assert (HoG : storage_offset flatOutput = 0%nat) by (by rewrite HG).
  assert (HnF : sizes flatInput = [tin]) by (by rewrite HF).
  assert (HnG : sizes flatOutput = [tout]) by (by rewrite HG).
  assert (HtF : scalar_type flatInput = ty).
  { rewrite HF. simpl. rewrite Forall_forall in inputs_typed. by apply inputs_typed. }
  assert (HtG : scalar_type flatOutput = ty).
  { rewrite HG. simpl. rewrite Forall_forall in outputs_typed. by apply outputs_typed. }
  assert (HtyF : Forall (fun t => scalar_type t = scalar_type flatInput) (take n inputs)).
  { rewrite HtF. by apply Forall_take. }
  assert (HtyG : Forall (fun t => scalar_type t = scalar_type flatOutput)
                        (take n outputs)).
  { rewrite HtG. by apply Forall_take. }
  assert (Hold2 : forall s, (s < length h)%nat -> h2 !! s = h !! s).
  { intros s Hs. unfold h2. rewrite lookup_app_l by (rewrite length_app; lia).
    by apply lookup_app_l. }
  assert (HF2 : h2 !! sF = Some zi).
  { unfold h2, sF. rewrite lookup_app_l by (rewrite length_app; simpl; lia).
    by rewrite lookup_app_r, Nat.sub_diag. }
  assert (HG2 : h2 !! sG = Some zo).
  { unfold h2, sG. rewrite lookup_app_r by (rewrite length_app; simpl; lia).
    rewrite length_app. simpl. by rewrite Nat.sub_diag. }
  split.
  { repeat split; [by rewrite (numel_flat _ _ HnF) | by rewrite (numel_flat _ _ HnG)]. }
  (* the flatten step *)
  assert (Hflat : flatten_inputs convert_element grp_size false flatInput
                    (numel <$> take n inputs) inputs w2
                  = Ret tt (set_heap (<[sF := concat cs]> h2) w2)).
  { rewrite <- (size_t_counts_id _ inputs_in_range).
    etransitivity;
      [apply (flatten_inputs_spec convert_element flatInput inputs grp_size cs w2 zi)|];
      rewrite ?Hh2, ?HsF, ?HoF; try done.
    - apply inputs_in_range.
    - unfold zi. rewrite length_replicate. fold n. fold tin. lia.
    - apply inputs_are_sources; [unfold sF; lia | done].
    - rewrite splice_whole; [done|].
      rewrite length_inputs_contents. unfold zi. by rewrite length_replicate. }
  set (h3 := <[sF := concat cs]> h2) in *.
  assert (HF3 : h3 !! sF = Some (concat cs)).
  { unfold h3. apply list_lookup_insert_eq. by eapply lookup_lt_Some. }
  assert (HG3 : h3 !! sG = Some zo).
  { unfold h3. rewrite list_lookup_insert_ne; [done | unfold sF, sG; lia]. }
  assert (Hold3 : forall s, (s < length h)%nat -> h3 !! s = h !! s).
  { intros s Hs. unfold h3.
    rewrite list_lookup_insert_ne by (unfold sF; lia). by apply Hold2. }
  assert (Hsent : region h3 sF 0 (Z.to_nat tin) = Some (concat cs)).
  { rewrite <- length_inputs_contents. by apply region_whole. }
  (* the exchange *)
  set (call := ccl_alltoallv (numel <$> take n inputs) (numel <$> take n outputs) d)
    in *.
  set (delivered := resize (Z.to_nat tout) 0
         (ccl_exchange lib (concat cs) (numel <$> take n inputs)
                       (numel <$> take n outputs))).
  set (w3 := set_heap h3 w2) in *.
  set (evt := mkEvent call (ccl_latency lib call)).
  set (w4 := owing (mkInflight call sG 0 delivered) (issued call w3)).
  assert (Hexch : ccl_alltoallv_on lib flatInput (numel <$> take n inputs)
                    flatOutput (numel <$> take n outputs) d w3 = Ret evt w4).
  { etransitivity;
      [apply (ccl_alltoallv_on_spec lib _ _ _ _ d w3 (concat cs) zo)|];
      rewrite ?HsF, ?HoF, ?HsG, ?HoG; try done.
    unfold zo. rewrite length_replicate. fold tout. lia. }
  assert (Hlend : length delivered = Z.to_nat tout)
    by (unfold delivered; by rewrite length_resize).
  (* the unflatten step *)
  destruct (unflatten_outputs_spec convert_element flatOutput outputs grp_size
              delivered evt w4 zo (w_inflight w))
    as (h5 & Hunflat & Hout & Hframe); rewrite ?HsG, ?HoG; try done.
  { apply outputs_in_range. }
  { simpl. by rewrite Hfl2. }
  { unfold zo. rewrite length_replicate. lia. }
  { apply outputs_are_destinations; [unfold sG; lia | done]. }
  fold n in Hunflat, Hout, Hframe.
  rewrite (size_t_counts_id _ outputs_in_range) in Hunflat.
  exists w3, evt, w4,
    (set_heap h5 (still_owing (w_inflight w) (blocked_for (ccl_latency lib call) w4))).
  split; [exact Hflat|]. split.
  { simpl. unfold contents. by rewrite HsF, HoF, (numel_flat _ _ HnF). }
  split; [exact Hexch|]. split; [done|]. split.
  { simpl. by rewrite Hfl2. }
  split; [exact Hunflat|].
  split; [|split; [done|split; [|split; [done|split; [|split]]]]].
  - unfold alltoall_fn. fold n.
    rewrite (bind_Ret _ _ _ _ _ Hsi). cbv beta iota.
    rewrite (bind_Ret _ _ _ _ _ Hso). cbv beta iota.
    rewrite (bind_Ret _ _ _ _ _ Hflat).
    unfold CCL_DISPATCH_INTEGRAL_FLOATS_TYPES. rewrite Hdisp. cbv zeta.
    assert (Hbody :
      (let! send_buf := data_ptr (scalar_type flatInput) flatInput in
       let! recv_buf := data_ptr (scalar_type flatInput) flatOutput in
       let! dtype := map_at cclDatatypes (scalar_type flatOutput) in
       ccl_alltoallv_on lib send_buf (numel <$> take n inputs) recv_buf
                        (numel <$> take n outputs) dtype) w3 = Ret evt w4).
    { rewrite (bind_Ret _ _ _ _ _ (data_ptr_same flatInput w3)).
      rewrite (bind_Ret _ _ _ _ _
                 (data_ptr_typed (scalar_type flatInput) flatOutput w3
                    (eq_trans HtG (eq_sym HtF)))).
      unfold map_at. rewrite Hd. unfold bind at 1. unfold ret at 1.
      exact Hexch. }
    fold w3. rewrite (bind_Ret _ _ _ _ _ Hbody).
    by rewrite (bind_Ret _ _ _ _ _ Hunflat).
  - simpl. by rewrite Hw2, Hw1.
  - simpl. rewrite Hw2, Hw1. simpl. lia.
  - intros i t Hi Ht. simpl. fold delivered. by apply Hout.
  - intros t' Hlt Ht'. simpl. rewrite (Hframe t'); [| unfold sG; lia | done].
    simpl. unfold contents. apply region_ext. by apply Hold3.
Qed.

End AllToAll.




(** * Further properties *)

(** ** CommunicatorCache: failures and invariants *)

Section CacheInvariants.

Variable lib : CCL.
Variable pg_ccl : ProcessGroupCCL.

(** One request keeps the cache sound and well formed, keeps every entry
    and only ever appends to the bundles. *)
Lemma get_ccl_comms_step key devices w :
  cache_sound w -> cache_wf pg_ccl w ->
  exists w', outcome_world (get_ccl_comms lib pg_ccl key devices w) = Some w' /\
    cache_sound w' /\ cache_wf pg_ccl w' /\
    w_bundles w `prefix_of` w_bundles w' /\
    (forall key0 p, w_comms w !! key0 = Some p -> w_comms w' !! key0 = Some p).
Proof.
  intros Hs Hwf.
  assert (Hsame : exists w', Some w = Some w' /\ cache_sound w' /\
            cache_wf pg_ccl w' /\ w_bundles w `prefix_of` w_bundles w' /\
            (forall key0 p, w_comms w !! key0 = Some p -> w_comms w' !! key0 = Some p)).
  { exists w. repeat split; try done; apply Hs. }
  destruct (decide (key = "")) as [->|Hk].
  { by rewrite get_ccl_comms_key_empty. }
  destruct (decide (length devices = 1%nat)) as [Hd|Hd].
  2:{ by rewrite get_ccl_comms_not_one. }
  destruct (w_comms w !! key) as [b|] eqn:Hlook.
  { by rewrite (get_ccl_comms_hit _ _ _ _ _ b). }
  destruct devices as [|d [|? ?]]; try done.
  rewrite get_ccl_comms_miss by done. cbv zeta.
  destruct Hs as [Hlive Hinj].
  destruct (ccl_status lib _); simpl; eexists; (split; [reflexivity|]).
  - split; [by split|]. split; [exact Hwf|]. split; [done|]. done.
  - split; [split|split; [|split]]; simpl.
    + intros key0 p. rewrite lookup_insert. case_decide.
      * intros [= <-]. rewrite length_app. simpl. lia.
      * intros Hp. specialize (Hlive _ _ Hp). rewrite length_app. lia.
    + intros key1 key2 p. rewrite !lookup_insert.
      repeat case_decide; subst; try done.
      * intros [= <-] Hp. specialize (Hlive _ _ Hp). lia.
      * intros Hp [= <-]. specialize (Hlive _ _ Hp). lia.
      * apply Hinj.
    + unfold cache_wf. simpl. intros key0 p. rewrite lookup_insert. case_decide.
      * intros [= <-]. exists d. by rewrite lookup_app_r, Nat.sub_diag.
      * intros Hp. destruct (Hwf _ _ Hp) as (d' & Hd').
        exists d'. rewrite lookup_app_l; [done|]. by eapply Hlive.
    + by apply prefix_app_r.
    + intros key0 p Hp. rewrite lookup_insert_ne; [done|]. congruence.
Qed.

End CacheInvariants.

(** X1: a construction that the library rejects caches nothing: the request
    raises the library's error, the cache and the bundles are as before
    (only the rendezvous and the rejected call have happened), so a later
    request for the key is a miss again and builds the bundle. *)
Theorem get_ccl_comms_failed_construction_not_cached (lib lib' : CCL)
    (pg_ccl : ProcessGroupCCL) (key : string) (d : Device) (w : world) (e : exn) :
  key <> "" -> w_comms w !! key = None ->
  ccl_status lib (construction_call pg_ccl d) = Some e ->
  exists w',
    get_ccl_comms lib pg_ccl key [d] w = Exc e w' /\
    w_comms w' = w_comms w /\ w_bundles w' = w_bundles w /\
    w_issued w' = w_issued w ++ [construction_call pg_ccl d] /\
    (ccl_status lib' (construction_call pg_ccl d) = None ->
     exists w'',
       get_ccl_comms lib' pg_ccl key [d] w' = Ret (length (w_bundles w)) w'' /\
       w_comms w'' !! key = Some (length (w_bundles w)) /\
       w_bundles w'' !! length (w_bundles w) = Some (constructed_bundle pg_ccl d)).
Proof.
  intros Hk Hmiss Hfail.
  rewrite get_ccl_comms_miss by done. cbv zeta. rewrite Hfail.
  eexists. split; [reflexivity|]. simpl. repeat split.
  intros Hok. rewrite get_ccl_comms_miss by done. cbv zeta. rewrite Hok. simpl.
  eexists. split; [reflexivity|]. simpl. split.
  - apply lookup_insert_eq.
  - by rewrite lookup_app_r, Nat.sub_diag.
Qed.

Lemma get_ccl_comms_failed_construction_not_cached_witness :
  let lib_down := mkCCL (fun _ => Some (ccl_exception "oneCCL: rendezvous failed"))
                        (fun _ => 0%nat) (fun sent _ _ => sent) in
  exists w',
    get_ccl_comms lib_down Sample.pg "0" [Sample.xpu 0] Sample.w0
      = Exc (ccl_exception "oneCCL: rendezvous failed") w' /\
    w_comms w' = w_comms Sample.w0 /\ w_bundles w' = w_bundles Sample.w0 /\
    w_issued w' = w_issued Sample.w0 ++ [construction_call Sample.pg (Sample.xpu 0)] /\
    (ccl_status Sample.lib (construction_call Sample.pg (Sample.xpu 0)) = None ->
     exists w'',
       get_ccl_comms Sample.lib Sample.pg "0" [Sample.xpu 0] w'
         = Ret (length (w_bundles Sample.w0)) w'' /\
       w_comms w'' !! "0" = Some (length (w_bundles Sample.w0)) /\
       w_bundles w'' !! length (w_bundles Sample.w0)
         = Some (constructed_bundle Sample.pg (Sample.xpu 0))).
Proof.
  intros lib_down.
  exact (get_ccl_comms_failed_construction_not_cached lib_down Sample.lib
           Sample.pg "0" (Sample.xpu 0) Sample.w0
           (ccl_exception "oneCCL: rendezvous failed")
           ltac:(discriminate) eq_refl eq_refl).
Defined.

(** X2: over any sequence of requests on a process group the cache stays
    sound: no two keys share a bundle, every cached address holds a bundle
    of one communicator and one stream built for this group (its size and
    rank are the group's), bundles already built are neither changed nor
    dropped, and keys already cached keep their bundle. *)
Theorem communicator_cache_invariants (lib : CCL) (pg_ccl : ProcessGroupCCL)
    (reqs : list (string * list Device)) (w : world) :
  cache_sound w -> cache_wf pg_ccl w ->
  0 <= getSize pg_ccl < 2 ^ 31 -> 0 <= getRank pg_ccl < 2 ^ 31 ->
  exists w',
    after_gets lib pg_ccl reqs w = Some w' /\
    cache_sound w' /\
    (forall key p, w_comms w' !! key = Some p ->
       exists q, w_bundles w' !! p
                 = Some (mkComms [mkCommunicator (getSize pg_ccl) (getRank pg_ccl) q]
                                 [mkStream q])) /\
    w_bundles w `prefix_of` w_bundles w' /\
    (forall key p, w_comms w !! key = Some p -> w_comms w' !! key = Some p).
Proof.
  intros Hs Hwf Hsize Hrank.
  assert (Hgen : exists w',
    after_gets lib pg_ccl reqs w = Some w' /\ cache_sound w' /\
    cache_wf pg_ccl w' /\ w_bundles w `prefix_of` w_bundles w' /\
    (forall key p, w_comms w !! key = Some p -> w_comms w' !! key = Some p)).
  { revert w Hs Hwf. induction reqs as [|[key devices] reqs IH]; intros w Hs Hwf.
    { exists w. by repeat split; try apply Hs. }
    simpl.
    destruct (get_ccl_comms_step lib pg_ccl key devices w Hs Hwf)
      as (w1 & -> & Hs1 & Hwf1 & Hpre1 & Hkeep1).
    destruct (IH w1 Hs1 Hwf1) as (w' & Hrun & Hs' & Hwf' & Hpre' & Hkeep').
    exists w'. split; [done|]. split; [done|]. split; [done|].
    split; [by etransitivity|]. intros key0 p Hp. by apply Hkeep', Hkeep1. }
  destruct Hgen as (w' & Hrun & Hs' & Hwf' & Hpre & Hkeep).
  exists w'. split; [done|]. split; [done|]. split; [|done].
  intros key p Hp. destruct (Hwf' key p Hp) as (d & Hd).
  exists (dev_index d). rewrite Hd. unfold constructed_bundle, constructed_comm.
  rewrite !to_int_to_size_t, !Z.mul_1_r, !to_int_to_size_t.
  by rewrite !to_int_id by lia.
Qed.

Lemma cache_sound_empty (w : world) : w_comms w = ∅ -> cache_sound w.
Proof.
  intros H. split.
  - intros key p. rewrite H, lookup_empty. discriminate.
  - intros key1 key2 p. rewrite H, lookup_empty. discriminate.
Qed.

Lemma communicator_cache_invariants_witness :
  exists w',
    after_gets Sample.lib Sample.pg
      [("0", [Sample.xpu 0]); ("1", [Sample.xpu 1]); ("0", [Sample.xpu 0])]
      Sample.w0 = Some w' /\
    cache_sound w' /\
    (forall key p, w_comms w' !! key = Some p ->
       exists q, w_bundles w' !! p
                 = Some (mkComms [mkCommunicator (getSize Sample.pg)
                                                 (getRank Sample.pg) q]
                                 [mkStream q])) /\
    w_bundles Sample.w0 `prefix_of` w_bundles w' /\
    (forall key p, w_comms Sample.w0 !! key = Some p -> w_comms w' !! key = Some p).
Proof.
  exact (communicator_cache_invariants Sample.lib Sample.pg _ Sample.w0
           (cache_sound_empty Sample.w0 eq_refl)
           (cache_wf_empty Sample.pg Sample.w0 eq_refl)
           ltac:(simpl; lia) ltac:(simpl; lia)).
Defined.

(** ** Entry points: lists of several tensors *)

Lemma get_key_from_devs_several d1 d2 devices :
  get_key_from_devs (d1 :: d2 :: devices) <> "".
Proof.
  change (get_key_from_devs (d1 :: d2 :: devices))
    with (pretty (dev_index d1) +:+ "," +:+ get_key_from_devs (d2 :: devices)).
  by destruct (pretty (dev_index d1)).
Qed.

Lemma several_tensors_unresolved (lib : CCL) (pg_ccl : ProcessGroupCCL)
    (tensors : list Tensor) (w : world) :
  (1 < length tensors)%nat ->
  get_ccl_comms lib pg_ccl (get_key_from_devs (device <$> tensors))
                (device <$> tensors) w
  = Exc (runtime_error "Torch CCL only support one device per process now") w.
Proof.
  intros Hlen. destruct tensors as [|t1 [|t2 tensors]]; simpl in Hlen; try lia.
  apply get_ccl_comms_not_one.
  - apply get_key_from_devs_several.
  - simpl. lia.
Qed.

(** X3: all-reduce, reduce-to-root and broadcast accept one tensor per call:
    on a list of two or more tensors each of them raises "only support one
    device per process" to the caller at call time, with nothing requested
    from the store, nothing issued to the library and no work created. *)
Theorem several_tensors_rejected (lib : CCL)
    (cclDatatypes : ScalarType -> option Z) (cclOps : ReduceOp -> option Z)
    (pg_ccl : ProcessGroupCCL) (tensors : list Tensor) (w : world) :
  (1 < length tensors)%nat ->
  let e := runtime_error "Torch CCL only support one device per process now" in
  (forall opts, allreduce_ lib cclDatatypes cclOps tensors opts pg_ccl w = Exc e w) /\
  (forall opts, reduce_ lib cclDatatypes cclOps tensors opts pg_ccl w = Exc e w) /\
  (forall opts, broadcast_ lib cclDatatypes tensors opts pg_ccl w = Exc e w).
Proof.
  intros Hlen e.
  assert (Hchk : checkGPUTensor tensors w = Ret tt w).
  { destruct tensors; [simpl in Hlen; lia | reflexivity]. }
  pose proof (several_tensors_unresolved lib pg_ccl tensors w Hlen) as Hget.
  repeat split; intros opts.
  - unfold allreduce_. rewrite (bind_Ret _ _ _ _ _ Hchk).
    by apply (dispatch_unresolved lib pg_ccl get_device_list _ tensors tensors
                _ w (device <$> tensors)).
  - unfold reduce_. rewrite (bind_Ret _ _ _ _ _ Hchk).
    by apply (dispatch_unresolved lib pg_ccl get_device_list _ tensors tensors
                _ w (device <$> tensors)).
  - unfold broadcast_. rewrite (bind_Ret _ _ _ _ _ Hchk).
    by apply (dispatch_unresolved lib pg_ccl get_device_list _ tensors tensors
                _ w (device <$> tensors)).
Qed.

Lemma several_tensors_rejected_witness :
  let tensors := [Sample.tensor [3] 0 0;
                  mkTensor false Float [3] true (Sample.xpu 1) 2 0] in
  let e := runtime_error "Torch CCL only support one device per process now" in
  (forall opts, allreduce_ Sample.lib Sample.cclDatatypes Sample.cclOps tensors opts
                  Sample.pg Sample.w0 = Exc e Sample.w0) /\
  (forall opts, reduce_ Sample.lib Sample.cclDatatypes Sample.cclOps tensors opts
                  Sample.pg Sample.w0 = Exc e Sample.w0) /\
  (forall opts, broadcast_ Sample.lib Sample.cclDatatypes tensors opts
                  Sample.pg Sample.w0 = Exc e Sample.w0).
Proof.
  intros tensors.
  exact (several_tensors_rejected Sample.lib Sample.cclDatatypes Sample.cclOps
           Sample.pg tensors Sample.w0 ltac:(simpl; lia)).
Defined.

(** ** All-reduce *)

(** X4: all-reduce on one tensor, once the communicator is resolved.  With a
    scalar type or a reduction operator that the library tables do not
    know, the table lookup's [out_of_range] ends up in the returned work and
    nothing is issued; otherwise exactly one [ccl::allreduce] is issued, in
    place, over all the tensor's elements with the tables' codes, and the
    work carries its event, or the library's error if it rejected the
    call. *)
Theorem allreduce_single_tensor (lib : CCL)
    (cclDatatypes : ScalarType -> option Z) (cclOps : ReduceOp -> option Z)
    (pg_ccl : ProcessGroupCCL) (t : Tensor) (opts : AllreduceOptions)
    (w : world) (p : nat) (w1 : world) :
  cache_wf pg_ccl w ->
  get_ccl_comms lib pg_ccl (get_key_from_devs [device t]) [device t] w = Ret p w1 ->
  (cclDatatypes (scalar_type t) = None \/ cclOps (ar_reduceOp opts) = None ->
   exists work,
     allreduce_ lib cclDatatypes cclOps [t] opts pg_ccl w = Ret work w1 /\
     work_state work = Failed (out_of_range "map::at") /\ rets work = []) /\
  (forall d o,
     cclDatatypes (scalar_type t) = Some d -> cclOps (ar_reduceOp opts) = Some o ->
     let call := ccl_allreduce (to_size_t (numel t)) d o in
     exists work,
       allreduce_ lib cclDatatypes cclOps [t] opts pg_ccl w
         = Ret work (issued call w1) /\
       match ccl_status lib call with
       | Some e => work_state work = Failed e /\ rets work = []
       | None => work_state work = Completed /\
                 rets work = [mkEvent call (ccl_latency lib call)]
       end).
Proof.
  intros Hwf Hget.
  assert (Hchk : checkGPUTensor [t] w = Ret tt w) by reflexivity.
  destruct (dispatch_single lib pg_ccl get_device_list
              (allreduce_fn lib cclDatatypes cclOps opts)
              t t "xpu::allreduce" w [device t] p w1 Hwf eq_refl Hget)
    as (dv & run & Hrun).
  split.
  - intros Hmiss. unfold allreduce_. rewrite (bind_Ret _ _ _ _ _ Hchk), Hrun.
    assert (Hfn : allreduce_fn lib cclDatatypes cclOps opts t t
                    (constructed_comm pg_ccl dv) (mkStream (dev_index dv)) w1
                  = Exc (out_of_range "map::at") w1).
    { unfold allreduce_fn, map_at, bind.
      destruct (cclDatatypes (scalar_type t)); [|done].
      destruct Hmiss as [?|Ho]; [done|]. unfold ret. by rewrite Ho. }
    rewrite Hfn. by eexists.
  - intros d o Hd Ho call. unfold allreduce_.
    rewrite (bind_Ret _ _ _ _ _ Hchk), Hrun.
    assert (Hfn : allreduce_fn lib cclDatatypes cclOps opts t t
                    (constructed_comm pg_ccl dv) (mkStream (dev_index dv)) w1
                  = ccl_issue lib call w1).
    { unfold allreduce_fn, map_at, bind. by rewrite Hd, Ho. }
    rewrite Hfn. unfold ccl_issue. fold (issued call w1).
    destruct (ccl_status lib call); by eexists.
Qed.

Lemma allreduce_single_tensor_witness :
  let t := Sample.tensor [3] 0 0 in
  let call := ccl_allreduce (to_size_t (numel t)) 9 0 in
  exists work,
    allreduce_ Sample.lib Sample.cclDatatypes Sample.cclOps [t]
      (mkAllreduceOptions SUM) Sample.pg Sample.w0
      = Ret work (issued call Sample.w1) /\
    match ccl_status Sample.lib call with
    | Some e => work_state work = Failed e /\ rets work = []
    | None => work_state work = Completed /\
              rets work = [mkEvent call (ccl_latency Sample.lib call)]
    end.
Proof.
  intros t.
  exact (proj2 (allreduce_single_tensor Sample.lib Sample.cclDatatypes Sample.cclOps
                  Sample.pg t (mkAllreduceOptions SUM) Sample.w0 0%nat Sample.w1
                  (cache_wf_empty Sample.pg Sample.w0 eq_refl) sample_resolved)
           9 0 eq_refl eq_refl).
Defined.

(** ** Gather-to-root *)

(** X5: gather validates the shape of the output list at call time, before
    the communicator is looked up or a work created.  Off the root any
    output list must be empty; on the root there must be exactly one output
    list, with one tensor per participant.  Each violation raises its own
    error with the world untouched. *)
Theorem gather_checks_output_lists (lib : CCL)
    (cclDatatypes : ScalarType -> option Z)
    (dispatch_unsupported : ScalarType -> string -> option exn)
    (checkSingleTensor_fails : list Tensor -> option exn)
    (convert_element : ScalarType -> ScalarType -> Z -> Z)
    (outputTensors : list (list Tensor)) (inputTensors : list Tensor)
    (opts : GatherOptions) (pg : ProcessGroupCCL) (w : world) :
  checkSingleTensor_fails inputTensors = None ->
  let run := gather_ lib cclDatatypes dispatch_unsupported checkSingleTensor_fails
                     convert_element outputTensors inputTensors opts pg w in
  (getRank pg <> g_rootRank opts -> outputTensors <> [] ->
   run = Exc (c10_Error "gather: number of output tensors should be 0 for non-root") w) /\
  (getRank pg = g_rootRank opts -> length outputTensors <> 1%nat ->
   run = Exc (c10_Error "gather: multi-GPU collective is not supported") w) /\
  (getRank pg = g_rootRank opts ->
   forall outputs, outputTensors = [outputs] ->
     Z.of_nat (length outputs) <> to_size_t (getSize pg) ->
     run = Exc (c10_Error
       "gather: number of output tensors should equal to the world size") w).
Proof.
  intros Hok run.
  unfold run, gather_, checkSingleTensor, TORCH_CHECK, bind, ret, throw.
  rewrite Hok. repeat split.
  - intros Hrank Hne. rewrite (bool_decide_eq_false_2 _ Hrank).
    change (negb false) with true. cbv beta iota.
    rewrite bool_decide_eq_false_2; [done|]. by destruct outputTensors.
  - intros Hrank Hlen. rewrite (bool_decide_eq_true_2 _ Hrank).
    change (negb true) with false. cbv beta iota.
    by rewrite (bool_decide_eq_false_2 _ Hlen).
  - intros Hrank outputs -> Hlen. rewrite (bool_decide_eq_true_2 _ Hrank).
    simpl negb. cbn [length]. rewrite (bool_decide_eq_true_2 (1%nat = 1%nat)) by done.
    change (negb true) with false. cbv beta iota.
    change (vector_at [outputs] 0 w) with (vector_at [outputs] (Z.of_nat 0) w).
    rewrite (vector_at_lookup [outputs] 0 outputs w eq_refl).
    rewrite bool_decide_eq_false_2; [done|]. congruence.
Qed.

Lemma gather_checks_output_lists_witness :
  let run := gather_ Sample.lib Sample.cclDatatypes Sample.dispatch_all
                     (fun _ => None) Sample.convert_element [[Sample.tensor [3] 2 0]]
                     [Sample.tensor [3] 0 0] (mkGatherOptions 0) Sample.pg Sample.w0 in
  run = Exc (c10_Error
    "gather: number of output tensors should equal to the world size") Sample.w0.
Proof.
  intros run.
  exact (proj2 (proj2 (gather_checks_output_lists Sample.lib Sample.cclDatatypes
                         Sample.dispatch_all (fun _ => None) Sample.convert_element
                         [[Sample.tensor [3] 2 0]] [Sample.tensor [3] 0 0]
                         (mkGatherOptions 0) Sample.pg Sample.w0 eq_refl))
           eq_refl _ eq_refl ltac:(by vm_compute)).
Defined.

(** ** The gather function *)

Lemma sum_integers_zeros n : sum_integers (replicate n 0) = 0.
Proof. induction n as [|n IH]; simpl; [done | by rewrite IH]. Qed.

Lemma sum_integers_one_slot n : forall i x,
  (i < n)%nat -> sum_integers (<[i := x]> (replicate n 0)) = x.
Proof.
  induction n as [|n IH]; intros i x Hi; [lia|].
  destruct i as [|i]; simpl.
  - rewrite sum_integers_zeros. lia.
  - rewrite IH by lia. lia.
Qed.

Lemma vector_set_index {A} (v : list A) (i : Z) (x : A) w :
  0 <= i -> (Z.to_nat i < length v)%nat ->
  vector_set v i x w = Ret (<[Z.to_nat i := x]> v) w.
Proof.
  intros H0 Hlt. rewrite <- (Z2Nat.id i) at 1 by done.
  by apply vector_set_in_range.
Qed.

Lemma vector_at_index {A} (v : list A) (i : Z) (a : A) w :
  0 <= i -> v !! Z.to_nat i = Some a -> vector_at v i w = Ret a w.
Proof.
  intros H0 Hv. rewrite <- (Z2Nat.id i) by done. by apply vector_at_lookup.
Qed.

(** X6: on a rank that is not the root, the gather function sends its whole
    input to the root and nothing to anyone else, and asks to receive
    nothing: the send counts are zero but for the input's element count in
    the root's slot, the receive counts are all zero.  The receive buffer is
    a fresh one-element tensor, to which the device owes no element; the
    output list is not looked at, the storages that existed before the call
    are left as they were and the caller is not blocked. *)
Theorem gather_non_root_sends_to_root_only (lib : CCL)
    (cclDatatypes : ScalarType -> option Z)
    (dispatch_unsupported : ScalarType -> string -> option exn)
    (convert_element : ScalarType -> ScalarType -> Z -> Z)
    (grp_size rank : Z) (opts : GatherOptions) (input : Tensor)
    (outputs : list Tensor) (comm : communicator) (strm : stream)
    (w : world) (sent : list Z) (d : Z) :
  let root := g_rootRank opts in
  let sendCounts := <[Z.to_nat root := numel input]> (replicate (Z.to_nat grp_size) 0) in
  let recvCounts := replicate (Z.to_nat grp_size) 0 in
  let call := ccl_alltoallv sendCounts recvCounts d in
  rank <> root -> 0 <= root < grp_size ->
  numel_in_range input ->
  contents (w_heap w) input = Some sent ->
  dispatch_unsupported (scalar_type input) "gather" = None ->
  cclDatatypes (scalar_type input) = Some d ->
  ccl_status lib call = None ->
  gather_fn lib cclDatatypes dispatch_unsupported convert_element grp_size rank opts
    input outputs comm strm w
  = Ret (mkEvent call (ccl_latency lib call))
        (owing (mkInflight call (length (w_heap w)) 0 [])
               (set_heap (w_heap w ++ [[0]]) (issued call w))) /\
  sum_integers sendCounts = numel input /\ sum_integers recvCounts = 0.
Proof.
  intros root sendCounts recvCounts call Hrank Hroot Hrange Hsent Hdisp Hd Hok.
  assert (Hsum : sum_integers sendCounts = numel input).
  { apply sum_integers_one_slot. lia. }
  assert (Hzero : sum_integers recvCounts = 0) by apply sum_integers_zeros.
  split; [|done].
  unfold gather_fn. fold root.
  rewrite (bool_decide_eq_false_2 _ Hrank).
  assert (Hset : vector_set (replicate (Z.to_nat grp_size) 0) root
                   (to_size_t (numel input)) w
                 = Ret (<[Z.to_nat root := to_size_t (numel input)]>
                          (replicate (Z.to_nat grp_size) 0)) w).
  { apply vector_set_index; [lia|]. rewrite length_replicate. lia. }
  rewrite (bind_Ret _ _ _ _ _ Hset).
  rewrite to_size_t_id by (unfold numel_in_range in Hrange; lia).
  fold sendCounts recvCounts.
  set (flatOutput := mkTensor false (scalar_type input) [1] true (device input)
                              (length (w_heap w)) 0).
  set (w1 := set_heap (w_heap w ++ [replicate (Z.to_nat 1) 0]) w).
  assert (Hbranch :
    (let! flatOutput := at_empty 1 input in ret (false, recvCounts, flatOutput)) w
    = Ret (false, recvCounts, flatOutput) w1) by reflexivity.
  rewrite (bind_Ret _ _ _ _ _ Hbranch).
  unfold CCL_DISPATCH_INTEGRAL_FLOATS_TYPES. rewrite Hdisp. cbv zeta.
  assert (Hexch :
    ccl_alltoallv_on lib input sendCounts flatOutput recvCounts d w1
    = Ret (mkEvent call (ccl_latency lib call))
          (owing (mkInflight call (length (w_heap w)) 0 [])
                 (set_heap (w_heap w ++ [[0]]) (issued call w)))).
  { rewrite (ccl_alltoallv_on_spec lib input sendCounts flatOutput recvCounts d w1
               sent [0]); try done.
    - fold call. rewrite Hzero. change (Z.to_nat 0) with 0%nat.
      by rewrite resize_0.
    - rewrite Hsum. simpl. unfold contents in Hsent. rewrite <- Hsent.
      apply region_ext. apply lookup_app_l.
      apply region_Some in Hsent as (st & Hst & _). by eapply lookup_lt_Some.
    - simpl. by rewrite lookup_app_r, Nat.sub_diag by lia.
    - rewrite Hzero. simpl. lia. }
  assert (Hbody :
    (let! send_buf := data_ptr (scalar_type input) input in
     let! recv_buf := data_ptr (scalar_type input) flatOutput in
     let! dtype := map_at cclDatatypes (scalar_type flatOutput) in
     ccl_alltoallv_on lib send_buf sendCounts recv_buf recvCounts dtype) w1
    = Ret (mkEvent call (ccl_latency lib call))
          (owing (mkInflight call (length (w_heap w)) 0 [])
                 (set_heap (w_heap w ++ [[0]]) (issued call w)))).
  { rewrite (bind_Ret _ _ _ _ _ (data_ptr_same input w1)).
    rewrite (bind_Ret _ _ _ _ _
               (data_ptr_typed (scalar_type input) flatOutput w1 eq_refl)).
    unfold map_at. cbn [scalar_type flatOutput]. rewrite Hd.
    unfold bind at 1. unfold ret at 1. exact Hexch. }
  rewrite (bind_Ret _ _ _ _ _ Hbody). reflexivity.
Qed.

Lemma gather_non_root_sends_to_root_only_witness :
  gather_fn Sample.lib Sample.cclDatatypes Sample.dispatch_all
      Sample.convert_element 2 1 (mkGatherOptions 0)
    (Sample.tensor [3] 0 0) [] (constructed_comm Sample.pg (Sample.xpu 0))
    (mkStream 0) Sample.w0
  = Ret (mkEvent (ccl_alltoallv [3; 0] [0; 0] 9) 5)
        (owing (mkInflight (ccl_alltoallv [3; 0] [0; 0] 9) 6 0 [])
               (set_heap (w_heap Sample.w0 ++ [[0]])
                         (issued (ccl_alltoallv [3; 0] [0; 0] 9) Sample.w0))).
Proof.
  exact (proj1 (gather_non_root_sends_to_root_only Sample.lib Sample.cclDatatypes
                  Sample.dispatch_all Sample.convert_element 2 1 (mkGatherOptions 0)
                  (Sample.tensor [3] 0 0) []
                  (constructed_comm Sample.pg (Sample.xpu 0)) (mkStream 0)
                  Sample.w0 [1; 2; 3] 9
                  ltac:(done) ltac:(simpl; lia) ltac:(split; by vm_compute)
                  eq_refl eq_refl eq_refl eq_refl)).
Defined.

(** The root's gather function on an input whose element count differs from
    that of the output in the root's own slot. *)
Lemma gather_fn_root_mismatch (lib : CCL)
    (cclDatatypes : ScalarType -> option Z)
    (dispatch_unsupported : ScalarType -> string -> option exn)
    (convert_element : ScalarType -> ScalarType -> Z -> Z)
    (grp_size rank : Z) (opts : GatherOptions) (input : Tensor)
    (outputs : list Tensor) (own : Tensor) (comm : communicator) (strm : stream)
    (w : world) :
  rank = g_rootRank opts -> 0 <= rank < grp_size ->
  (Z.to_nat grp_size <= length outputs)%nat ->
  outputs !! Z.to_nat rank = Some own ->
  numel_in_range input -> numel_in_range own ->
  numel input <> numel own ->
  exists w',
    gather_fn lib cclDatatypes dispatch_unsupported convert_element grp_size rank opts
      input outputs comm strm w
    = Exc (c10_Error "gather: send and recv count doesn't match") w' /\
    w_issued w' = w_issued w /\ w_clock w' = w_clock w /\
    take (length (w_heap w)) (w_heap w') = w_heap w.
Proof.
  intros Hrank Hroot Hn Hown Hin Hon Hne.
  assert (Houts : outputs <> []) by (by intros ->).
  unfold gather_fn. rewrite <- Hrank.
  rewrite (bool_decide_eq_true_2 (rank = rank) eq_refl).
  assert (Hset : vector_set (replicate (Z.to_nat grp_size) 0) rank
                   (to_size_t (numel input)) w
                 = Ret (<[Z.to_nat rank := to_size_t (numel input)]>
                          (replicate (Z.to_nat grp_size) 0)) w).
  { apply vector_set_index; [lia|]. rewrite length_replicate. lia. }
  rewrite (bind_Ret _ _ _ _ _ Hset).
  destruct (computeLengthsAndCheckAndGetFlat_spec outputs (Z.to_nat grp_size) w
              Houts Hn) as (b & flat & w' & Hscan & Hflat & Hnot).
  assert (Hw' : w_issued w' = w_issued w /\ w_clock w' = w_clock w /\
                take (length (w_heap w)) (w_heap w') = w_heap w).
  { destruct b.
    - destruct (Hflat eq_refl) as [-> _]. by rewrite firstn_all.
    - destruct (Hnot eq_refl) as (first & _ & _ & ->). simpl.
      by rewrite take_app_length. }
  exists w'. split; [|done].
  erewrite bind_Exc; [reflexivity|].
  rewrite (bind_Ret _ _ _ _ _ Hscan). cbv beta iota.
  erewrite bind_Ret; cycle 1.
  { apply vector_at_index; [lia|].
    apply list_lookup_insert_eq. rewrite length_replicate. lia. }
  erewrite bind_Ret; cycle 1.
  { apply vector_at_index; [lia|].
    rewrite list_lookup_fmap, lookup_take_lt by lia. by rewrite Hown. }
  rewrite bool_decide_eq_false_2; [done|].
  intros Heq. by apply Hne, to_size_t_inj_in_range.
Qed.


(** The root's gather function on outputs of the input's scalar type that
    are not one flat buffer already: the exchange, the wait and the copies
    into the outputs. *)
Lemma gather_fn_root_collects (lib : CCL)
    (cclDatatypes : ScalarType -> option Z)
    (dispatch_unsupported : ScalarType -> string -> option exn)
    (convert_element : ScalarType -> ScalarType -> Z -> Z)
    (grp_size rank : Z) (opts : GatherOptions) (input : Tensor)
    (outputs : list Tensor) (own : Tensor) (comm : communicator) (strm : stream)
    (w : world) (sent : list Z) (rc : list Z) (flatOutput : Tensor) (fr : Z)
    (w1 : world) (d : Z) :
  let n := Z.to_nat grp_size in
  let sendCounts := <[Z.to_nat rank := numel input]> (replicate n 0) in
  rank = g_rootRank opts -> 0 <= rank < grp_size ->
  (n <= length outputs)%nat ->
  outputs !! Z.to_nat rank = Some own -> numel input = numel own ->
  numel_in_range input -> contents (w_heap w) input = Some sent ->
  Forall (dense_in (w_heap w)) (take n outputs) ->
  Forall (fun t => scalar_type t = scalar_type input) outputs ->
  pairwise_disjoint n outputs ->
  computeLengthsAndCheckAndGetFlat outputs (replicate n 0) w
    = Ret (false, rc, flatOutput, fr) w1 ->
  dispatch_unsupported (scalar_type input) "gather" = None ->
  cclDatatypes (scalar_type flatOutput) = Some d ->
  ccl_status lib (ccl_alltoallv sendCounts rc d) = None ->
  Forall (fun p => if_call p <> ccl_alltoallv sendCounts rc d) (w_inflight w) ->
  rc = numel <$> take n outputs /\
  sum_integers sendCounts = numel input /\
  exists evt w5,
    gather_fn lib cclDatatypes dispatch_unsupported convert_element grp_size rank opts
      input outputs comm strm w = Ret evt w5 /\
    ev_call evt = ccl_alltoallv sendCounts rc d /\
    w_issued w5 = w_issued w ++ [ccl_alltoallv sendCounts rc d] /\
    w_inflight w5 = w_inflight w /\
    w_clock w5 = (w_clock w + ev_latency evt)%nat /\
    (forall i t, (i < n)%nat -> outputs !! i = Some t ->
       contents (w_heap w5) t
       = Some (segment rc i (resize (Z.to_nat (sum_integers rc)) 0
                                    (ccl_exchange lib sent sendCounts rc)))) /\
    (forall t', (storage t' < length (w_heap w))%nat ->
       (forall i t, (i < n)%nat -> outputs !! i = Some t -> disjoint_views t' t) ->
       contents (w_heap w5) t' = contents (w_heap w) t').
Proof.
  intros n sendCounts Hrank Hroot Hn Hown Heq Hin Hsent Hdense Hty Hdisj Hso
         Hdisp Hd Hok Hold.
  assert (Houts : outputs <> []) by (by intros ->).
  pose proof (outputs_in_range grp_size outputs w Hdense) as Hrange.
  fold n in Hrange.
  destruct (computeLengthsAndCheckAndGetFlat_spec outputs n w Houts Hn)
    as (b & flat & w' & Hc & _ & Hnf).
  rewrite Hso in Hc. inversion Hc; subst b flat w' fr. clear Hc.
  destruct (Hnf eq_refl) as (fo & Hfo & HG & Hw1). clear Hnf.
  rewrite (size_t_counts_id _ Hrange) in *. subst rc.
  set (rc := numel <$> take n outputs) in *.
  set (tout := sum_integers rc) in *.
  set (h := w_heap w) in *.
  set (zo := replicate (Z.to_nat tout) 0) in *.
  set (sG := length h) in *.
  assert (Hh1 : w_heap w1 = h ++ [zo]) by (by rewrite Hw1).
  assert (Hfl1 : w_inflight w1 = w_inflight w) by (by rewrite Hw1).
  assert (HsG : storage flatOutput = sG) by (by rewrite HG).
  assert (HoG : storage_offset flatOutput = 0%nat) by (by rewrite HG).
  assert (HnG : sizes flatOutput = [tout]) by (by rewrite HG).
  assert (HtG : scalar_type flatOutput = scalar_type input).
  { rewrite HG. simpl. rewrite Forall_forall in Hty. by apply Hty. }
  assert (HtyG : Forall (fun t => scalar_type t = scalar_type flatOutput)
                        (take n outputs)).
  { rewrite HtG. by apply Forall_take. }
  assert (Hsum : sum_integers sendCounts = numel input).
  { apply sum_integers_one_slot. lia. }
  split; [done|]. split; [done|].
  (* the exchange *)
  set (call := ccl_alltoallv sendCounts rc d) in *.
  set (delivered := resize (Z.to_nat tout) 0 (ccl_exchange lib sent sendCounts rc)).
  set (evt := mkEvent call (ccl_latency lib call)).
  set (w4 := owing (mkInflight call sG 0 delivered) (issued call w1)).
  assert (Hexch : ccl_alltoallv_on lib input sendCounts flatOutput rc d w1
                  = Ret evt w4).
  { etransitivity;
      [apply (ccl_alltoallv_on_spec lib _ _ _ _ d w1 sent zo)|];
      rewrite ?HsG, ?HoG, ?Hh1; try done.
    - rewrite Hsum. unfold contents in Hsent. rewrite <- Hsent.
      apply region_ext. apply lookup_app_l.
      apply region_Some in Hsent as (st & Hst & _). by eapply lookup_lt_Some.
    - unfold sG. by rewrite lookup_app_r, Nat.sub_diag by lia.
    - unfold zo. rewrite length_replicate. fold tout. lia. }
  assert (Hold1 : forall s, (s < length h)%nat -> (h ++ [zo]) !! s = h !! s).
  { intros s Hs. by apply lookup_app_l. }
  assert (Hlend : length delivered = Z.to_nat tout)
    by (unfold delivered; by rewrite length_resize).
  (* the unflatten step *)
  destruct (unflatten_outputs_spec convert_element flatOutput outputs grp_size
              delivered evt w4 zo (w_inflight w))
    as (h5 & Hunflat & Hout & Hframe); rewrite ?HsG, ?HoG; try done.
  { simpl. by rewrite Hfl1. }
  { simpl. rewrite Hh1. unfold sG. by rewrite lookup_app_r, Nat.sub_diag by lia. }
  { unfold zo. rewrite length_replicate. lia. }
  { simpl. rewrite Hh1.
    apply (outputs_are_destinations grp_size outputs outputs w Hn Hn Hdense);
      [unfold sG, h; lia | done]. }
  fold n in Hunflat, Hout, Hframe.
  rewrite (size_t_counts_id _ Hrange) in Hunflat. fold rc in Hunflat, Hout.
  exists evt,
    (set_heap h5 (still_owing (w_inflight w) (blocked_for (ccl_latency lib call) w4))).
  split; [|split; [done|split; [|split; [done|split; [|split]]]]].
  - unfold gather_fn. rewrite <- Hrank.
    rewrite (bool_decide_eq_true_2 (rank = rank) eq_refl).
    assert (Hset : vector_set (replicate n 0) rank (to_size_t (numel input)) w
                   = Ret sendCounts w).
    { rewrite to_size_t_id by (unfold numel_in_range in Hin; lia).
      apply vector_set_index; [lia|]. rewrite length_replicate. lia. }
    fold n. rewrite (bind_Ret _ _ _ _ _ Hset).
    erewrite bind_Ret; cycle 1.
    { rewrite (bind_Ret _ _ _ _ _ Hso). cbv beta iota.
      erewrite bind_Ret; cycle 1.
      { apply vector_at_index; [lia|].
        apply list_lookup_insert_eq. rewrite length_replicate. lia. }
      erewrite bind_Ret; cycle 1.
      { apply vector_at_index; [lia|].
        unfold rc. rewrite list_lookup_fmap, lookup_take_lt by lia.
        by rewrite Hown. }
      rewrite (bool_decide_eq_true_2 _ Heq).
      reflexivity. }
    cbv beta iota.
    unfold CCL_DISPATCH_INTEGRAL_FLOATS_TYPES. rewrite Hdisp. cbv zeta.
    assert (Hbody :
      (let! send_buf := data_ptr (scalar_type input) input in
       let! recv_buf := data_ptr (scalar_type input) flatOutput in
       let! dtype := map_at cclDatatypes (scalar_type flatOutput) in
       ccl_alltoallv_on lib send_buf sendCounts recv_buf rc dtype) w1
      = Ret evt w4).
    { rewrite (bind_Ret _ _ _ _ _ (data_ptr_same input w1)).
      rewrite (bind_Ret _ _ _ _ _
                 (data_ptr_typed (scalar_type input) flatOutput w1 HtG)).
      unfold map_at. rewrite Hd. unfold bind at 1. unfold ret at 1.
      exact Hexch. }
    rewrite (bind_Ret _ _ _ _ _ Hbody).
    by rewrite (bind_Ret _ _ _ _ _ Hunflat).
  - simpl. by rewrite Hw1.
  - simpl. rewrite Hw1. simpl. lia.
  - intros i t Hi Ht. simpl. fold delivered. by apply Hout.
  - intros t' Hlt Ht'. simpl. rewrite (Hframe t'); [| unfold sG; lia | done].
    simpl. rewrite Hh1. unfold contents. apply region_ext. by apply Hold1.
Qed.

(** ** Gather on the root, from the entry point *)

(** On the root, with one output list of one tensor per participant, the
    checks of [gather_] pass and the call reaches the dispatch. *)
Lemma gather_root_checked (lib : CCL)
    (cclDatatypes : ScalarType -> option Z)
    (dispatch_unsupported : ScalarType -> string -> option exn)
    (checkSingleTensor_fails : list Tensor -> option exn)
    (convert_element : ScalarType -> ScalarType -> Z -> Z)
    (pg : ProcessGroupCCL) (opts : GatherOptions) (input : Tensor)
    (outputs : list Tensor) (w : world) :
  checkSingleTensor_fails [input] = None ->
  getRank pg = g_rootRank opts -> 0 <= getSize pg < 2 ^ 64 ->
  Z.of_nat (length outputs) = getSize pg ->
  gather_ lib cclDatatypes dispatch_unsupported checkSingleTensor_fails convert_element
    [outputs] [input] opts pg w
  = (let! work := collective lib get_device_list pg [input] [outputs]
                    (gather_fn lib cclDatatypes dispatch_unsupported convert_element
                       (getSize pg) (getRank pg) opts) in
     execute (set_debugName "xpu::gather" work)) w.
Proof.
  intros Hok Hrank Hsz Hlen.
  unfold gather_, checkSingleTensor, TORCH_CHECK, bind, ret, throw. rewrite Hok.
  rewrite (bool_decide_eq_true_2 _ Hrank). change (negb true) with false.
  cbv beta iota. cbn [length].
  rewrite (bool_decide_eq_true_2 (1%nat = 1%nat)) by done. cbv beta iota.
  change (vector_at [outputs] 0 w) with (vector_at [outputs] (Z.of_nat 0) w).
  rewrite (vector_at_lookup [outputs] 0 outputs w eq_refl). cbv beta iota.
  rewrite (bool_decide_eq_true_2 (to_size_t (getSize pg) = Z.of_nat (length outputs)))
    by (rewrite to_size_t_id by done; lia).
  reflexivity.
Qed.

(** X7: gather on the root with an input whose element count differs from
    that of the output in the root's own slot.  The gather function raises
    the count mismatch before anything is handed to the library: no call is
    issued, the caller is not blocked, and the storages that existed before
    are as they were.  From the entry point the error does not reach the
    caller: once the communicator is resolved [gather_] returns a work in
    the failed state that carries the mismatch and holds no event. *)
Theorem gather_root_count_mismatch (lib : CCL)
    (cclDatatypes : ScalarType -> option Z)
    (dispatch_unsupported : ScalarType -> string -> option exn)
    (checkSingleTensor_fails : list Tensor -> option exn)
    (convert_element : ScalarType -> ScalarType -> Z -> Z)
    (pg : ProcessGroupCCL) (opts : GatherOptions) (input : Tensor)
    (outputs : list Tensor) (own : Tensor) (w : world) :
  let mismatch := c10_Error "gather: send and recv count doesn't match" in
  getRank pg = g_rootRank opts ->
  0 <= getRank pg < getSize pg -> getSize pg < 2 ^ 31 ->
  Z.of_nat (length outputs) = getSize pg ->
  outputs !! Z.to_nat (getRank pg) = Some own ->
  numel_in_range input -> numel_in_range own ->
  numel input <> numel own ->
  (forall comm strm w0, exists w',
     gather_fn lib cclDatatypes dispatch_unsupported convert_element (getSize pg)
       (getRank pg) opts input outputs comm strm w0 = Exc mismatch w' /\
     w_issued w' = w_issued w0 /\ w_clock w' = w_clock w0 /\
     take (length (w_heap w0)) (w_heap w') = w_heap w0) /\
  (forall p w1,
     checkSingleTensor_fails [input] = None ->
     cache_wf pg w ->
     get_ccl_comms lib pg (get_key_from_devs [device input]) [device input] w
       = Ret p w1 ->
     exists work w2,
       gather_ lib cclDatatypes dispatch_unsupported checkSingleTensor_fails
         convert_element [outputs] [input] opts pg w = Ret work w2 /\
       work_state work = Failed mismatch /\ rets work = [] /\
       w_issued w2 = w_issued w1 /\ w_clock w2 = w_clock w1).
Proof.
  intros mismatch Hrank Hroot Hint Hlen Hown Hin Hon Hne.
  assert (Hfn : forall comm strm w0, exists w',
     gather_fn lib cclDatatypes dispatch_unsupported convert_element (getSize pg)
       (getRank pg) opts input outputs comm strm w0 = Exc mismatch w' /\
     w_issued w' = w_issued w0 /\ w_clock w' = w_clock w0 /\
     take (length (w_heap w0)) (w_heap w') = w_heap w0).
  { intros comm strm w0.
    apply (gather_fn_root_mismatch lib cclDatatypes dispatch_unsupported
             convert_element _ _ _ _ _ own);
      try done. lia. }
  split; [exact Hfn|].
  intros p w1 Hok Hwf Hget.
  rewrite gather_root_checked by (done || lia).
  destruct (dispatch_single lib pg get_device_list
              (gather_fn lib cclDatatypes dispatch_unsupported convert_element
                 (getSize pg) (getRank pg) opts)
              input outputs "xpu::gather" w [device input] p w1
              Hwf eq_refl Hget) as (dv & run & ->).
  destruct (Hfn (constructed_comm pg dv) (mkStream (dev_index dv)) w1)
    as (w' & -> & Hi & Hc & _).
  eexists _, w'. split; [reflexivity|]. done.
Qed.

Lemma gather_root_count_mismatch_witness :
  let outputs := [Sample.tensor [4] 3 0; Sample.tensor [3] 2 0] in
  exists work w2,
    gather_ Sample.lib Sample.cclDatatypes Sample.dispatch_all (fun _ => None)
      Sample.convert_element
      [outputs] [Sample.tensor [3] 0 0] (mkGatherOptions 0) Sample.pg Sample.w0
    = Ret work w2 /\
    work_state work = Failed (c10_Error "gather: send and recv count doesn't match") /\
    rets work = [] /\
    w_issued w2 = w_issued Sample.w1 /\ w_clock w2 = w_clock Sample.w1.
Proof.
  intros outputs.
  exact (proj2 (gather_root_count_mismatch Sample.lib Sample.cclDatatypes
                  Sample.dispatch_all (fun _ => None) Sample.convert_element
                  Sample.pg (mkGatherOptions 0)
                  (Sample.tensor [3] 0 0) outputs (Sample.tensor [4] 3 0) Sample.w0
                  eq_refl ltac:(simpl; lia) ltac:(simpl; lia) eq_refl eq_refl
                  ltac:(split; by vm_compute) ltac:(split; by vm_compute)
                  ltac:(by vm_compute))
           0%nat Sample.w1 eq_refl (cache_wf_empty Sample.pg Sample.w0 eq_refl)
           sample_resolved).
Defined.

(** A request to the cache leaves the writes in flight as they are. *)
Lemma get_ccl_comms_inflight (lib : CCL) (pg_ccl : ProcessGroupCCL)
    key devices w p w1 :
  get_ccl_comms lib pg_ccl key devices w = Ret p w1 ->
  w_inflight w1 = w_inflight w.
Proof.
  intros Hget.
  destruct (decide (key = "")) as [->|Hk].
  { by rewrite get_ccl_comms_key_empty in Hget. }
  destruct (decide (length devices = 1%nat)) as [Hd|Hd].
  2:{ by rewrite get_ccl_comms_not_one in Hget. }
  destruct (w_comms w !! key) as [b'|] eqn:Hlook.
  { rewrite (get_ccl_comms_hit _ _ _ _ _ b') in Hget by done.
    by inversion Hget. }
  destruct devices as [|d [|? ?]]; try done.
  rewrite get_ccl_comms_miss in Hget by done. simpl in Hget.
  destruct (ccl_status lib _); [done|]. by inversion Hget.
Qed.

(** The root's gather function on outputs whose flat buffer has another
    scalar type than the input: the typed pointer to the receive buffer is
    refused, before anything is handed to the library. *)
Lemma gather_fn_root_mistyped (lib : CCL)
    (cclDatatypes : ScalarType -> option Z)
    (dispatch_unsupported : ScalarType -> string -> option exn)
    (convert_element : ScalarType -> ScalarType -> Z -> Z)
    (grp_size rank : Z) (opts : GatherOptions) (input : Tensor)
    (outputs : list Tensor) (own : Tensor) (comm : communicator) (strm : stream)
    (w : world) (b : bool) (rc : list Z) (flatOutput : Tensor) (fr : Z)
    (w1 : world) (d : Z) :
  let n := Z.to_nat grp_size in
  rank = g_rootRank opts -> 0 <= rank < grp_size ->
  (n <= length outputs)%nat ->
  outputs !! Z.to_nat rank = Some own -> numel input = numel own ->
  computeLengthsAndCheckAndGetFlat outputs (replicate n 0) w
    = Ret (b, rc, flatOutput, fr) w1 ->
  dispatch_unsupported (scalar_type input) "gather" = None ->
  cclDatatypes (scalar_type flatOutput) = Some d ->
  scalar_type flatOutput <> scalar_type input ->
  gather_fn lib cclDatatypes dispatch_unsupported convert_element grp_size rank opts
    input outputs comm strm w
  = Exc (c10_Error ("expected scalar type " +:+ toString (scalar_type input) +:+
                    " but found " +:+ toString (scalar_type flatOutput))) w1 /\
  w_issued w1 = w_issued w /\ w_clock w1 = w_clock w /\
  w_inflight w1 = w_inflight w.
Proof.
  intros n Hrank Hroot Hn Hown Heq Hso Hdisp Hd Hty.
  assert (Houts : outputs <> []) by (by intros ->).
  destruct (computeLengthsAndCheckAndGetFlat_spec outputs n w Houts Hn)
    as (b' & flat & w' & Hc & Hflat & Hnf).
  rewrite Hso in Hc. inversion Hc; subst b' flat w' rc fr. clear Hc.
  split.
  2:{ destruct b.
      - by destruct (Hflat eq_refl) as [-> _].
      - by destruct (Hnf eq_refl) as (first & _ & _ & ->). }
  unfold gather_fn. rewrite <- Hrank.
  rewrite (bool_decide_eq_true_2 (rank = rank) eq_refl).
  assert (Hset : vector_set (replicate n 0) rank (to_size_t (numel input)) w
                 = Ret (<[Z.to_nat rank := to_size_t (numel input)]>
                          (replicate n 0)) w).
  { apply vector_set_index; [lia|]. rewrite length_replicate. lia. }
  fold n. rewrite (bind_Ret _ _ _ _ _ Hset).
  erewrite bind_Ret; cycle 1.
  { rewrite (bind_Ret _ _ _ _ _ Hso). cbv beta iota.
    erewrite bind_Ret; cycle 1.
    { apply vector_at_index; [lia|].
      apply list_lookup_insert_eq. rewrite length_replicate. lia. }
    erewrite bind_Ret; cycle 1.
    { apply vector_at_index; [lia|].
      rewrite list_lookup_fmap, lookup_take_lt by lia. by rewrite Hown. }
    rewrite (bool_decide_eq_true_2 _ (f_equal to_size_t Heq)).
    reflexivity. }
  cbv beta iota.
  unfold CCL_DISPATCH_INTEGRAL_FLOATS_TYPES. rewrite Hdisp. cbv zeta.
  apply bind_Exc.
  rewrite (bind_Ret _ _ _ _ _ (data_ptr_same input w1)).
  apply bind_Exc. by apply data_ptr_mistyped.
Qed.

(** X8: gather on the root, end to end.  With one tensor per participant in
    the output list, outputs of the input's scalar type that are not one
    flat buffer already and an input as long as the root's own output,
    [gather_] returns a completed work holding one event: that of an
    irregular exchange which sends the whole input to the root's own slot
    and nothing elsewhere, and receives per participant the element count of
    that participant's output.  The root has waited for that event, so that
    the device owes what it owed before the call (no write of an equal call,
    it is assumed); every output holds its rank-order segment of what the
    exchange delivered, and every tensor that existed before the call and
    overlaps no output holds what it held.  When the receive buffer
    has another scalar type than the input, the typed pointer to it is
    refused: the work fails with that error and nothing is issued. *)
Theorem gather_root_collects_segments (lib : CCL)
    (cclDatatypes : ScalarType -> option Z)
    (dispatch_unsupported : ScalarType -> string -> option exn)
    (checkSingleTensor_fails : list Tensor -> option exn)
    (convert_element : ScalarType -> ScalarType -> Z -> Z)
    (pg : ProcessGroupCCL) (opts : GatherOptions) (input : Tensor)
    (outputs : list Tensor) (own : Tensor) (w : world) (p : nat) (w1 : world)
    (sent : list Z) :
  let n := Z.to_nat (getSize pg) in
  let sendCounts := <[Z.to_nat (getRank pg) := numel input]> (replicate n 0) in
  checkSingleTensor_fails [input] = None ->
  getRank pg = g_rootRank opts ->
  0 <= getRank pg < getSize pg -> getSize pg < 2 ^ 31 ->
  Z.of_nat (length outputs) = getSize pg ->
  outputs !! Z.to_nat (getRank pg) = Some own -> numel input = numel own ->
  numel_in_range input -> contents (w_heap w) input = Some sent ->
  Forall (dense_in (w_heap w)) outputs ->
  pairwise_disjoint n outputs ->
  cache_wf pg w ->
  get_ccl_comms lib pg (get_key_from_devs [device input]) [device input] w
    = Ret p w1 ->
  (forall rc flatOutput fr w1' d,
     Forall (fun t => scalar_type t = scalar_type input) outputs ->
     computeLengthsAndCheckAndGetFlat outputs (replicate n 0) w1
       = Ret (false, rc, flatOutput, fr) w1' ->
     dispatch_unsupported (scalar_type input) "gather" = None ->
     cclDatatypes (scalar_type flatOutput) = Some d ->
     let call := ccl_alltoallv sendCounts rc d in
     ccl_status lib call = None ->
     Forall (fun q => if_call q <> call) (w_inflight w) ->
     rc = numel <$> outputs /\
     sum_integers sendCounts = numel input /\
     exists work evt w5,
       gather_ lib cclDatatypes dispatch_unsupported checkSingleTensor_fails
         convert_element [outputs] [input] opts pg w = Ret work w5 /\
       work_state work = Completed /\ rets work = [evt] /\ ev_call evt = call /\
       w_issued w5 = w_issued w1 ++ [call] /\
       w_inflight w5 = w_inflight w /\
       w_clock w5 = (w_clock w1 + ev_latency evt)%nat /\
       (forall i t, outputs !! i = Some t ->
          contents (w_heap w5) t
          = Some (segment rc i (resize (Z.to_nat (sum_integers rc)) 0
                                       (ccl_exchange lib sent sendCounts rc)))) /\
       (forall t', (storage t' < length (w_heap w))%nat ->
          (forall i t, outputs !! i = Some t -> disjoint_views t' t) ->
          contents (w_heap w5) t' = contents (w_heap w) t')) /\
  (forall b rc flatOutput fr w1' d,
     computeLengthsAndCheckAndGetFlat outputs (replicate n 0) w1
       = Ret (b, rc, flatOutput, fr) w1' ->
     dispatch_unsupported (scalar_type input) "gather" = None ->
     cclDatatypes (scalar_type flatOutput) = Some d ->
     scalar_type flatOutput <> scalar_type input ->
     exists work,
       gather_ lib cclDatatypes dispatch_unsupported checkSingleTensor_fails
         convert_element [outputs] [input] opts pg w = Ret work w1' /\
       work_state work
       = Failed (c10_Error ("expected scalar type " +:+
                            toString (scalar_type input) +:+ " but found " +:+
                            toString (scalar_type flatOutput))) /\
       rets work = [] /\ w_issued w1' = w_issued w1).
Proof.
  intros n sendCounts Hok Hrank Hroot Hint Hlen Hown Heq Hin Hsent Hdense
         Hdisj Hwf Hget.
  destruct (get_ccl_comms_wf lib pg _ _ _ _ _ Hwf Hget) as (_ & Hheap & _).
  pose proof (get_ccl_comms_inflight lib pg _ _ _ _ _ Hget) as Hfl.
  assert (Hn : n = length outputs) by (unfold n; lia).
  assert (Hall : take n outputs = outputs) by (apply take_ge; lia).
  assert (Hdisp1 :
    gather_ lib cclDatatypes dispatch_unsupported checkSingleTensor_fails
      convert_element [outputs] [input] opts pg w
    = (let! work := collective lib get_device_list pg [input] [outputs]
                      (gather_fn lib cclDatatypes dispatch_unsupported
                         convert_element (getSize pg) (getRank pg) opts) in
       execute (set_debugName "xpu::gather" work)) w).
  { apply gather_root_checked; (done || lia). }
  destruct (dispatch_single lib pg get_device_list
              (gather_fn lib cclDatatypes dispatch_unsupported convert_element
                 (getSize pg) (getRank pg) opts)
              input outputs "xpu::gather" w [device input] p w1
              Hwf eq_refl Hget) as (dv & run & Hrun).
  rewrite Hdisp1, Hrun. clear Hdisp1 Hrun.
  split.
  - intros rc flatOutput fr w1' d Hty Hso Hdisp Hd call Hstatus Hold.
    destruct (gather_fn_root_collects lib cclDatatypes dispatch_unsupported
                convert_element
                (getSize pg) (getRank pg) opts input outputs own
                (constructed_comm pg dv) (mkStream (dev_index dv))
                w1 sent rc flatOutput fr w1' d)
      as (Hrc & Hsum & evt & w5 & -> & Hcall & Hissued & Hfl5 & Hclock & Hseg & Hframe);
      fold n; rewrite ?Hheap, ?Hall, ?Hfl; try done; try lia.
    fold n in Hrc, Hseg, Hframe. rewrite Hall in Hrc. rewrite Hheap in Hframe.
    rewrite Hfl in Hfl5.
    split; [done|]. split; [done|].
    eexists _, evt, w5. split; [reflexivity|].
    repeat split; try done.
    + intros i t Ht. apply Hseg; [|done].
      rewrite Hn. by eapply lookup_lt_Some.
    + intros t' Hlt Ht'. apply Hframe; [done|].
      intros i t _ Ht. by apply (Ht' i t).
  - intros b rc flatOutput fr w1' d Hso Hdisp Hd Hty.
    destruct (gather_fn_root_mistyped lib cclDatatypes dispatch_unsupported
                convert_element
                (getSize pg) (getRank pg) opts input outputs own
                (constructed_comm pg dv) (mkStream (dev_index dv))
                w1 b rc flatOutput fr w1' d)
      as (-> & Hissued & _); fold n; try done; try lia.
    eexists. split; [reflexivity|]. done.
Qed.

Lemma gather_root_collects_segments_witness :
  let outputs ty := [mkTensor false ty [3] true (Sample.xpu 0) 2 0;
                     mkTensor false ty [4] true (Sample.xpu 0) 3 0] in
  (exists work evt w5,
     gather_ Sample.lib Sample.cclDatatypes Sample.dispatch_all (fun _ => None)
       Sample.convert_element
       [outputs Float] [Sample.tensor [3] 0 0] (mkGatherOptions 0) Sample.pg
       Sample.w0
     = Ret work w5 /\
     rets work = [evt] /\ ev_call evt = ccl_alltoallv [3; 0] [3; 4] 9 /\
     w_inflight w5 = [] /\
     contents (w_heap w5) (Sample.tensor [3] 2 0) = Some [1; 2; 3] /\
     contents (w_heap w5) (Sample.tensor [3] 0 0) = Some [1; 2; 3]) /\
  (exists work w5,
     gather_ Sample.lib Sample.cclDatatypes Sample.dispatch_all (fun _ => None)
       Sample.convert_element
       [outputs Long] [Sample.tensor [3] 0 0] (mkGatherOptions 0) Sample.pg
       Sample.w0
     = Ret work w5 /\
     work_state work
     = Failed (c10_Error "expected scalar type Float but found Long") /\
     rets work = [] /\ w_issued w5 = w_issued Sample.w1).
Proof.
  intros outputs.
  assert (Hrange : forall ty shape st off,
            shape = [3] \/ shape = [4] ->
            numel_in_range (mkTensor false ty shape true (Sample.xpu 0) st off)).
  { intros ty shape st off [-> | ->]; split; by vm_compute. }
  assert (Hdense : forall ty shape st off c,
            contents (w_heap Sample.w0)
                     (mkTensor false ty shape true (Sample.xpu 0) st off) = Some c ->
            numel_in_range (mkTensor false ty shape true (Sample.xpu 0) st off) ->
            dense_in (w_heap Sample.w0)
                     (mkTensor false ty shape true (Sample.xpu 0) st off)).
  { intros ty shape st off c Hc Hr. repeat split; try done; apply Hr. }
  assert (Hdisj : forall ty, pairwise_disjoint (Z.to_nat 2)
            [mkTensor false ty [3] true (Sample.xpu 0) 2 0;
             mkTensor false ty [4] true (Sample.xpu 0) 3 0]).
  { intros ty i j ti tj Hi Hj Hne Hti Htj.
    destruct i as [|[|i]], j as [|[|j]]; simpl in Hi, Hj; try lia;
      inversion Hti; inversion Htj; subst; left; simpl; lia. }

  assert (Hcommon := fun ty =>
    gather_root_collects_segments Sample.lib Sample.cclDatatypes
      Sample.dispatch_all (fun _ => None) Sample.convert_element
      Sample.pg (mkGatherOptions 0)
      (Sample.tensor [3] 0 0) (outputs ty)
      (mkTensor false ty [3] true (Sample.xpu 0) 2 0)
      Sample.w0 0%nat Sample.w1 [1; 2; 3]
      eq_refl eq_refl ltac:(simpl; lia) ltac:(simpl; lia) eq_refl
      eq_refl eq_refl
      (Hrange Float [3] 0%nat 0%nat ltac:(auto)) eq_refl
      ltac:(repeat constructor;
            (eapply Hdense; [reflexivity | apply Hrange; auto]))
      (Hdisj ty) (cache_wf_empty Sample.pg Sample.w0 eq_refl) sample_resolved).
  split.
  - destruct (proj1 (Hcommon Float)
                [3; 4]
                (mkTensor false Float [7] true (Sample.xpu 0) 6 0) 7
                (set_heap (w_heap Sample.w1 ++ [replicate 7 0]) Sample.w1) 9
                ltac:(repeat constructor) eq_refl eq_refl eq_refl eq_refl
                ltac:(constructor))
      as (_ & _ & work & evt & w5 & Hrun & _ & Hrets & Hcall & _ & Hfl & _ &
          Hseg & Hframe).
    exists work, evt, w5. split; [exact Hrun|]. split; [exact Hrets|].
    split; [exact Hcall|]. split; [exact Hfl|].
    split; [exact (Hseg 0%nat _ eq_refl)|].
    apply (Hframe (Sample.tensor [3] 0 0)); [simpl; lia|].
    intros i t Ht. destruct i as [|[|i]]; inversion Ht; subst; left; simpl; lia.
  - destruct (proj2 (Hcommon Long)
                false [3; 4]
                (mkTensor false Long [7] true (Sample.xpu 0) 6 0) 7
                (set_heap (w_heap Sample.w1 ++ [replicate 7 0]) Sample.w1) 6
                eq_refl eq_refl eq_refl ltac:(discriminate))
      as (work & Hrun & Hstate & Hrets & Hissued).
    exists work, (set_heap (w_heap Sample.w1 ++ [replicate 7 0]) Sample.w1).
    split; [exact Hrun|]. split; [exact Hstate|]. split; [exact Hrets|].
    exact Hissued.
Defined.

(** ** The ragged exchange on base buffers *)

Lemma product_nonneg (l : list Z) : Forall (fun x => 0 <= x) l -> 0 <= foldr Z.mul 1 l.
Proof. induction 1; simpl; lia. Qed.

Lemma elem_le_sum (l : list Z) k :
  Forall (fun x => 0 <= x) l -> k ∈ l -> 0 <= k <= sum_integers l.
Proof.
  induction 1 as [|x l Hx Hl IH]; intros Hk; [by apply elem_of_nil in Hk|].
  pose proof (sum_integers_nonneg l Hl).
  apply elem_of_cons in Hk as [->|Hk]; simpl; [lia|].
  specialize (IH Hk). lia.
Qed.

(** What an accepted split list satisfies. *)
Lemma checkSplitSizes_accepts split_sizes t grp_size w :
  0 < grp_size < 2 ^ 31 ->
  checkSplitSizes split_sizes t grp_size w = Ret tt w ->
  exists n rest, sizes t = n :: rest /\
    match split_sizes with
    | [] => Z.rem n grp_size = 0
    | _ => Z.of_nat (length split_sizes) = grp_size /\ sum_integers split_sizes = n
    end.
Proof.
  intros Hg. unfold checkSplitSizes, size0, TORCH_CHECK, bind, ret, throw.
  destruct split_sizes as [|k split_sizes].
  - destruct (sizes t) as [|n rest]; [done|]. intros Hchk. exists n, rest.
    split; [done|]. rewrite bool_decide_eq_false_2 in Hchk by lia.
    destruct (bool_decide (Z.rem n grp_size = 0)) eqn:Hrem; [|done].
    by apply bool_decide_eq_true_1 in Hrem.
  - rewrite to_size_t_id by lia.
    destruct (bool_decide (Z.of_nat (length (k :: split_sizes)) = grp_size))
      eqn:Hlen; [|done].
    destruct (sizes t) as [|n rest]; [done|].
    destruct (bool_decide (sum_integers (k :: split_sizes) = n)) eqn:Hsum; [|done].
    intros _. exists n, rest. split; [done|].
    apply bool_decide_eq_true_1 in Hlen. apply bool_decide_eq_true_1 in Hsum. done.
Qed.

(** [chunk_len] on a tensor whose split list was accepted: the even share,
    or the slice length by which every split is then multiplied without
    wrapping around. *)
Lemma chunk_len_spec splits t grp_size n rest w :
  0 < grp_size < 2 ^ 31 ->
  sizes t = n :: rest -> Forall (fun x => 0 <= x) (sizes t) -> numel_in_range t ->
  Forall (fun x => 0 <= x) splits ->
  match splits with
  | [] => Z.rem n grp_size = 0
  | _ => Z.of_nat (length splits) = grp_size /\ sum_integers splits = n
  end ->
  exists len,
    chunk_len (bool_decide (length splits = 0%nat)) grp_size t w = Ret len w /\
    match splits with
    | [] => len = numel t / grp_size
    | _ => forall k, k ∈ splits ->
             to_size_t (to_size_t k * len) = k * foldr Z.mul 1 rest
    end.
Proof.
  intros Hg Hs Hnn Hr Hsp Hfit.
  set (row := foldr Z.mul 1 rest).
  assert (Hnumel : numel t = n * row) by (unfold numel; by rewrite Hs).
  assert (Hn : 0 <= n) by (rewrite Hs in Hnn; by inversion Hnn).
  assert (Hrow : 0 <= row).
  { apply product_nonneg. rewrite Hs in Hnn. by inversion Hnn. }
  unfold numel_in_range in Hr.
  unfold chunk_len. rewrite (to_size_t_id (numel t)) by lia.
  destruct splits as [|k0 splits].
  - cbn [length]. rewrite (bool_decide_eq_true_2 (0%nat = 0%nat)) by done.
    destruct (decide (numel t = 0)) as [H0|H0].
    + rewrite (bool_decide_eq_true_2 _ H0). exists (numel t). split; [done|].
      rewrite H0. by rewrite Z.div_0_l by lia.
    + rewrite (bool_decide_eq_false_2 _ H0). unfold bind, ret.
      rewrite to_size_t_id by lia.
      rewrite bool_decide_eq_false_2 by lia. by eexists.
  - destruct Hfit as [Hlen Hsum].
    rewrite (bool_decide_eq_false_2 (length (k0 :: splits) = 0%nat)) by done.
    destruct (decide (numel t = 0)) as [H0|H0].
    + rewrite (bool_decide_eq_true_2 _ H0). exists (numel t). split; [done|].
      intros k Hk. rewrite H0, Z.mul_0_r.
      pose proof (elem_le_sum _ _ Hsp Hk) as Hle. rewrite Hsum in Hle.
      rewrite to_size_t_id by lia. nia.
    + rewrite (bool_decide_eq_false_2 _ H0). unfold size0. rewrite Hs.
      unfold bind, ret.
      assert (Hn1 : 0 < n) by nia. assert (Hrow1 : 0 < row) by nia.
      rewrite (to_size_t_id n) by nia.
      rewrite bool_decide_eq_false_2 by lia.
      exists (numel t / n). split; [done|]. intros k Hk.
      pose proof (elem_le_sum _ _ Hsp Hk) as Hle. rewrite Hsum in Hle.
      assert (Hdiv : numel t / n = row).
      { rewrite Hnumel, (Z.mul_comm n row). apply Z.div_mul. lia. }
      rewrite Hdiv, (to_size_t_id k) by nia. apply to_size_t_id. nia.
Qed.

(** The loop fills both tables slot by slot: the common length on an even
    split, the split times the slice length otherwise. *)
Lemma split_counts_loop_spec ie oe inLen outLen isplits osplits m :
  forall k sc rc w,
  (k + m <= length sc)%nat -> (k + m <= length rc)%nat ->
  (ie = false -> (k + m <= length isplits)%nat) ->
  (oe = false -> (k + m <= length osplits)%nat) ->
  exists sc' rc',
    split_counts_loop m (Z.of_nat k) ie oe inLen outLen isplits osplits (sc, rc) w
      = Ret (sc', rc') w /\
    length sc' = length sc /\ length rc' = length rc /\
    (forall i, sc' !! i =
       if decide (k <= i < k + m)%nat
       then (if ie then Some inLen
             else (fun x => to_size_t (to_size_t x * inLen)) <$> isplits !! i)
       else sc !! i) /\
    (forall i, rc' !! i =
       if decide (k <= i < k + m)%nat
       then (if oe then Some outLen
             else (fun x => to_size_t (to_size_t x * outLen)) <$> osplits !! i)
       else rc !! i).
Proof.
  induction m as [|m IH]; intros k sc rc w Hsc Hrc Hi Ho.
  { exists sc, rc. simpl. repeat split; try done;
      intros i; by rewrite decide_False by lia. }
  simpl split_counts_loop.
  assert (Hs : exists s,
    (if ie then ret inLen
     else let! x := vector_at isplits (Z.of_nat k) in
          ret (to_size_t (to_size_t x * inLen))) w = Ret s w /\
    Some s = (if ie then Some inLen
              else (fun x => to_size_t (to_size_t x * inLen)) <$> isplits !! k)).
  { destruct ie; [by eexists|].
    destruct (lookup_lt_is_Some_2 isplits k) as [x Hx]; [specialize (Hi eq_refl); lia|].
    rewrite (bind_Ret _ _ _ _ _ (vector_at_lookup isplits k x w Hx)).
    rewrite Hx. by eexists. }
  destruct Hs as (s & Hs & Hsv).
  assert (Hr : exists r,
    (if oe then ret outLen
     else let! x := vector_at osplits (Z.of_nat k) in
          ret (to_size_t (to_size_t x * outLen))) w = Ret r w /\
    Some r = (if oe then Some outLen
              else (fun x => to_size_t (to_size_t x * outLen)) <$> osplits !! k)).
  { destruct oe; [by eexists|].
    destruct (lookup_lt_is_Some_2 osplits k) as [x Hx]; [specialize (Ho eq_refl); lia|].
    rewrite (bind_Ret _ _ _ _ _ (vector_at_lookup osplits k x w Hx)).
    rewrite Hx. by eexists. }
  destruct Hr as (r & Hr & Hrv).
  rewrite (bind_Ret _ _ _ _ _ Hs). cbn [fst snd].
  rewrite (bind_Ret _ _ _ _ _ (vector_set_in_range sc k s w ltac:(lia))).
  rewrite (bind_Ret _ _ _ _ _ Hr).
  rewrite (bind_Ret _ _ _ _ _ (vector_set_in_range rc k r w ltac:(lia))).
  replace (Z.of_nat k + 1) with (Z.of_nat (S k)) by lia.
  destruct (IH (S k) (<[k := s]> sc) (<[k := r]> rc) w)
    as (sc' & rc' & Hrun & Hlsc & Hlrc & Hsc' & Hrc');
    rewrite ?length_insert; try lia.
  { intros H. specialize (Hi H). lia. }
  { intros H. specialize (Ho H). lia. }
  exists sc', rc'. split; [done|].
  rewrite length_insert in Hlsc, Hlrc.
  split; [done|]. split; [done|]. split.
  - intros i. rewrite Hsc'.
    destruct (decide (S k <= i < S k + m)%nat).
    + by rewrite decide_True by lia.
    + destruct (decide (i = k)) as [->|].
      * rewrite decide_True by lia. rewrite list_lookup_insert_eq by lia. done.
      * rewrite decide_False by lia. by rewrite list_lookup_insert_ne.
  - intros i. rewrite Hrc'.
    destruct (decide (S k <= i < S k + m)%nat).
    + by rewrite decide_True by lia.
    + destruct (decide (i = k)) as [->|].
      * rewrite decide_True by lia. rewrite list_lookup_insert_eq by lia. done.
      * rewrite decide_False by lia. by rewrite list_lookup_insert_ne.
Qed.

Lemma sum_integers_replicate n x : sum_integers (replicate n x) = Z.of_nat n * x.
Proof. induction n as [|n IH]; [done|]. simpl replicate. simpl sum_integers. lia. Qed.

Lemma sum_integers_scale (l : list Z) c :
  sum_integers ((fun k => k * c) <$> l) = sum_integers l * c.
Proof.
  unfold sum_integers. induction l as [|x l IH]; [done|].
  rewrite fmap_cons. cbn [foldr]. rewrite IH. lia.
Qed.

(** The counts an accepted split list describes add up to the tensor. *)
Lemma split_counts_sum splits t grp_size n rest :
  0 < grp_size -> sizes t = n :: rest -> 0 <= n ->
  match splits with
  | [] => Z.rem n grp_size = 0
  | _ => Z.of_nat (length splits) = grp_size /\ sum_integers splits = n
  end ->
  sum_integers (split_counts splits grp_size t) = numel t.
Proof.
  intros Hg Hs Hn Hfit.
  assert (Hnumel : numel t = n * foldr Z.mul 1 rest) by (unfold numel; by rewrite Hs).
  unfold split_counts. destruct splits as [|k0 splits].
  - rewrite sum_integers_replicate, Z2Nat.id by lia.
    rewrite Z.rem_mod_nonneg in Hfit by lia.
    apply Z.mod_divide in Hfit as [q Hq]; [|lia].
    rewrite Hnumel, Hq.
    replace (q * grp_size * foldr Z.mul 1 rest)
      with (q * foldr Z.mul 1 rest * grp_size) by lia.
    rewrite Z.div_mul by lia. lia.
  - destruct Hfit as [_ Hsum]. rewrite Hs. cbn [tail].
    by rewrite sum_integers_scale, Hsum.
Qed.

(** A table filled as the loop fills it is the table of [split_counts]. *)
Lemma split_counts_table splits t grp_size n rest len (tbl : list Z) :
  0 < grp_size -> sizes t = n :: rest ->
  match splits with
  | [] => len = numel t / grp_size
  | _ => Z.of_nat (length splits) = grp_size /\
         forall k, k ∈ splits ->
           to_size_t (to_size_t k * len) = k * foldr Z.mul 1 rest
  end ->
  (forall i, tbl !! i =
     if decide (0 <= i < 0 + Z.to_nat grp_size)%nat
     then (if bool_decide (length splits = 0%nat) then Some len
           else (fun x => to_size_t (to_size_t x * len)) <$> splits !! i)
     else replicate (Z.to_nat grp_size) 0 !! i) ->
  tbl = split_counts splits grp_size t.
Proof.
  intros Hg Hs Hlen Htbl. apply list_eq. intros i. rewrite Htbl.
  unfold split_counts. destruct splits as [|k0 splits].
  - destruct (decide _) as [Hi|Hi].
    + subst len. symmetry. apply lookup_replicate_2. lia.
    + rewrite !lookup_ge_None_2; [done | |]; rewrite length_replicate; lia.
  - destruct Hlen as [Hlen Hmul]. rewrite Hs. cbn [tail].
    rewrite list_lookup_fmap.
    destruct (decide _) as [Hi|Hi].
    + rewrite (bool_decide_eq_false_2 (length (k0 :: splits) = 0%nat)) by done.
      destruct ((k0 :: splits) !! i) as [x|] eqn:Hx; [|done].
      simpl. f_equal. apply Hmul. by eapply list_elem_of_lookup_2.
    + rewrite (lookup_ge_None_2 (replicate _ _)) by (rewrite length_replicate; lia).
      rewrite (lookup_ge_None_2 (k0 :: splits)) by lia. done.
Qed.

(** X9: the ragged exchange on base buffers, once both split lists have
    passed their check.  The send and receive tables hold, per participant,
    the split times the number of elements in one slice along dimension 0,
    or an even share of the elements where the split list is empty; the
    products do not wrap around, an empty tensor divides nothing, and each
    table adds up to the element count of its tensor.  When the output has
    the input's scalar type the function issues one irregular exchange with
    these tables; when it has another one, the typed pointer to the output
    is refused with an error naming both types, and nothing is issued. *)
Theorem alltoall_base_ragged_counts (lib : CCL)
    (cclDatatypes : ScalarType -> option Z)
    (dispatch_unsupported : ScalarType -> string -> option exn)
    (grp_size : Z) (inputSplitSizes outputSplitSizes : list Z)
    (input output : Tensor) (comm : communicator) (strm : stream)
    (w : world) (d : Z) :
  let sendCounts := split_counts inputSplitSizes grp_size input in
  let recvCounts := split_counts outputSplitSizes grp_size output in
  0 < grp_size < 2 ^ 31 ->
  checkSplitSizes inputSplitSizes input grp_size w = Ret tt w ->
  checkSplitSizes outputSplitSizes output grp_size w = Ret tt w ->
  Forall (fun k => 0 <= k) inputSplitSizes ->
  Forall (fun k => 0 <= k) outputSplitSizes ->
  Forall (fun n => 0 <= n) (sizes input) -> Forall (fun n => 0 <= n) (sizes output) ->
  numel_in_range input -> numel_in_range output ->
  dispatch_unsupported (scalar_type input) "alltoall_base" = None ->
  cclDatatypes (scalar_type output) = Some d ->
  (scalar_type output = scalar_type input ->
   alltoall_base_ragged_fn lib cclDatatypes dispatch_unsupported grp_size
     inputSplitSizes outputSplitSizes input output comm strm w
   = ccl_issue lib (ccl_alltoallv sendCounts recvCounts d) w) /\
  sum_integers sendCounts = numel input /\
  sum_integers recvCounts = numel output /\
  (scalar_type output <> scalar_type input ->
   alltoall_base_ragged_fn lib cclDatatypes dispatch_unsupported grp_size
     inputSplitSizes outputSplitSizes input output comm strm w
   = Exc (c10_Error ("expected scalar type " +:+ toString (scalar_type input) +:+
                     " but found " +:+ toString (scalar_type output))) w).
Proof.
  intros sendCounts recvCounts Hg Hci Hco Hisp Hosp Hins Houts Hir Hor Hdisp Hd.
  destruct (checkSplitSizes_accepts _ _ _ _ Hg Hci) as (ni & resti & Hsi & Hfi).
  destruct (checkSplitSizes_accepts _ _ _ _ Hg Hco) as (no & resto & Hso & Hfo).
  assert (Hni : 0 <= ni) by (rewrite Hsi in Hins; by inversion Hins).
  assert (Hno : 0 <= no) by (rewrite Hso in Houts; by inversion Houts).
  destruct (chunk_len_spec inputSplitSizes input grp_size ni resti w
              Hg Hsi Hins Hir Hisp Hfi) as (inLen & HinLen & Hinv).
  destruct (chunk_len_spec outputSplitSizes output grp_size no resto w
              Hg Hso Houts Hor Hosp Hfo) as (outLen & HoutLen & Houtv).
  destruct (split_counts_loop_spec
              (bool_decide (length inputSplitSizes = 0%nat))
              (bool_decide (length outputSplitSizes = 0%nat))
              inLen outLen inputSplitSizes outputSplitSizes (Z.to_nat grp_size)
              0 (replicate (Z.to_nat grp_size) 0) (replicate (Z.to_nat grp_size) 0) w)
    as (sc & rc & Hloop & _ & _ & Hsc & Hrc);
    rewrite ?length_replicate; try lia.
  { intros Hne. destruct inputSplitSizes; [done|]. destruct Hfi as [Hl _]. lia. }
  { intros Hne. destruct outputSplitSizes; [done|]. destruct Hfo as [Hl _]. lia. }
  assert (Hsend : sc = sendCounts).
  { apply (split_counts_table _ _ _ ni resti inLen); [lia | done | | done].
    destruct inputSplitSizes; [done|]. by destruct Hfi. }
  assert (Hrecv : rc = recvCounts).
  { apply (split_counts_table _ _ _ no resto outLen); [lia | done | | done].
    destruct outputSplitSizes; [done|]. by destruct Hfo. }
  subst sc rc.
  assert (Hrun :
    alltoall_base_ragged_fn lib cclDatatypes dispatch_unsupported grp_size
      inputSplitSizes outputSplitSizes input output comm strm w
    = (let! recv_buf := data_ptr (scalar_type input) output in
       let! dtype := map_at cclDatatypes (scalar_type output) in
       ccl_issue lib (ccl_alltoallv sendCounts recvCounts dtype)) w).
  {
    unfold alltoall_base_ragged_fn, CCL_DISPATCH_INTEGRAL_FLOATS_TYPES.
    rewrite Hdisp.
    rewrite (bind_Ret _ _ _ _ _ Hci). rewrite (bind_Ret _ _ _ _ _ Hco).
    rewrite (bind_Ret _ _ _ _ _ HinLen). rewrite (bind_Ret _ _ _ _ _ HoutLen).
    change 0 with (Z.of_nat 0) at 1.
    rewrite (bind_Ret _ _ _ _ _ Hloop). cbv zeta.
    by rewrite (bind_Ret _ _ _ _ _ (data_ptr_same input w)). }
  split; [|split; [by eapply split_counts_sum; try lia |
           split; [by eapply split_counts_sum; try lia|]]].
  - intros Hty. rewrite Hrun.
    rewrite (bind_Ret _ _ _ _ _ (data_ptr_typed _ output w Hty)).
    unfold map_at. rewrite Hd. reflexivity.
  - intros Hty. rewrite Hrun.
    apply bind_Exc. by apply data_ptr_mistyped.
Qed.

Lemma alltoall_base_ragged_counts_witness :
  alltoall_base_ragged_fn Sample.lib Sample.cclDatatypes Sample.dispatch_all 2
    [1; 2] [] (Sample.tensor [3; 2] 4 0) (Sample.tensor [2; 3] 5 0)
    (constructed_comm Sample.pg (Sample.xpu 0)) (mkStream 0) Sample.w0
  = ccl_issue Sample.lib (ccl_alltoallv [2; 4] [3; 3] 9) Sample.w0 /\
  alltoall_base_ragged_fn Sample.lib Sample.cclDatatypes Sample.dispatch_all 2
    [1; 2] [] (Sample.tensor [3; 2] 4 0)
    (mkTensor false Long [2; 3] true (Sample.xpu 0) 5 0)
    (constructed_comm Sample.pg (Sample.xpu 0)) (mkStream 0) Sample.w0
  = Exc (c10_Error "expected scalar type Float but found Long") Sample.w0.
Proof.
  split.
  - exact (proj1 (alltoall_base_ragged_counts Sample.lib Sample.cclDatatypes
                    Sample.dispatch_all 2 [1; 2] []
                    (Sample.tensor [3; 2] 4 0) (Sample.tensor [2; 3] 5 0)
                    (constructed_comm Sample.pg (Sample.xpu 0)) (mkStream 0)
                    Sample.w0 9
                    ltac:(lia) eq_refl eq_refl
                    ltac:(repeat (constructor; [lia|]); constructor)
                    ltac:(constructor)
                    ltac:(repeat (constructor; [lia|]); constructor)
                    ltac:(repeat (constructor; [lia|]); constructor)
                    ltac:(split; by vm_compute) ltac:(split; by vm_compute)
                    eq_refl eq_refl) eq_refl).
  - exact (proj2 (proj2 (proj2
             (alltoall_base_ragged_counts Sample.lib Sample.cclDatatypes
                    Sample.dispatch_all 2 [1; 2] []
                    (Sample.tensor [3; 2] 4 0)
                    (mkTensor false Long [2; 3] true (Sample.xpu 0) 5 0)
                    (constructed_comm Sample.pg (Sample.xpu 0)) (mkStream 0)
                    Sample.w0 6
                    ltac:(lia) eq_refl eq_refl
                    ltac:(repeat (constructor; [lia|]); constructor)
                    ltac:(constructor)
                    ltac:(repeat (constructor; [lia|]); constructor)
                    ltac:(repeat (constructor; [lia|]); constructor)
                    ltac:(split; by vm_compute) ltac:(split; by vm_compute)
                    eq_refl eq_refl))) ltac:(discriminate)).
Defined.

(** ** All-to-all: what is left untouched *)

Section AllToAllMistyped.

Variable lib : CCL.
Variable cclDatatypes : ScalarType -> option Z.
Variable dispatch_unsupported : ScalarType -> string -> option exn.
Variable convert_element : ScalarType -> ScalarType -> Z -> Z.
Variable grp_size : Z.
Variable inputs outputs : list Tensor.
Variable cs : list (list Z).
Variable w : world.
Variable tyi tyo : ScalarType.

Let n : nat := Z.to_nat grp_size.
Let h : list (list Z) := w_heap w.
Let tin : Z := sum_integers (numel <$> take n inputs).

Hypothesis inputs_enough : (n <= length inputs)%nat.
Hypothesis outputs_enough : (n <= length outputs)%nat.
Hypothesis inputs_dense : Forall (dense_in h) (take n inputs).
Hypothesis inputs_contents :
  Forall2 (fun t c => contents h t = Some c) (take n inputs) cs.
Hypothesis inputs_typed : Forall (fun t => scalar_type t = tyi) inputs.
Hypothesis outputs_typed : Forall (fun t => scalar_type t = tyo) outputs.
Hypothesis types_differ : tyi <> tyo.

(** The all-to-all function on inputs of one scalar type and outputs of
    another: the inputs are flattened into the send buffer, then the typed
    pointer to the receive buffer is refused, before anything is handed to
    the library. *)
Lemma alltoall_fn_not_flat_mistyped comm strm sc flatInput fs w1 rc flatOutput fr w2 d :
  inputs <> [] -> outputs <> [] ->
  computeLengthsAndCheckAndGetFlat inputs (replicate n 0) w
    = Ret (false, sc, flatInput, fs) w1 ->
  computeLengthsAndCheckAndGetFlat outputs (replicate n 0) w1
    = Ret (false, rc, flatOutput, fr) w2 ->
  dispatch_unsupported (scalar_type flatInput) "xpu::alltoall" = None ->
  cclDatatypes (scalar_type flatOutput) = Some d ->
  exists w3,
    flatten_inputs convert_element grp_size false flatInput sc inputs w2
      = Ret tt w3 /\
    alltoall_fn lib cclDatatypes dispatch_unsupported convert_element grp_size
      inputs outputs inputs outputs comm strm w
    = Exc (c10_Error ("expected scalar type " +:+ toString tyi +:+
                      " but found " +:+ toString tyo)) w3 /\
    w_issued w3 = w_issued w /\ w_inflight w3 = w_inflight w /\
    w_clock w3 = w_clock w.
Proof.
  intros Hine Houte Hsi Hso Hdisp Hd.
  pose proof (inputs_in_range grp_size inputs w inputs_dense) as Hin_range.
  pose proof (length_inputs_contents grp_size inputs outputs cs w inputs_enough
                outputs_enough inputs_dense inputs_contents) as Hlen_cs.
  fold n in Hin_range, Hlen_cs. fold tin in Hlen_cs.
  destruct (computeLengthsAndCheckAndGetFlat_spec inputs n w Hine inputs_enough)
    as (b & flat & w' & Hc & _ & Hnf).
  rewrite Hsi in Hc. inversion Hc; subst b flat w' fs. clear Hc.
  destruct (Hnf eq_refl) as (fi & Hfi & HF & Hw1). clear Hnf.
  destruct (computeLengthsAndCheckAndGetFlat_spec outputs n w1 Houte outputs_enough)
    as (b & flat & w' & Hc & _ & Hnf).
  rewrite Hso in Hc. inversion Hc; subst b flat w' fr. clear Hc.
  destruct (Hnf eq_refl) as (fo & Hfo & HG & Hw2). clear Hnf.
  rewrite (size_t_counts_id _ Hin_range) in *.
  subst sc rc.
  fold tin in HF, Hw1. fold h in HF, Hw1.
  assert (Hh1 : w_heap w1 = h ++ [replicate (Z.to_nat tin) 0]) by (by rewrite Hw1).
  rewrite Hh1 in HG, Hw2.
  set (zi := replicate (Z.to_nat tin) 0) in *.
  set (sF := length h) in *.
  assert (Hh2 : exists zo, w_heap w2 = (h ++ [zi]) ++ [zo])
    by (rewrite Hw2; by eexists).
  destruct Hh2 as [zo Hh2].
  set (h2 := (h ++ [zi]) ++ [zo]) in *.
  assert (HsF : storage flatInput = sF) by (by rewrite HF).
  assert (HoF : storage_offset flatInput = 0%nat) by (by rewrite HF).
  assert (HnF : sizes flatInput = [tin]) by (by rewrite HF).
  assert (HtF : scalar_type flatInput = tyi).
  { rewrite HF. simpl. rewrite Forall_forall in inputs_typed. by apply inputs_typed. }
  assert (HtG : scalar_type flatOutput = tyo).
  { rewrite HG. simpl. rewrite Forall_forall in outputs_typed. by apply outputs_typed. }
  assert (HtyF : Forall (fun t => scalar_type t = scalar_type flatInput) (take n inputs)).
  { rewrite HtF. by apply Forall_take. }
  assert (Hold2 : forall s, (s < length h)%nat -> h2 !! s = h !! s).
  { intros s Hs. unfold h2. rewrite lookup_app_l by (rewrite length_app; lia).
    by apply lookup_app_l. }
  assert (HF2 : h2 !! sF = Some zi).
  { unfold h2, sF. rewrite lookup_app_l by (rewrite length_app; simpl; lia).
    by rewrite lookup_app_r, Nat.sub_diag. }
  assert (Hflat : flatten_inputs convert_element grp_size false flatInput
                    (numel <$> take n inputs) inputs w2
                  = Ret tt (set_heap (<[sF := concat cs]> h2) w2)).
  { rewrite <- (size_t_counts_id _ Hin_range).
    etransitivity;
      [apply (flatten_inputs_spec convert_element flatInput inputs grp_size cs w2 zi)|];
      rewrite ?Hh2, ?HsF, ?HoF; try done.
    - unfold zi. rewrite length_replicate. fold n. fold tin. lia.
    - apply (inputs_are_sources grp_size inputs outputs cs w inputs_enough
              outputs_enough inputs_dense inputs_contents); [unfold sF, h; lia | done].
    - rewrite splice_whole; [done|].
      rewrite Hlen_cs. unfold zi. by rewrite length_replicate. }
  exists (set_heap (<[sF := concat cs]> h2) w2).
  split; [exact Hflat|]. split.
  2:{ simpl. by rewrite Hw2, Hw1. }
  unfold alltoall_fn. fold n.
  rewrite (bind_Ret _ _ _ _ _ Hsi). cbv beta iota.
  rewrite (bind_Ret _ _ _ _ _ Hso). cbv beta iota.
  rewrite (bind_Ret _ _ _ _ _ Hflat).
  unfold CCL_DISPATCH_INTEGRAL_FLOATS_TYPES. rewrite Hdisp. cbv zeta.
  apply bind_Exc.
  rewrite (bind_Ret _ _ _ _ _ (data_ptr_same flatInput _)).
  apply bind_Exc.
  pose proof (data_ptr_mistyped (scalar_type flatInput) flatOutput
                (set_heap (<[sF := concat cs]> h2) w2)) as Hptr.
  rewrite HtF, HtG in Hptr. rewrite HtF. apply Hptr. by intros ->.
Qed.

End AllToAllMistyped.

(** X10: all-to-all on lists that are not flat already.  When inputs and
    outputs have one scalar type and the device owes no write of an equal
    call, the function hands the library exactly one call, leaves the device
    owing what it owed before, and of the tensors that existed before the
    call it changes the outputs only: every tensor that overlaps no output
    holds what it held, in particular an input that overlaps no output.
    When the outputs have another scalar type than the inputs, the
    inputs are flattened, the typed pointer to the receive buffer is
    refused with an error naming both types, and nothing is issued. *)
Theorem alltoall_writes_outputs_only (lib : CCL)
    (cclDatatypes : ScalarType -> option Z)
    (dispatch_unsupported : ScalarType -> string -> option exn)
    (convert_element : ScalarType -> ScalarType -> Z -> Z)
    (grp_size : Z) (inputs outputs : list Tensor) (cs : list (list Z))
    (comm : communicator) (strm : stream) (w : world)
    (sc : list Z) (flatInput : Tensor) (fs : Z) (w1 : world)
    (rc : list Z) (flatOutput : Tensor) (fr : Z) (w2 : world) (d : Z) :
  let n := Z.to_nat grp_size in
  inputs <> [] -> outputs <> [] ->
  (n <= length inputs)%nat -> (n <= length outputs)%nat ->
  Forall (dense_in (w_heap w)) (take n inputs) ->
  Forall (dense_in (w_heap w)) (take n outputs) ->
  pairwise_disjoint n outputs ->
  Forall2 (fun t c => contents (w_heap w) t = Some c) (take n inputs) cs ->
  computeLengthsAndCheckAndGetFlat inputs (replicate n 0) w
    = Ret (false, sc, flatInput, fs) w1 ->
  computeLengthsAndCheckAndGetFlat outputs (replicate n 0) w1
    = Ret (false, rc, flatOutput, fr) w2 ->
  dispatch_unsupported (scalar_type flatInput) "xpu::alltoall" = None ->
  cclDatatypes (scalar_type flatOutput) = Some d ->
  (forall ty,
     Forall (fun t => scalar_type t = ty) inputs ->
     Forall (fun t => scalar_type t = ty) outputs ->
     ccl_status lib (ccl_alltoallv sc rc d) = None ->
     Forall (fun q => if_call q <> ccl_alltoallv sc rc d) (w_inflight w) ->
     exists evt w5,
       alltoall_fn lib cclDatatypes dispatch_unsupported convert_element grp_size
         inputs outputs inputs outputs comm strm w = Ret evt w5 /\
       w_issued w5 = w_issued w ++ [ccl_alltoallv sc rc d] /\
       w_inflight w5 = w_inflight w /\
       (forall t', (storage t' < length (w_heap w))%nat ->
          (forall j o, (j < n)%nat -> outputs !! j = Some o -> disjoint_views t' o) ->
          contents (w_heap w5) t' = contents (w_heap w) t') /\
       (forall i t c, (i < n)%nat -> inputs !! i = Some t -> cs !! i = Some c ->
          (forall j o, (j < n)%nat -> outputs !! j = Some o -> disjoint_views t o) ->
          contents (w_heap w5) t = Some c)) /\
  (forall tyi tyo,
     Forall (fun t => scalar_type t = tyi) inputs ->
     Forall (fun t => scalar_type t = tyo) outputs ->
     tyi <> tyo ->
     exists w3,
       flatten_inputs convert_element grp_size false flatInput sc inputs w2
         = Ret tt w3 /\
       alltoall_fn lib cclDatatypes dispatch_unsupported convert_element grp_size
         inputs outputs inputs outputs comm strm w
       = Exc (c10_Error ("expected scalar type " +:+ toString tyi +:+
                         " but found " +:+ toString tyo)) w3 /\
       w_issued w3 = w_issued w).
Proof.
  intros n Hine Houte Hin Hout Hdi Hdo Hdisj Hcs Hsi Hso Hdisp Hd. split.
  - intros ty Hti Hto Hok Hold.
    destruct (alltoall_fn_not_flat lib cclDatatypes dispatch_unsupported
                convert_element grp_size inputs outputs cs w ty
                Hin Hout Hdi Hdo Hdisj Hcs Hti Hto comm strm
                sc flatInput fs w1 rc flatOutput fr w2 d
                Hine Houte Hsi Hso Hdisp Hd Hok Hold)
      as (_ & (w3 & evt & w4 & w5 & _ & _ & _ & _ & _ & _ &
               Hrun & _ & Hissued & Hfl & _ & _ & Hframe)).
    exists evt, w5. split; [done|]. split; [done|]. split; [done|].
    split; [exact Hframe|].
    intros i t c Hi Ht Hc Hfree.
    assert (Htk : take n inputs !! i = Some t) by (by rewrite lookup_take_lt).
    rewrite Hframe; [| |exact Hfree].
    + by apply (Forall2_lookup_lr _ _ _ _ _ _ Hcs Htk Hc).
    + apply (dense_in_storage (w_heap w)).
      rewrite Forall_forall in Hdi. apply Hdi. by eapply list_elem_of_lookup_2.
  - intros tyi tyo Hti Hto Hne.
    destruct (alltoall_fn_not_flat_mistyped lib cclDatatypes dispatch_unsupported
                convert_element grp_size inputs outputs cs w tyi tyo
                Hin Hout Hdi Hcs Hti Hto Hne comm strm
                sc flatInput fs w1 rc flatOutput fr w2 d
                Hine Houte Hsi Hso Hdisp Hd)
      as (w3 & Hflat & Hrun & Hissued & _).
    by exists w3.
Qed.

Lemma alltoall_writes_outputs_only_witness :
  let inputs := [Sample.tensor [3] 0 0; Sample.tensor [4] 1 0] in
  let outputs ty := [mkTensor false ty [3] true (Sample.xpu 0) 2 0;
                     mkTensor false ty [4] true (Sample.xpu 0) 3 0] in
  (exists evt w5,
     alltoall_fn Sample.lib Sample.cclDatatypes Sample.dispatch_all
       Sample.convert_element 2
       inputs (outputs Float) inputs (outputs Float)
       (constructed_comm Sample.pg (Sample.xpu 0)) (mkStream 0) Sample.w0
     = Ret evt w5 /\
     w_issued w5 = [ccl_alltoallv [3; 4] [3; 4] 9] /\
     contents (w_heap w5) (Sample.tensor [3] 0 0) = Some [1; 2; 3] /\
     contents (w_heap w5) (Sample.tensor [4] 1 0) = Some [4; 5; 6; 7]) /\
  (exists w3,
     alltoall_fn Sample.lib Sample.cclDatatypes Sample.dispatch_all
       Sample.convert_element 2
       inputs (outputs Long) inputs (outputs Long)
       (constructed_comm Sample.pg (Sample.xpu 0)) (mkStream 0) Sample.w0
     = Exc (c10_Error "expected scalar type Float but found Long") w3 /\
     w_issued w3 = []).
Proof.
  intros inputs outputs.
  assert (Hrange : forall ty shape st off,
            shape = [3] \/ shape = [4] ->
            numel_in_range (mkTensor false ty shape true (Sample.xpu 0) st off)).
  { intros ty shape st off [-> | ->]; split; by vm_compute. }
  assert (Hdense : forall ty shape st off c,
            contents (w_heap Sample.w0)
                     (mkTensor false ty shape true (Sample.xpu 0) st off) = Some c ->
            numel_in_range (mkTensor false ty shape true (Sample.xpu 0) st off) ->
            dense_in (w_heap Sample.w0)
                     (mkTensor false ty shape true (Sample.xpu 0) st off)).
  { intros ty shape st off c Hc Hr. repeat split; try done; apply Hr. }
  assert (Hdisj : forall ty, pairwise_disjoint (Z.to_nat 2)
            [mkTensor false ty [3] true (Sample.xpu 0) 2 0;
             mkTensor false ty [4] true (Sample.xpu 0) 3 0]).
  { intros ty i j ti tj Hi Hj Hne Hti Htj.
    destruct i as [|[|i]], j as [|[|j]]; simpl in Hi, Hj; try lia;
      inversion Hti; inversion Htj; subst; left; simpl; lia. }

  assert (Hfree : forall st, (st < 2)%nat ->
            forall j o, (j < Z.to_nat 2)%nat -> outputs Float !! j = Some o ->
              disjoint_views
                (Sample.tensor (match st with O => [3] | S _ => [4] end) st 0) o).
  { intros st Hst j o Hj Ho.
    destruct j as [|[|j]]; inversion Ho; subst; left; simpl; lia. }
  assert (Hcommon := fun ty d =>
    alltoall_writes_outputs_only Sample.lib Sample.cclDatatypes
      Sample.dispatch_all Sample.convert_element
      2 inputs (outputs ty) [[1; 2; 3]; [4; 5; 6; 7]]
      (constructed_comm Sample.pg (Sample.xpu 0)) (mkStream 0) Sample.w0
      [3; 4]
      (mkTensor false Float [7] true (Sample.xpu 0) 6 0) 7
      (set_heap (w_heap Sample.w0 ++ [replicate 7 0]) Sample.w0)
      [3; 4]
      (mkTensor false ty [7] true (Sample.xpu 0) 7 0) 7
      (set_heap ((w_heap Sample.w0 ++ [replicate 7 0]) ++ [replicate 7 0])
                Sample.w0)
      d
      ltac:(discriminate) ltac:(discriminate)
      ltac:(simpl; lia) ltac:(simpl; lia)
      ltac:(repeat constructor;
            (eapply Hdense; [reflexivity | apply Hrange; auto]))
      ltac:(repeat constructor;
            (eapply Hdense; [reflexivity | apply Hrange; auto]))
      (Hdisj ty) ltac:(repeat constructor)
      eq_refl eq_refl eq_refl).
  split.
  - destruct (proj1 (Hcommon Float 9 eq_refl)
                Float ltac:(repeat constructor) ltac:(repeat constructor)
                eq_refl ltac:(constructor))
      as (evt & w5 & Hrun & Hissued & _ & _ & Hkeep).
    exists evt, w5. split; [exact Hrun|]. split; [exact Hissued|]. split.
    + exact (Hkeep 0%nat _ _ ltac:(simpl; lia) eq_refl eq_refl
               (Hfree 0%nat ltac:(lia))).
    + exact (Hkeep 1%nat _ _ ltac:(simpl; lia) eq_refl eq_refl
               (Hfree 1%nat ltac:(lia))).
  - destruct (proj2 (Hcommon Long 6 eq_refl)
                Float Long ltac:(repeat constructor) ltac:(repeat constructor)
                ltac:(discriminate))
      as (w3 & _ & Hrun & Hissued).
    exists w3. split; [exact Hrun | exact Hissued].
Defined.

(** X11: all-to-all from the entry point, end to end.  With one dense
    in-bounds tensor per participant on both sides, outputs that do not
    overlap one another and lists that are not flat already, once the
    communicator for the first input's device is resolved.  When inputs and
    outputs have one scalar type and the device owes no write of an equal
    call, [alltoall_] returns a completed work holding the one event of the
    one irregular exchange it issued; the caller has waited for that event,
    so that the device owes what it owed before the call;
    every output holds its rank-order segment of what the exchange delivered
    for the concatenated inputs; and every tensor that existed before the
    call and overlaps no output holds what it held.  When the outputs have
    another scalar type than the inputs, the work fails with the typed
    pointer's error, holds no event, and nothing is issued. *)
Theorem alltoall_end_to_end (lib : CCL)
    (cclDatatypes : ScalarType -> option Z)
    (dispatch_unsupported : ScalarType -> string -> option exn)
    (convert_element : ScalarType -> ScalarType -> Z -> Z)
    (pg : ProcessGroupCCL) (inputs outputs : list Tensor) (t0 : Tensor)
    (cs : list (list Z)) (w : world) (p : nat) (w1 : world)
    (sc : list Z) (flatInput : Tensor) (fs : Z) (w2 : world)
    (rc : list Z) (flatOutput : Tensor) (fr : Z) (w3 : world) (d : Z) :
  let n := Z.to_nat (getSize pg) in
  let call := ccl_alltoallv sc rc d in
  inputs !! 0%nat = Some t0 -> outputs <> [] ->
  (n <= length inputs)%nat -> (n <= length outputs)%nat ->
  Forall (dense_in (w_heap w)) (take n inputs) ->
  Forall (dense_in (w_heap w)) (take n outputs) ->
  pairwise_disjoint n outputs ->
  Forall2 (fun t c => contents (w_heap w) t = Some c) (take n inputs) cs ->
  cache_wf pg w ->
  get_ccl_comms lib pg (get_key_from_devs [device t0]) [device t0] w = Ret p w1 ->
  computeLengthsAndCheckAndGetFlat inputs (replicate n 0) w1
    = Ret (false, sc, flatInput, fs) w2 ->
  computeLengthsAndCheckAndGetFlat outputs (replicate n 0) w2
    = Ret (false, rc, flatOutput, fr) w3 ->
  dispatch_unsupported (scalar_type flatInput) "xpu::alltoall" = None ->
  cclDatatypes (scalar_type flatOutput) = Some d ->
  (forall ty,
     Forall (fun t => scalar_type t = ty) inputs ->
     Forall (fun t => scalar_type t = ty) outputs ->
     ccl_status lib call = None ->
     Forall (fun q => if_call q <> call) (w_inflight w) ->
     exists work evt w5,
       alltoall_ lib cclDatatypes dispatch_unsupported convert_element
         outputs inputs pg w = Ret work w5 /\
       work_state work = Completed /\ rets work = [evt] /\ ev_call evt = call /\
       w_issued w5 = w_issued w1 ++ [call] /\
       w_inflight w5 = w_inflight w /\
       w_clock w5 = (w_clock w1 + ev_latency evt)%nat /\
       (forall i t, (i < n)%nat -> outputs !! i = Some t ->
          contents (w_heap w5) t
          = Some (segment rc i (resize (Z.to_nat (sum_integers rc)) 0
                                       (ccl_exchange lib (concat cs) sc rc)))) /\
       (forall t', (storage t' < length (w_heap w))%nat ->
          (forall j o, (j < n)%nat -> outputs !! j = Some o -> disjoint_views t' o) ->
          contents (w_heap w5) t' = contents (w_heap w) t')) /\
  (forall tyi tyo,
     Forall (fun t => scalar_type t = tyi) inputs ->
     Forall (fun t => scalar_type t = tyo) outputs ->
     tyi <> tyo ->
     exists work w5,
       alltoall_ lib cclDatatypes dispatch_unsupported convert_element
         outputs inputs pg w = Ret work w5 /\
       work_state work
       = Failed (c10_Error ("expected scalar type " +:+ toString tyi +:+
                            " but found " +:+ toString tyo)) /\
       rets work = [] /\ w_issued w5 = w_issued w1).
Proof.
  intros n call Ht0 Houte Hin Hout Hdi Hdo Hdisj Hcs Hwf Hget Hsi Hso
         Hdisp Hd.
  assert (Hine : inputs <> []) by (by intros ->).
  destruct (get_ccl_comms_wf lib pg _ _ _ _ _ Hwf Hget) as (_ & Hheap & _).
  pose proof (get_ccl_comms_inflight lib pg _ _ _ _ _ Hget) as Hfl.
  rewrite <- Hheap in Hdi, Hdo, Hcs.
  assert (Hdev : get_device_list_nested [inputs] w = Ret [device t0] w).
  { simpl. change 0 with (Z.of_nat 0).
    by rewrite (bind_Ret _ _ _ _ _ (vector_at_lookup inputs 0 t0 w Ht0)). }
  unfold alltoall_.
  destruct (dispatch_single lib pg get_device_list_nested
              (alltoall_fn lib cclDatatypes dispatch_unsupported convert_element
                 (getSize pg) inputs outputs)
              inputs outputs "xpu::alltoall" w [device t0] p w1
              Hwf Hdev Hget) as (dv & run & ->).
  split.
  - intros ty Hti Hto Hok Hold. rewrite <- Hfl in Hold.
    destruct (alltoall_fn_not_flat lib cclDatatypes dispatch_unsupported
                convert_element (getSize pg) inputs outputs cs w1 ty
                Hin Hout Hdi Hdo Hdisj Hcs Hti Hto
                (constructed_comm pg dv) (mkStream (dev_index dv))
                sc flatInput fs w2 rc flatOutput fr w3 d
                Hine Houte Hsi Hso Hdisp Hd Hok Hold)
      as (_ & (w3' & evt & w4 & w5 & _ & _ & _ & _ & _ & _ &
               Hrun & Hcall & Hissued & Hfl5 & Hclock & Hseg & Hframe)).
    rewrite Hrun. eexists _, evt, w5. split; [reflexivity|].
    rewrite Hheap in Hframe. rewrite Hfl in Hfl5. repeat split; done.
  - intros tyi tyo Hti Hto Hne.
    destruct (alltoall_fn_not_flat_mistyped lib cclDatatypes dispatch_unsupported
                convert_element (getSize pg) inputs outputs cs w1 tyi tyo
                Hin Hout Hdi Hcs Hti Hto Hne
                (constructed_comm pg dv) (mkStream (dev_index dv))
                sc flatInput fs w2 rc flatOutput fr w3 d
                Hine Houte Hsi Hso Hdisp Hd)
      as (w3' & _ & Hrun & Hissued & _).
    rewrite Hrun. eexists _, w3'. split; [reflexivity|]. done.
Qed.

Lemma alltoall_end_to_end_witness :
  let inputs := [Sample.tensor [3] 0 0; Sample.tensor [4] 1 0] in
  let outputs ty := [mkTensor false ty [3] true (Sample.xpu 0) 2 0;
                     mkTensor false ty [4] true (Sample.xpu 0) 3 0] in
  (exists work evt w5,
     alltoall_ Sample.lib Sample.cclDatatypes Sample.dispatch_all
       Sample.convert_element (outputs Float) inputs
       Sample.pg Sample.w0 = Ret work w5 /\
     work_state work = Completed /\ rets work = [evt] /\
     ev_call evt = ccl_alltoallv [3; 4] [3; 4] 9 /\
     w_inflight w5 = [] /\
     contents (w_heap w5) (Sample.tensor [3] 2 0) = Some [1; 2; 3] /\
     contents (w_heap w5) (Sample.tensor [4] 3 0) = Some [4; 5; 6; 7]) /\
  (exists work w5,
     alltoall_ Sample.lib Sample.cclDatatypes Sample.dispatch_all
       Sample.convert_element (outputs Long) inputs
       Sample.pg Sample.w0 = Ret work w5 /\
     work_state work
     = Failed (c10_Error "expected scalar type Float but found Long") /\
     rets work = [] /\ w_issued w5 = w_issued Sample.w1).
Proof.
  intros inputs outputs.
  assert (Hrange : forall ty shape st off,
            shape = [3] \/ shape = [4] ->
            numel_in_range (mkTensor false ty shape true (Sample.xpu 0) st off)).
  { intros ty shape st off [-> | ->]; split; by vm_compute. }
  assert (Hdense : forall ty shape st off c,
            contents (w_heap Sample.w0)
                     (mkTensor false ty shape true (Sample.xpu 0) st off) = Some c ->
            numel_in_range (mkTensor false ty shape true (Sample.xpu 0) st off) ->
            dense_in (w_heap Sample.w0)
                     (mkTensor false ty shape true (Sample.xpu 0) st off)).
  { intros ty shape st off c Hc Hr. repeat split; try done; apply Hr. }
  assert (Hdisj : forall ty, pairwise_disjoint (Z.to_nat 2)
            [mkTensor false ty [3] true (Sample.xpu 0) 2 0;
             mkTensor false ty [4] true (Sample.xpu 0) 3 0]).
  { intros ty i j ti tj Hi Hj Hne Hti Htj.
    destruct i as [|[|i]], j as [|[|j]]; simpl in Hi, Hj; try lia;
      inversion Hti; inversion Htj; subst; left; simpl; lia. }

  assert (Hcommon := fun ty d =>
    alltoall_end_to_end Sample.lib Sample.cclDatatypes
      Sample.dispatch_all Sample.convert_element
      Sample.pg inputs (outputs ty) (Sample.tensor [3] 0 0)
      [[1; 2; 3]; [4; 5; 6; 7]] Sample.w0 0%nat Sample.w1
      [3; 4]
      (mkTensor false Float [7] true (Sample.xpu 0) 6 0) 7
      (set_heap (w_heap Sample.w1 ++ [replicate 7 0]) Sample.w1)
      [3; 4]
      (mkTensor false ty [7] true (Sample.xpu 0) 7 0) 7
      (set_heap ((w_heap Sample.w1 ++ [replicate 7 0]) ++ [replicate 7 0])
                Sample.w1)
      d
      eq_refl ltac:(discriminate)
      ltac:(simpl; lia) ltac:(simpl; lia)
      ltac:(repeat constructor;
            (eapply Hdense; [reflexivity | apply Hrange; auto]))
      ltac:(repeat constructor;
            (eapply Hdense; [reflexivity | apply Hrange; auto]))
      (Hdisj ty) ltac:(repeat constructor)
      (cache_wf_empty Sample.pg Sample.w0 eq_refl) sample_resolved
      eq_refl eq_refl eq_refl).
  split.
  - destruct (proj1 (Hcommon Float 9 eq_refl)
                Float ltac:(repeat constructor) ltac:(repeat constructor)
                eq_refl ltac:(constructor))
      as (work & evt & w5 & Hrun & Hstate & Hrets & Hcall & _ & Hfl & _ &
          Hseg & _).
    exists work, evt, w5. split; [exact Hrun|]. split; [exact Hstate|].
    split; [exact Hrets|]. split; [exact Hcall|]. split; [exact Hfl|]. split.
    + exact (Hseg 0%nat _ ltac:(simpl; lia) eq_refl).
    + exact (Hseg 1%nat _ ltac:(simpl; lia) eq_refl).
  - destruct (proj2 (Hcommon Long 6 eq_refl)
                Float Long ltac:(repeat constructor) ltac:(repeat constructor)
                ltac:(discriminate))
      as (work & w5 & Hrun & Hstate & Hrets & Hissued).
    exists work, w5. split; [exact Hrun|]. split; [exact Hstate|].
    split; [exact Hrets | exact Hissued].
Defined.
